(** * PyKMN, Generation I engine binding: a shallow embedding of
    [pykmn/engine/gen1.py] (the state codec and the turn protocol).

    The battle is a flat byte buffer shared with libpkmn.  Writes through
    cffi raise [IndexError] outside the buffer and [OverflowError] for a
    value that does not fit a [uint8_t]; every fallible step is written in
    the small exception monad [exc] below. *)

From Stdlib Require Import ZArith Lia.
From stdpp Require Import base list strings.

Open Scope Z_scope.

(** ** Python exceptions and the exception monad *)

Inductive pyerr :=
  | IndexError
  | OverflowError
  | AssertionError
  | KeyError
  | ValueError
  | Exception_
  | Softlock.

Inductive exc (A : Type) :=
  | Ok (a : A)
  | Raise (e : pyerr).
Arguments Ok {A} a.
Arguments Raise {A} e.

Definition exc_bind {A B} (m : exc A) (f : A -> exc B) : exc B :=
  match m with
  | Ok a => f a
  | Raise e => Raise e
  end.

Notation "'let*' x ':=' m 'in' f" := (exc_bind m (fun x => f))
  (at level 200, x name, m at level 100, f at level 200).

Definition py_assert (b : bool) : exc unit :=
  if b then Ok tt else Raise AssertionError.

(** ** Bit-packing primitives ([pykmn.engine.common]) *)

(** Modelled from the spec: [pack_two_u4s] / [unpack_two_u4s] of
    [pykmn.engine.common], which is not part of the sources.  Two unsigned
    4-bit values share one byte; the first value is the low nibble. *)
Definition pack_two_u4s (a b : Z) : Z := Z.lor (Z.land a 15) (Z.shiftl (Z.land b 15) 4).

Definition unpack_two_u4s (byte : Z) : Z * Z :=
  (Z.land byte 15, Z.land (Z.shiftr byte 4) 15).

(** Modelled from the spec: [pack_two_i4s] / [unpack_two_i4s] of
    [pykmn.engine.common]: two signed 4-bit values in two's complement. *)
Definition i4_to_u4 (a : Z) : Z := Z.land a 15.
Definition u4_to_i4 (n : Z) : Z := if n <? 8 then n else n - 16.

Definition pack_two_i4s (a b : Z) : Z := pack_two_u4s (i4_to_u4 a) (i4_to_u4 b).

Definition unpack_two_i4s (byte : Z) : Z * Z :=
  let (a, b) := unpack_two_u4s byte in (u4_to_i4 a, u4_to_i4 b).

(** Modelled from the spec: [extract_unsigned_int_at_offset] and
    [insert_unsigned_int_at_offset] of [pykmn.engine.common].  The
    insertion replaces bits [offset, offset+length) of [byte] by the low
    [length] bits of [n] and keeps every other bit; the range check on [n]
    is the caller's precondition. *)
Definition extract_unsigned_int_at_offset (byte offset length : Z) : Z :=
  Z.land (Z.shiftr byte offset) (Z.ones length).

Definition insert_unsigned_int_at_offset (byte n offset length : Z) : Z :=
  Z.lor (Z.land byte (Z.lnot (Z.shiftl (Z.ones length) offset)))
        (Z.shiftl (Z.land n (Z.ones length)) offset).

(** Modelled from the spec: [pack_u16_as_bytes] (little endian). *)
Definition pack_u16_as_bytes (v : Z) : list Z := [Z.land v 255; Z.land (Z.shiftr v 8) 255].

Definition unpack_u16_from_bytes (lo hi : Z) : Z := lo + 256 * hi.

(** ** [statcalc] *)

(** [math.ceil(math.sqrt(x))] on an integer [x]: the float square root is
    correctly rounded and, for [x < 2^52], never rounds a non-square up to
    an integer, so it is the integer ceiling square root. *)
Definition ceil_sqrt (x : Z) : Z := Z.sqrt_up x.

Definition statcalc (base_value : Z) (is_HP : bool) (level dv experience : Z) : Z :=
  let evs := Z.min 255 (ceil_sqrt experience) in
  let core := 2 * (base_value + dv) + evs / 4 in
  let factor := if is_HP then level + 10 else 5 in
  (core * level / 100 + factor) mod 2 ^ 16.

(** ** [Status] *)

(** [str(n)] for an integer: its decimal digits, with a leading minus sign
    when negative. *)
Fixpoint decimal_digits (fuel : nat) (n : Z) (acc : string) : string :=
  match fuel with
  | O => acc
  | S fuel' =>
      let acc' := String (Ascii.ascii_of_nat (48 + Z.to_nat (n mod 10))) acc in
      if n <? 10 then acc' else decimal_digits fuel' (n / 10) acc'
  end.

Definition py_str_int (n : Z) : string :=
  let m := Z.abs n in
  let digits := decimal_digits (S (Z.to_nat (Z.log2 m))) m EmptyString in
  if n <? 0 then "-" +:+ digits else digits.

Module Status.
Definition _SLP := 2.
Definition _PSN := 3.
Definition _BRN := 4.
Definition _FRZ := 5.
Definition _PAR := 6.

Record t := mk { _value : Z }.

Definition sleep_duration (s : t) : Z := Z.land (_value s) 7.
Definition asleep (s : t) : bool := negb (sleep_duration s =? 0).
Definition healthy (s : t) : bool := _value s =? 0.
Definition poisoned (s : t) : bool := negb (Z.land (Z.shiftr (_value s) _PSN) 1 =? 0).

Definition SLEEP (duration : Z) : t := mk duration.
Definition HEALTHY : t := mk 0.
Definition POISONED : t := mk (Z.shiftl 1 _PSN).
Definition SELF_INFLICTED_SLEEP (duration : Z) : t := mk (Z.lor 128 duration).

Definition burned (s : t) : bool := negb (Z.land (Z.shiftr (_value s) _BRN) 1 =? 0).
Definition frozen (s : t) : bool := negb (Z.land (Z.shiftr (_value s) _FRZ) 1 =? 0).
Definition paralyzed (s : t) : bool := negb (Z.land (Z.shiftr (_value s) _PAR) 1 =? 0).

Definition BURNED : t := mk (Z.shiftl 1 _BRN).
Definition FROZEN : t := mk (Z.shiftl 1 _FRZ).
Definition PARALYZED : t := mk (Z.shiftl 1 _PAR).

(** [Status.__repr__]. *)
Definition repr (s : t) : string :=
  if burned s then "Status(burned)"
  else if frozen s then "Status(frozen)"
  else if paralyzed s then "Status(paralyzed)"
  else if poisoned s then "Status(poisoned)"
  else if healthy s then "Status(healthy)"
  else "Status(sleeping for " +:+ py_str_int (sleep_duration s) +:+ " turns)".
End Status.

(** ** The shared byte buffer *)

(** [self._pkmn_battle.bytes]: a cffi [uint8_t] array.  Indexing outside
    it raises [IndexError]; storing a value outside [0, 256) raises
    [OverflowError]. *)
Abbreviation buffer := (list Z) (only parsing).

Definition get_byte (b : buffer) (i : Z) : exc Z :=
  if 0 <=? i then
    match b !! Z.to_nat i with
    | Some v => Ok v
    | None => Raise IndexError
    end
  else Raise IndexError.

Definition set_byte (b : buffer) (i v : Z) : exc buffer :=
  if (0 <=? i) && (Z.to_nat i <? length b)%nat then
    if (0 <=? v) && (v <? 256) then Ok (<[Z.to_nat i := v]> b) else Raise OverflowError
  else Raise IndexError.

(** Slice assignment [bytes[i:i+len(vs)] = vs]. *)
Fixpoint set_bytes (b : buffer) (i : Z) (vs : list Z) : exc buffer :=
  match vs with
  | [] => Ok b
  | v :: vs' => let* b' := set_byte b i v in set_bytes b' (i + 1) vs'
  end.

(** ** Layout schema ([LAYOUT_OFFSETS], [LAYOUT_SIZES]) *)

(** Modelled from the spec: the layout tables [LAYOUT_OFFSETS] and
    [LAYOUT_SIZES] of [pykmn.data.gen1], which are not part of the
    sources.  They are static data fixed by the linked libpkmn build, so
    the development is parametric in them; byte offsets are relative to
    the enclosing region, the [Vol_*] entries are bit offsets inside the
    volatiles region. *)
Record layout := {
  Battle_sides : Z;
  Battle_turn : Z;
  Side_size : Z;
  Side_pokemon : Z;
  Side_active : Z;
  Side_order : Z;
  Side_last_selected_move : Z;
  Side_last_used_move : Z;
  Pokemon_size : Z;
  Pokemon_stats : Z;
  Pokemon_moves : Z;
  Pokemon_species : Z;
  Pokemon_types : Z;
  Active_types : Z;
  Active_moves : Z;
  Active_boosts : Z;
  Active_volatiles : Z;
  Vol_confusion : Z;
  Vol_attacks : Z;
  Vol_transform : Z;
  Battle_size : Z
}.

Inductive Player := P1 | P2.

(** [Player] is an [IntEnum] of [pykmn.engine.common] with [P1 = 0] and
    [P2 = 1] (the [pkmn_player] of libpkmn). *)
Definition player_int (p : Player) : Z :=
  match p with P1 => 0 | P2 => 1 end.

(** ** Static data tables ([pykmn.data.gen1]) *)

Record Gen1StatData := mkStats {
  st_hp : Z; st_atk : Z; st_def : Z; st_spe : Z; st_spc : Z
}.

Record SpeciesData := mkSpecies {
  sd_stats : Gen1StatData;
  sd_types : list string
}.

(** Modelled from the spec: the read-only lookup tables of
    [pykmn.data.gen1] ([MOVE_IDS], [MOVES] giving base PP, [SPECIES_IDS],
    [SPECIES], [TYPES]).  A dictionary lookup of a missing key raises
    [KeyError]; [MOVE_IDS['None']] and [SPECIES_IDS['None']] are 0. *)
Record tables := {
  MOVE_IDS : string -> option Z;
  MOVES : string -> option Z;
  SPECIES_IDS : string -> option Z;
  SPECIES : string -> option SpeciesData;
  TYPES : list string
}.

Definition dict_get {A} (d : string -> option A) (k : string) : exc A :=
  match d k with Some v => Ok v | None => Raise KeyError end.

(** [seq[i]] on a Python sequence. *)
Definition py_index {A} (l : list A) (i : Z) : exc A :=
  if 0 <=? i then
    match l !! Z.to_nat i with Some v => Ok v | None => Raise IndexError end
  else Raise IndexError.

(** [list.index(x)]: the first position of [x], [ValueError] if absent. *)
Fixpoint list_index (l : list string) (x : string) : exc Z :=
  match l with
  | [] => Raise ValueError
  | y :: l' =>
      if String.eqb y x then Ok 0
      else let* i := list_index l' x in Ok (i + 1)
  end.

(** ** Pokémon data passed to the constructor *)

(** [ExtraPokemonData]: a [TypedDict] with [total=False]; an absent key
    is [None]. *)
Record ExtraPokemonData := mkExtra {
  x_hp : option Z;
  x_status : option Status.t;
  x_level : option Z;
  x_stats : option Gen1StatData;
  x_types : option (list string);
  x_move_pp : option (list Z);
  x_dvs : option Gen1StatData;
  x_exp : option Gen1StatData
}.

Definition no_extra : ExtraPokemonData :=
  mkExtra None None None None None None None None.

(** [PokemonData]: [(species, moves)] or [(species, moves, extra)]. *)
Record PokemonData := mkPokemon {
  pd_species : string;
  pd_moves : list string;
  pd_extra : option ExtraPokemonData
}.

Definition extra_field {A} (f : ExtraPokemonData -> option A)
    (ex : option ExtraPokemonData) : option A :=
  match ex with Some e => f e | None => None end.

Definition default {A} (o : option A) (d : A) : A :=
  match o with Some v => v | None => d end.

Definition all15 : Gen1StatData := mkStats 15 15 15 15 15.
Definition all65535 : Gen1StatData := mkStats 65535 65535 65535 65535 65535.
Definition all0 : Gen1StatData := mkStats 0 0 0 0 0.

(** The [for stat in stats: stats[stat] = statcalc(...)] loop. *)
Definition calc_stats (base : Gen1StatData) (level : Z) (dvs exp : Gen1StatData) : Gen1StatData :=
  mkStats (statcalc (st_hp base) true level (st_hp dvs) (st_hp exp))
          (statcalc (st_atk base) false level (st_atk dvs) (st_atk exp))
          (statcalc (st_def base) false level (st_def dvs) (st_def exp))
          (statcalc (st_spe base) false level (st_spe dvs) (st_spe exp))
          (statcalc (st_spc base) false level (st_spc dvs) (st_spc exp)).

Definition stat_list (s : Gen1StatData) : list Z :=
  [st_hp s; st_atk s; st_def s; st_spe s; st_spc s].

Section Codec.
Variable L : layout.
Variable T : tables.

(** The [(move_id, pp)] pair written for slot [move_index] by the
    [# pack moves] loop of [_initialize_pokemon]. *)
Definition move_slot (move_names : list string) (move_pp : option (list Z))
    (move_index : nat) : exc (Z * Z) :=
  if (length move_names <=? move_index)%nat then Ok (0, 0)
  else
    let* name := py_index move_names (Z.of_nat move_index) in
    let* move_id := dict_get (MOVE_IDS T) name in
    match move_pp with
    | None =>
        if move_id =? 0 then Ok (move_id, 0)
        else let* base_pp := dict_get (MOVES T) name in
             Ok (move_id, Z.min (base_pp * 8 / 5) 61)
    | Some pps =>
        let* pp := py_index pps (Z.of_nat move_index) in Ok (move_id, pp)
    end.

Fixpoint pack_moves (b : buffer) (offset : Z) (move_names : list string)
    (move_pp : option (list Z)) (idxs : list nat) : exc buffer :=
  match idxs with
  | [] => Ok b
  | move_index :: rest =>
      let* slot := move_slot move_names move_pp move_index in
      let* b := set_byte b offset (fst slot) in
      let* b := set_byte b (offset + 1) (snd slot) in
      pack_moves b (offset + 2) move_names move_pp rest
  end.

(** The species branch: stats and types, defaulted. *)
Definition species_defaults (species_name : string) (stats : option Gen1StatData)
    (types : option (list string)) (level : Z) (dvs exp : Gen1StatData)
    : exc (Gen1StatData * list string) :=
  if String.eqb species_name "None" then
    Ok (default stats all0, default types ["Normal"; "Normal"])
  else
    match SPECIES T species_name with
    | Some sd =>
        let stats' := default stats (calc_stats (sd_stats sd) level dvs exp) in
        let* types' :=
          match types with
          | Some ts => Ok ts
          | None =>
              let* first_type := py_index (sd_types sd) 0 in
              let second_type :=
                match sd_types sd with
                | _ :: t2 :: _ => t2
                | _ => first_type
                end in
              Ok [first_type; second_type]
          end in
        Ok (stats', types')
    | None => Raise ValueError
    end.

Definition _initialize_pokemon (b : buffer) (battle_offset : Z) (pd : PokemonData)
    : exc buffer :=
  let ex := pd_extra pd in
  let hp := extra_field x_hp ex in
  let status := default (option_map Status._value (extra_field x_status ex)) 0 in
  let level := default (extra_field x_level ex) 100 in
  let move_pp := extra_field x_move_pp ex in
  let dvs := default (extra_field x_dvs ex) all15 in
  let exp := default (extra_field x_exp ex) all65535 in
  let* st := species_defaults (pd_species pd) (extra_field x_stats ex)
               (extra_field x_types ex) level dvs exp in
  let stats := fst st in
  let types := snd st in
  let hp := default hp (st_hp stats) in
  let offset := battle_offset + Pokemon_stats L in
  (* pack stats *)
  let* b := set_bytes b offset (flat_map pack_u16_as_bytes (stat_list stats)) in
  (* pack moves *)
  let* b := pack_moves b (offset + 10) (pd_moves pd) move_pp (seq 0 4) in
  (* pack HP *)
  let* b := set_bytes b (offset + 18) (pack_u16_as_bytes hp) in
  (* pack status *)
  let* b := set_byte b (offset + 20) status in
  (* pack species *)
  let* species_id := dict_get (SPECIES_IDS T) (pd_species pd) in
  let* b := set_byte b (offset + 21) species_id in
  (* pack types *)
  let* t0 := py_index types 0 in
  let* i0 := list_index (TYPES T) t0 in
  let* t1 := py_index types 1 in
  let* i1 := list_index (TYPES T) t1 in
  let* b := set_byte b (offset + 22) (pack_two_u4s i0 i1) in
  (* pack level *)
  set_byte b (offset + 23) level.

End Codec.

(** ** The libpkmn binding (external engine) *)

(** The calls this module makes into libpkmn, in the order made; the
    engine itself is an opaque collaborator. *)
Inductive engine_call :=
  | CallChoices (player kind : Z)
  | CallUpdate (c1 c2 : Z).

(** A [LibpkmnBinding]: build flags, sizes and the entry points used here.
    [pkmn_gen1_battle_choices] returns the count it reports and the
    contents of the choice buffer after the call; [pkmn_psrng_init] gives
    the bytes of the generator state seeded with a 64-bit seed. *)
Record libpkmn_binding := {
  HAS_TRACE : bool;
  IS_SHOWDOWN_COMPATIBLE : Z;
  PKMN_OPTIONS_SIZE : Z;
  pkmn_psrng_init : Z -> list Z;
  pkmn_result_p1 : Z -> Z;
  pkmn_result_p2 : Z -> Z;
  pkmn_gen1_battle_choices : buffer -> Z -> Z -> list Z -> Z -> Z * list Z
}.

(** The values drawn from Python's [random] module by an unseeded
    construction ([random.randrange(2**64)], and the [i]-th
    [random.randrange(2**8)]). *)
Record randomness := {
  rand_u64 : Z;
  rand_u8 : nat -> Z
}.

(** A [Battle] object: the battle buffer, the choice buffer, and the log
    of engine calls made through it. *)
Record Battle := mkBattle {
  _libpkmn : libpkmn_binding;
  _pkmn_battle : buffer;
  _choice_buf : list Z;
  _calls : list engine_call
}.

Inductive rng_seed_arg :=
  | SeedNone
  | SeedInt (n : Z)
  | SeedList (l : list Z).

(** Modelled from the spec: [ShowdownRNG._initialize] of [pykmn.engine.rng]
    (not part of the sources) hands the RNG sub-region of the buffer to the
    generator's own initialisation routine, which writes the seeded state
    into it. *)
Definition ShowdownRNG_initialize (lib : libpkmn_binding) (b : buffer) (offset seed : Z)
    : exc buffer :=
  set_bytes b offset (pkmn_psrng_init lib seed).

Section Construction.
Variable L : layout.
Variable T : tables.

Fixpoint init_team (b : buffer) (pokemon_start : Z) (i : Z) (team : list PokemonData)
    : exc buffer :=
  match team with
  | [] => Ok b
  | pkmn :: rest =>
      let* b := _initialize_pokemon L T b (pokemon_start + i * Pokemon_size L) pkmn in
      init_team b pokemon_start (i + 1) rest
  end.

(** [for i in range(len(team)): bytes[side_start + order + i] = i + 1] *)
Fixpoint write_order (b : buffer) (order_start : Z) (idxs : list nat) : exc buffer :=
  match idxs with
  | [] => Ok b
  | i :: rest =>
      let* b := set_byte b (order_start + Z.of_nat i) (Z.of_nat i + 1) in
      write_order b order_start rest
  end.

(** One iteration of the side loop of [Battle.__init__]. *)
Definition init_side (b : buffer) (side_start : Z) (last_selected_move last_used_move : string)
    (team : list PokemonData) : exc buffer :=
  let* id1 := dict_get (MOVE_IDS T) last_selected_move in
  let* b := set_byte b (side_start + Side_last_selected_move L) id1 in
  let* id2 := dict_get (MOVE_IDS T) last_used_move in
  let* b := set_byte b (side_start + Side_last_used_move L) id2 in
  let* b := init_team b (side_start + Side_pokemon L) 0 team in
  write_order b (side_start + Side_order L) (seq 0 (length team)).

(** [Battle.__init__]; the buffer from [ffi.new] is zero-filled. *)
Definition Battle_init (lib : libpkmn_binding) (rnd : randomness)
    (p1_team p2_team : list PokemonData)
    (p1_last_selected_move p1_last_used_move p2_last_selected_move p2_last_used_move : string)
    (start_turn last_damage p1_move_idx p2_move_idx : Z) (rng_seed : rng_seed_arg)
    : exc Battle :=
  let b := repeat 0 (Z.to_nat (Battle_size L)) in
  let choice_buf := repeat 0 (Z.to_nat (PKMN_OPTIONS_SIZE lib)) in
  let p1_side_start := Battle_sides L in
  let p2_side_start := Battle_sides L + Side_size L in
  let* b := init_side b p1_side_start p1_last_selected_move p1_last_used_move p1_team in
  let* b := init_side b p2_side_start p2_last_selected_move p2_last_used_move p2_team in
  let offset := Battle_turn L in
  let* b := set_bytes b offset (pack_u16_as_bytes start_turn) in
  let offset := offset + 2 in
  let* b := set_bytes b offset (pack_u16_as_bytes last_damage) in
  let offset := offset + 2 in
  let* b :=
    if IS_SHOWDOWN_COMPATIBLE lib =? 1 then
      let* b := set_bytes b offset (pack_u16_as_bytes p1_move_idx) in
      let offset := offset + 2 in
      let* b := set_bytes b offset (pack_u16_as_bytes p2_move_idx) in
      let offset := offset + 2 in
      let* seed :=
        match rng_seed with
        | SeedNone => Ok (rand_u64 rnd)
        | SeedList _ => Raise Exception_
        | SeedInt n => Ok n
        end in
      ShowdownRNG_initialize lib b offset seed
    else
      let* b := set_byte b offset (pack_two_u4s p1_move_idx p2_move_idx) in
      let offset := offset + 1 in
      match rng_seed with
      | SeedNone => set_bytes b offset (map (rand_u8 rnd) (seq 0 10))
      | SeedInt _ => Raise Exception_
      | SeedList seeds => set_bytes b offset seeds
      end in
  Ok (mkBattle lib b choice_buf []).

End Construction.

(** ** Accessors *)

Record BoostData := mkBoosts {
  b_atk : Z; b_def : Z; b_spe : Z; b_spc : Z; b_accuracy : Z; b_evasion : Z
}.

(** [PartialBoostData]: every key optional. *)
Record PartialBoostData := mkPartialBoosts {
  pb_atk : option Z; pb_def : option Z; pb_spe : option Z;
  pb_spc : option Z; pb_accuracy : option Z; pb_evasion : option Z
}.

(** A Pokémon slot argument: a roster slot [1..6] or ["Active"]. *)
Inductive slot_arg :=
  | Slot (n : Z)
  | Active.

Section Accessors.
Variable L : layout.
Variable T : tables.

Definition side_offset (player : Player) : Z :=
  Battle_sides L + Side_size L * player_int player.

Definition active_offset (player : Player) : Z :=
  side_offset player + Side_active L.

Definition pokemon_offset (player : Player) (pokemon : Z) : Z :=
  side_offset player + Side_pokemon L + Pokemon_size L * (pokemon - 1).

Definition boosts (b : buffer) (player : Player) : exc BoostData :=
  let offset := active_offset player + Active_boosts L in
  let* x0 := get_byte b offset in
  let '(attack, defense) := unpack_two_i4s x0 in
  let* x1 := get_byte b (offset + 1) in
  let '(speed, special) := unpack_two_i4s x1 in
  let* x2 := get_byte b (offset + 2) in
  let '(accuracy, evasion) := unpack_two_i4s x2 in
  Ok (mkBoosts attack defense speed special accuracy evasion).

Definition set_boosts (b : buffer) (player : Player) (new_boosts : PartialBoostData)
    : exc buffer :=
  let offset := active_offset player + Active_boosts L in
  let* old_boosts := boosts b player in
  let* b := set_byte b offset
              (pack_two_i4s (default (pb_atk new_boosts) (b_atk old_boosts))
                            (default (pb_def new_boosts) (b_def old_boosts))) in
  let* b := set_byte b (offset + 1)
              (pack_two_i4s (default (pb_spe new_boosts) (b_spe old_boosts))
                            (default (pb_spc new_boosts) (b_spc old_boosts))) in
  set_byte b (offset + 2)
    (pack_two_i4s (default (pb_accuracy new_boosts) (b_accuracy old_boosts))
                  (default (pb_evasion new_boosts) (b_evasion old_boosts))).

(** Byte and bit position of a sub-byte volatile field. *)
Definition volatile_field_pos (player : Player) (bit_offset : Z) : Z * Z :=
  (active_offset player + Active_volatiles L + bit_offset / 8, bit_offset mod 8).

Definition confusion_turns_left (b : buffer) (player : Player) : exc Z :=
  let '(byte_offset, bit_offset) := volatile_field_pos player (Vol_confusion L) in
  let* byte := get_byte b byte_offset in
  Ok (extract_unsigned_int_at_offset byte bit_offset 3).

Definition set_confusion_turns_left (b : buffer) (player : Player) (new_turns_left : Z)
    : exc buffer :=
  let* _ := py_assert ((new_turns_left <=? 2 ^ 3) && (new_turns_left >=? 0)) in
  let '(byte_offset, bit_offset) := volatile_field_pos player (Vol_confusion L) in
  let* byte := get_byte b byte_offset in
  set_byte b byte_offset (insert_unsigned_int_at_offset byte new_turns_left bit_offset 3).

Definition attacks_left (b : buffer) (player : Player) : exc Z :=
  let '(byte_offset, bit_offset) := volatile_field_pos player (Vol_attacks L) in
  let* byte := get_byte b byte_offset in
  Ok (extract_unsigned_int_at_offset byte bit_offset 3).

Definition set_attacks_left (b : buffer) (player : Player) (new_attacks_left : Z)
    : exc buffer :=
  let* _ := py_assert ((new_attacks_left <=? 2 ^ 3) && (new_attacks_left >=? 0)) in
  let '(byte_offset, bit_offset) := volatile_field_pos player (Vol_attacks L) in
  let* byte := get_byte b byte_offset in
  set_byte b byte_offset (insert_unsigned_int_at_offset byte new_attacks_left bit_offset 3).

Definition transformed_into (b : buffer) (player : Player) : exc (Player * Z) :=
  let '(byte_offset, bit_offset) := volatile_field_pos player (Vol_transform L) in
  let* byte := get_byte b byte_offset in
  let transform_u4 := extract_unsigned_int_at_offset byte bit_offset 4 in
  let slot := Z.land transform_u4 3 in
  Ok (if Z.shiftr transform_u4 3 =? 0 then P1 else P2, slot).

Definition set_transformed_into (b : buffer) (player : Player)
    (new_transformed_into : Player * Z) : exc buffer :=
  let '(byte_offset, bit_offset) := volatile_field_pos player (Vol_transform L) in
  let transform_u4 :=
    Z.lor (Z.shiftl (player_int (fst new_transformed_into)) 3) (snd new_transformed_into) in
  let* byte := get_byte b byte_offset in
  set_byte b byte_offset (insert_unsigned_int_at_offset byte transform_u4 bit_offset 4).

(** The tuple returned by the type getters. *)
Definition types_tuple (byte : Z) : exc (list string) :=
  let '(type1, type2) := unpack_two_u4s byte in
  if negb (type2 =? type1) then
    let* t1 := py_index (TYPES T) type1 in
    let* t2 := py_index (TYPES T) type2 in
    Ok [t1; t2]
  else
    let* t1 := py_index (TYPES T) type1 in Ok [t1].

Definition active_pokemon_types (b : buffer) (player : Player) : exc (list string) :=
  let* byte := get_byte b (active_offset player + Active_types L) in
  types_tuple byte.

Definition types (b : buffer) (player : Player) (pokemon : Z) : exc (list string) :=
  let* byte := get_byte b (pokemon_offset player pokemon + Pokemon_types L) in
  types_tuple byte.

Definition set_types (b : buffer) (player : Player) (pokemon : Z) (new_types : list string)
    : exc buffer :=
  let offset := pokemon_offset player pokemon + Pokemon_types L in
  let* t0 := py_index new_types 0 in
  let* i0 := list_index (TYPES T) t0 in
  let* t1 := py_index new_types 1 in
  let* i1 := list_index (TYPES T) t1 in
  set_byte b offset (pack_two_u4s i0 i1).

Definition moves_offset (player : Player) (pokemon : slot_arg) : Z :=
  match pokemon with
  | Active => active_offset player + Active_moves L
  | Slot n => pokemon_offset player n + Pokemon_moves L
  end.

Fixpoint write_moves (b : buffer) (offset i : Z) (new_moves : list (string * Z))
    : exc buffer :=
  match new_moves with
  | [] => Ok b
  | (move, pp) :: rest =>
      let* move_id := dict_get (MOVE_IDS T) move in
      let* b := set_byte b (offset + i * 2) move_id in
      let* b := set_byte b (offset + i * 2 + 1) pp in
      write_moves b offset (i + 1) rest
  end.

Definition set_moves (b : buffer) (player : Player) (pokemon : slot_arg)
    (new_moves : list (string * Z)) : exc buffer :=
  write_moves b (moves_offset player pokemon) 0 new_moves.

End Accessors.

(** ** Turn protocol: choice enumeration *)

Record Result := mkResult { _pkmn_result : Z }.

(** The kind of choice the previous result requests from [player]. *)
Definition requested_kind (lib : libpkmn_binding) (player : Player)
    (previous_turn_result : Result) : Z :=
  let last_result := _pkmn_result previous_turn_result in
  match player with
  | P1 => pkmn_result_p1 lib last_result
  | P2 => pkmn_result_p2 lib last_result
  end.

(** [Battle._fill_choice_buffer]: asks libpkmn for the choices of the kind
    requested by the previous result; the choice buffer is overwritten. *)
Definition _fill_choice_buffer (battle : Battle) (player : Player)
    (previous_turn_result : Result) : Battle * Z :=
  let lib := _libpkmn battle in
  let requested_kind := requested_kind lib player previous_turn_result in
  let '(num_choices, out) :=
    pkmn_gen1_battle_choices lib (_pkmn_battle battle) (player_int player) requested_kind
      (_choice_buf battle) (PKMN_OPTIONS_SIZE lib) in
  (mkBattle lib (_pkmn_battle battle) out
     (_calls battle ++ [CallChoices (player_int player) requested_kind]),
   num_choices).

(** [Choice(self._choice_buf[i]) for i in range(num_choices)]; a [Choice]
    wraps the raw [pkmn_choice]. *)
Fixpoint read_choices (buf : list Z) (idxs : list nat) : exc (list Z) :=
  match idxs with
  | [] => Ok []
  | i :: rest =>
      let* c := py_index buf (Z.of_nat i) in
      let* cs := read_choices buf rest in
      Ok (c :: cs)
  end.

(** [Battle.possible_choices]: the battle after the call and the outcome. *)
Definition possible_choices (battle : Battle) (player : Player) (previous_turn_result : Result)
    : Battle * exc (list Z) :=
  let '(battle, num_choices) := _fill_choice_buffer battle player previous_turn_result in
  if num_choices =? 0 then (battle, Raise Softlock)
  else (battle, read_choices (_choice_buf battle) (seq 0 (Z.to_nat num_choices))).

(** [Battle.possible_choices_raw]: [self._choice_buf[0:num_choices]]. *)
Definition possible_choices_raw (battle : Battle) (player : Player)
    (previous_turn_result : Result) : Battle * exc (list Z) :=
  let '(battle, num_choices) := _fill_choice_buffer battle player previous_turn_result in
  if (Z.to_nat num_choices <=? length (_choice_buf battle))%nat
  then (battle, Ok (firstn (Z.to_nat num_choices) (_choice_buf battle)))
  else (battle, Raise IndexError).

(** ** Concrete data for evaluation *)

(** The offsets of the libpkmn Generation I battle structure. *)
Definition sample_layout : layout := {|
  Battle_sides := 0; Battle_turn := 368; Side_size := 184; Side_pokemon := 0;
  Side_active := 144; Side_order := 176; Side_last_selected_move := 182;
  Side_last_used_move := 183; Pokemon_size := 24; Pokemon_stats := 0;
  Pokemon_moves := 10; Pokemon_species := 21; Pokemon_types := 22;
  Active_types := 11; Active_moves := 24; Active_boosts := 12; Active_volatiles := 16;
  Vol_confusion := 18; Vol_attacks := 21; Vol_transform := 48; Battle_size := 384
|}.

Definition sample_TYPES : list string :=
  ["Normal"; "Fighting"; "Flying"; "Poison"; "Ground"; "Rock"; "Bug"; "Ghost";
   "Fire"; "Water"; "Grass"; "Electric"; "Psychic"; "Ice"; "Dragon"].

(** A fragment of the Generation I tables. *)
Definition sample_tables : tables := {|
  MOVE_IDS := fun m =>
    if String.eqb m "None" then Some 0
    else if String.eqb m "Tackle" then Some 33
    else if String.eqb m "Thunderbolt" then Some 85 else None;
  MOVES := fun m =>
    if String.eqb m "Tackle" then Some 35
    else if String.eqb m "Thunderbolt" then Some 15 else None;
  SPECIES_IDS := fun s =>
    if String.eqb s "None" then Some 0
    else if String.eqb s "Pikachu" then Some 25 else None;
  SPECIES := fun s =>
    if String.eqb s "Pikachu" then Some (mkSpecies (mkStats 35 55 30 90 50) ["Electric"])
    else None;
  TYPES := sample_TYPES
|}.

(** A libpkmn build in compact (non-Showdown) mode whose enumeration
    always reports [n] choices. *)
Definition sample_lib (showdown : Z) (n : Z) : libpkmn_binding := {|
  HAS_TRACE := true;
  IS_SHOWDOWN_COMPATIBLE := showdown;
  PKMN_OPTIONS_SIZE := 9;
  pkmn_psrng_init := fun seed => map (fun k => Z.land (Z.shiftr seed (8 * Z.of_nat k)) 255) (seq 0 8);
  pkmn_result_p1 := fun r => Z.land (Z.shiftr r 4) 3;
  pkmn_result_p2 := fun r => Z.shiftr r 6;
  pkmn_gen1_battle_choices := fun _ _ _ out _ => (n, out)
|}.

Definition sample_rnd : randomness := {| rand_u64 := 42; rand_u8 := fun i => Z.of_nat i |}.

Definition pikachu : PokemonData := mkPokemon "Pikachu" ["Thunderbolt"; "Tackle"] None.

(** * Properties *)

(** ** Finite checks over small integer ranges *)

Fixpoint all_below (n : nat) (f : Z -> bool) : bool :=
  match n with
  | O => true
  | S n' => f (Z.of_nat n') && all_below n' f
  end.

Lemma all_below_spec n f :
  all_below n f = true -> forall z, 0 <= z < Z.of_nat n -> f z = true.
Proof.
  induction n as [|n IH]; simpl; intros H z Hz; [lia|].
  apply andb_true_iff in H as [H1 H2].
  destruct (Z.eq_dec z (Z.of_nat n)) as [->|Hne]; [exact H1|].
  apply IH; [exact H2|lia].
Qed.

Lemma u4_pair_check :
  all_below 16 (fun a => all_below 16 (fun c =>
    let p := pack_two_u4s a c in
    (0 <=? p) && (p <? 256) && (fst (unpack_two_u4s p) =? a)
    && (snd (unpack_two_u4s p) =? c))) = true.
Proof. vm_compute. reflexivity. Qed.

Lemma pack_unpack_two_u4s a c :
  0 <= a < 16 -> 0 <= c < 16 ->
  unpack_two_u4s (pack_two_u4s a c) = (a, c) /\ 0 <= pack_two_u4s a c < 256.
Proof.
  intros Ha Hc.
  pose proof (all_below_spec _ _ u4_pair_check a Ha) as H.
  pose proof (all_below_spec _ _ H c Hc) as H'.
  cbv zeta in H'. unfold unpack_two_u4s in *. simpl in H'.
  repeat rewrite andb_true_iff in H'. rewrite !Z.leb_le, !Z.ltb_lt, !Z.eqb_eq in H'.
  destruct H' as [[[H1 H2] H3] H4]. rewrite H3, H4. split; [reflexivity | lia].
Qed.

Lemma land15_range a : 0 <= Z.land a 15 < 16.
Proof.
  change 15 with (Z.ones 4). rewrite Z.land_ones by lia.
  apply Z.mod_pos_bound. lia.
Qed.

Lemma pack_two_u4s_masked a c :
  pack_two_u4s a c = pack_two_u4s (Z.land a 15) (Z.land c 15).
Proof. unfold pack_two_u4s. rewrite <- !Z.land_assoc. reflexivity. Qed.

Lemma pack_two_u4s_range a c : 0 <= pack_two_u4s a c < 256.
Proof.
  rewrite pack_two_u4s_masked.
  apply pack_unpack_two_u4s; apply land15_range.
Qed.

Lemma pack_two_i4s_range a c : 0 <= pack_two_i4s a c < 256.
Proof. apply pack_two_u4s_range. Qed.

Lemma i4_roundtrip a : -8 <= a < 8 -> u4_to_i4 (i4_to_u4 a) = a /\ 0 <= i4_to_u4 a < 16.
Proof.
  intros Ha. unfold i4_to_u4, u4_to_i4.
  change 15 with (Z.ones 4). rewrite Z.land_ones by lia.
  change (2 ^ 4) with 16.
  destruct (Z.lt_ge_cases a 0).
  - replace (a mod 16) with (a + 16).
    + split; [destruct (Z.ltb_spec (a + 16) 8); lia | lia].
    + apply Z.mod_unique with (-1); lia.
  - rewrite Z.mod_small by lia.
    split; [destruct (Z.ltb_spec a 8); lia | lia].
Qed.

Lemma pack_unpack_two_i4s a c :
  -8 <= a < 8 -> -8 <= c < 8 -> unpack_two_i4s (pack_two_i4s a c) = (a, c).
Proof.
  intros Ha Hc. unfold unpack_two_i4s, pack_two_i4s.
  destruct (i4_roundtrip a Ha) as [Ea Ra]. destruct (i4_roundtrip c Hc) as [Ec Rc].
  destruct (pack_unpack_two_u4s _ _ Ra Rc) as [E _]. rewrite E. rewrite Ea, Ec. reflexivity.
Qed.

Lemma u4_to_i4_range n : 0 <= n < 16 -> -8 <= u4_to_i4 n < 8.
Proof. intros Hn. unfold u4_to_i4. destruct (Z.ltb_spec n 8); lia. Qed.

Lemma unpack_two_i4s_range byte :
  -8 <= fst (unpack_two_i4s byte) < 8 /\ -8 <= snd (unpack_two_i4s byte) < 8.
Proof.
  unfold unpack_two_i4s, unpack_two_u4s. simpl.
  split; apply u4_to_i4_range; apply land15_range.
Qed.

(** Insertion into a field of [length] bits at [offset] inside a byte, for
    values below 16. *)
Definition insert_check (length : Z) : bool :=
  all_below 256 (fun byte => all_below 8 (fun offset => all_below 16 (fun n =>
    if offset + length <=? 8 then
      let r := insert_unsigned_int_at_offset byte n offset length in
      (0 <=? r) && (r <? 256)
      && (extract_unsigned_int_at_offset r offset length =? Z.land n (Z.ones length))
    else true))).

Lemma insert_check_3 : insert_check 3 = true.
Proof. vm_compute. reflexivity. Qed.

Lemma insert_check_4 : insert_check 4 = true.
Proof. vm_compute. reflexivity. Qed.

Lemma insert_extract length byte n offset :
  insert_check length = true -> 0 < length ->
  0 <= byte < 256 -> 0 <= offset -> offset + length <= 8 -> 0 <= n < 16 ->
  0 <= insert_unsigned_int_at_offset byte n offset length < 256 /\
  extract_unsigned_int_at_offset (insert_unsigned_int_at_offset byte n offset length)
    offset length = Z.land n (Z.ones length).
Proof.
  intros Hc Hlen Hb Ho Hl Hn.
  assert (Ho8 : 0 <= offset < Z.of_nat 8) by (simpl; lia).
  pose proof (all_below_spec _ _ Hc byte Hb) as H1.
  pose proof (all_below_spec _ _ H1 offset Ho8) as H2.
  pose proof (all_below_spec _ _ H2 n Hn) as H3.
  cbv beta zeta in H3.
  destruct (Z.leb_spec (offset + length) 8); [|lia].
  repeat rewrite andb_true_iff in H3. rewrite !Z.leb_le, !Z.ltb_lt, !Z.eqb_eq in H3.
  destruct H3 as [[H4 H5] H6]. auto.
Qed.

(** ** Reading and writing the buffer *)

Lemma set_byte_inv b i v b' :
  set_byte b i v = Ok b' ->
  0 <= i /\ (Z.to_nat i < length b)%nat /\ 0 <= v < 256 /\ b' = <[Z.to_nat i := v]> b.
Proof.
  unfold set_byte.
  destruct (Z.leb_spec 0 i); [|discriminate].
  destruct (Nat.ltb_spec (Z.to_nat i) (length b)); [|discriminate].
  destruct (Z.leb_spec 0 v), (Z.ltb_spec v 256); simpl; try discriminate.
  intros [= <-]. repeat split; lia.
Qed.

Lemma set_byte_ok b i v :
  0 <= i -> (Z.to_nat i < length b)%nat -> 0 <= v < 256 ->
  set_byte b i v = Ok (<[Z.to_nat i := v]> b).
Proof.
  intros Hi Hl Hv. unfold set_byte.
  destruct (Z.leb_spec 0 i); [|lia].
  destruct (Nat.ltb_spec (Z.to_nat i) (length b)); [|lia].
  destruct (Z.leb_spec 0 v), (Z.ltb_spec v 256); simpl; try lia. reflexivity.
Qed.

Lemma get_byte_inv b i v :
  get_byte b i = Ok v -> 0 <= i /\ b !! Z.to_nat i = Some v.
Proof.
  unfold get_byte. destruct (Z.leb_spec 0 i); [|discriminate].
  destruct (b !! Z.to_nat i) eqn:E; [|discriminate]. intros [= <-]. auto.
Qed.

Lemma get_byte_of_lookup b i v :
  0 <= i -> b !! Z.to_nat i = Some v -> get_byte b i = Ok v.
Proof.
  intros Hi E. unfold get_byte. destruct (Z.leb_spec 0 i); [|lia]. rewrite E. reflexivity.
Qed.

(** A step [b ~> b'] keeps the length and every byte whose index
    satisfies [keep]. *)
Definition frame (keep : Z -> Prop) (b b' : buffer) : Prop :=
  length b' = length b /\ forall j : nat, keep (Z.of_nat j) -> b' !! j = b !! j.

Lemma frame_refl keep b : frame keep b b.
Proof. split; auto. Qed.

Lemma frame_trans keep b1 b2 b3 : frame keep b1 b2 -> frame keep b2 b3 -> frame keep b1 b3.
Proof.
  intros [L1 F1] [L2 F2]. split; [congruence|].
  intros j Hj. rewrite F2, F1; auto.
Qed.

Lemma frame_weaken (keep keep' : Z -> Prop) b b' :
  (forall j, keep' j -> keep j) -> frame keep b b' -> frame keep' b b'.
Proof. intros Himp [L F]. split; auto. Qed.

Lemma set_byte_frame b i v b' :
  set_byte b i v = Ok b' -> frame (fun j => j <> i) b b'.
Proof.
  intros H. apply set_byte_inv in H as (Hi & Hl & Hv & ->).
  split; [apply length_insert|].
  intros j Hj. apply list_lookup_insert_ne. lia.
Qed.

Lemma set_byte_lookup b i v b' :
  set_byte b i v = Ok b' -> b' !! Z.to_nat i = Some v.
Proof.
  intros H. apply set_byte_inv in H as (Hi & Hl & Hv & ->).
  apply list_lookup_insert_eq. exact Hl.
Qed.

Lemma set_bytes_frame vs b i b' :
  set_bytes b i vs = Ok b' ->
  frame (fun j => j < i \/ i + Z.of_nat (length vs) <= j) b b'.
Proof.
  revert b i. induction vs as [|v vs IH]; simpl; intros b i H.
  - injection H as <-. apply frame_refl.
  - destruct (set_byte b i v) as [b1|e] eqn:E; simpl in H; [|discriminate].
    apply frame_trans with b1.
    + eapply frame_weaken; [|exact (set_byte_frame _ _ _ _ E)]. simpl. lia.
    + eapply frame_weaken; [|exact (IH _ _ H)]. simpl. lia.
Qed.

(** A step that may fail: when it succeeds, it is a [frame] step. *)
Definition frames (keep : Z -> Prop) (b : buffer) (r : exc buffer) : Prop :=
  match r with Ok b' => frame keep b b' | Raise _ => True end.

Ltac step_frame E :=
  lazymatch type of E with
  | set_byte _ _ _ = Ok _ => pose proof (set_byte_frame _ _ _ _ E)
  | set_bytes _ _ _ = Ok _ => pose proof (set_bytes_frame _ _ _ _ E)
  end.

Lemma list_index_spec (l : list string) x i :
  list_index l x = Ok i -> 0 <= i /\ l !! Z.to_nat i = Some x.
Proof.
  revert i. induction l as [|y l IH]; simpl; intros i H; [discriminate|].
  destruct (String.eqb_spec y x) as [->|Hne].
  - injection H as <-. split; [lia | reflexivity].
  - destruct (list_index l x) as [k|e] eqn:E; simpl in H; [|discriminate].
    injection H as <-. destruct (IH k eq_refl) as [Hk Hl].
    split; [lia|]. replace (Z.to_nat (k + 1)) with (S (Z.to_nat k)) by lia. exact Hl.
Qed.

Lemma py_index_of_lookup {A} (l : list A) i x :
  0 <= i -> l !! Z.to_nat i = Some x -> py_index l i = Ok x.
Proof.
  intros Hi E. unfold py_index. destruct (Z.leb_spec 0 i); [|lia]. rewrite E. reflexivity.
Qed.

Lemma types_tuple_shape T byte ts :
  types_tuple T byte = Ok ts ->
  (length ts = 1%nat \/ length ts = 2%nat) /\
  (length ts = 1%nat <-> fst (unpack_two_u4s byte) = snd (unpack_two_u4s byte)).
Proof.
  unfold types_tuple. destruct (unpack_two_u4s byte) as [t1 t2]. simpl.
  destruct (Z.eqb_spec t2 t1) as [E|E]; simpl.
  - destruct (py_index (TYPES T) t1); simpl; [|discriminate].
    intros [= <-]. simpl. split; [auto|split; [intros; lia|auto]].
  - destruct (py_index (TYPES T) t1); simpl; [|discriminate].
    destruct (py_index (TYPES T) t2); simpl; [|discriminate].
    intros [= <-]. simpl. split; [auto|split; [discriminate|intros; lia]].
Qed.

(** ** C1: the stat calculator at the spec's example *)

(** Claim C1 (as stated, refuted): [statcalc] with base 100, not HP,
    level 100, DV 15 and stat experience 65535 does not return 299. *)
Lemma statcalc_example_not_299 : statcalc 100 false 100 15 65535 <> 299.
Proof. vm_compute. discriminate. Qed.

(** Claim C1 (amended): [statcalc 100 False 100 15 65535] returns 298:
    the ceiling square root of 65535 is 256, saturated to 255, and
    [255 // 4 = 63], so the result is [2 * 115 + 63 + 5]. *)
Theorem statcalc_example_298 :
  Z.min 255 (ceil_sqrt 65535) = 255 /\ statcalc 100 false 100 15 65535 = 298.
Proof. split; vm_compute; reflexivity. Qed.

(** ** C5: the self-inflicted sleep status byte *)

(** Claim C5 (as stated, refuted): [Status.SELF_INFLICTED_SLEEP(1)] does
    not set bit 3. *)
Lemma self_inflicted_sleep_bit3_clear :
  Z.testbit (Status._value (Status.SELF_INFLICTED_SLEEP 1)) 3 = false.
Proof. reflexivity. Qed.

(** Claim C5 (amended): for a duration [d] in [0, 7] the raw value of
    [Status.SELF_INFLICTED_SLEEP(d)] has bit 7 set, bits 0-2 equal to [d]
    (so [sleep_duration] is [d]), and no bit other than bits 0-2 and 7. *)
Theorem self_inflicted_sleep_layout (d : Z) (Hd : 0 <= d <= 7) :
  let v := Status._value (Status.SELF_INFLICTED_SLEEP d) in
  Z.testbit v 7 = true /\ Z.land v 7 = d /\
  Status.sleep_duration (Status.SELF_INFLICTED_SLEEP d) = d /\
  (forall i, Z.testbit v i = true -> (0 <= i <= 2 \/ i = 7)).
Proof.
  cbv zeta. unfold Status.sleep_duration, Status.SELF_INFLICTED_SLEEP. simpl.
  assert (Hv : Z.lor 128 d = 128 + d /\ Z.log2 (128 + d) = 7).
  { assert (d = 0 \/ d = 1 \/ d = 2 \/ d = 3 \/ d = 4 \/ d = 5 \/ d = 6 \/ d = 7) as Hc by lia.
    repeat destruct Hc as [-> | Hc]; [..|subst]; split; reflexivity. }
  destruct Hv as [Hv Hlog]. rewrite Hv.
  assert (d = 0 \/ d = 1 \/ d = 2 \/ d = 3 \/ d = 4 \/ d = 5 \/ d = 6 \/ d = 7) as Hc by lia.
  split; [repeat destruct Hc as [-> | Hc]; [..|subst]; reflexivity|].
  split; [repeat destruct Hc as [-> | Hc]; [..|subst]; reflexivity|].
  split; [repeat destruct Hc as [-> | Hc]; [..|subst]; reflexivity|].
  intros i Hi.
  destruct (Z.ltb_spec i 0) as [Hneg|Hnn]; [rewrite Z.testbit_neg_r in Hi by lia; discriminate|].
  destruct (Z.ltb_spec i 8) as [Hlt|Hge].
  - assert (i = 0 \/ i = 1 \/ i = 2 \/ i = 3 \/ i = 4 \/ i = 5 \/ i = 6 \/ i = 7) as Hic by lia.
    repeat destruct Hic as [-> | Hic]; try lia; subst;
      repeat destruct Hc as [-> | Hc]; try subst; discriminate.
  - rewrite Z.bits_above_log2 in Hi by lia. discriminate.
Qed.

Lemma self_inflicted_sleep_layout_witness :
  0 <= 5 <= 7 /\
  (let v := Status._value (Status.SELF_INFLICTED_SLEEP 5) in
   Z.testbit v 7 = true /\ Z.land v 7 = 5 /\
   Status.sleep_duration (Status.SELF_INFLICTED_SLEEP 5) = 5 /\
   (forall i, Z.testbit v i = true -> (0 <= i <= 2 \/ i = 7))).
Proof. split; [lia | exact (self_inflicted_sleep_layout 5 ltac:(lia))]. Defined.

(** ** C3: zero choices *)

Definition zero_choice_battle : Battle := mkBattle (sample_lib 1 0) [] (repeat 0 9) [].

(** Claim C3 (as stated, refuted): when libpkmn enumerates zero choices,
    [possible_choices_raw] returns the empty list instead of signalling
    [Softlock]. *)
Lemma possible_choices_raw_no_softlock :
  snd (possible_choices_raw zero_choice_battle P1 (mkResult 0)) = Ok [].
Proof. reflexivity. Qed.

(** Claim C3 (amended): if libpkmn enumerates zero choices,
    [possible_choices] raises [Softlock] while [possible_choices_raw]
    returns the empty list; both make exactly one engine call, the
    enumeration, and no turn update. *)
Theorem zero_choices_softlock (battle : Battle) (player : Player) (r : Result)
  (Hzero : fst (pkmn_gen1_battle_choices (_libpkmn battle) (_pkmn_battle battle)
                 (player_int player) (requested_kind (_libpkmn battle) player r)
                 (_choice_buf battle) (PKMN_OPTIONS_SIZE (_libpkmn battle))) = 0) :
  snd (possible_choices battle player r) = Raise Softlock /\
  _calls (fst (possible_choices battle player r))
    = _calls battle ++ [CallChoices (player_int player) (requested_kind (_libpkmn battle) player r)] /\
  snd (possible_choices_raw battle player r) = Ok [] /\
  _calls (fst (possible_choices_raw battle player r))
    = _calls battle ++ [CallChoices (player_int player) (requested_kind (_libpkmn battle) player r)].
Proof.
  unfold possible_choices, possible_choices_raw, _fill_choice_buffer.
  destruct (pkmn_gen1_battle_choices _ _ _ _ _ _) as [n out] eqn:E.
  simpl in Hzero. subst n. simpl.
  repeat split; reflexivity.
Qed.

Lemma zero_choices_softlock_witness :
  fst (pkmn_gen1_battle_choices (_libpkmn zero_choice_battle) (_pkmn_battle zero_choice_battle)
         (player_int P2) (requested_kind (_libpkmn zero_choice_battle) P2 (mkResult 64))
         (_choice_buf zero_choice_battle) (PKMN_OPTIONS_SIZE (_libpkmn zero_choice_battle))) = 0 /\
  snd (possible_choices zero_choice_battle P2 (mkResult 64)) = Raise Softlock.
Proof.
  split; [reflexivity|].
  apply (zero_choices_softlock zero_choice_battle P2 (mkResult 64)). reflexivity.
Defined.

(** ** C10: the type getters *)

(** Claim C10: [types] and [active_pokemon_types] return a one-element
    tuple exactly when the two stored 4-bit type indices are equal and a
    two-element tuple otherwise; writing [(t, t)] with [set_types] and
    reading back with [types] yields [(t,)]. *)
Theorem type_getters_collapse_equal (L : layout) (T : tables)
  (HT : (length (TYPES T) <= 16)%nat) :
  (forall b p n byte ts,
     get_byte b (pokemon_offset L p n + Pokemon_types L) = Ok byte ->
     types L T b p n = Ok ts ->
     (length ts = 1%nat \/ length ts = 2%nat) /\
     (length ts = 1%nat <-> fst (unpack_two_u4s byte) = snd (unpack_two_u4s byte))) /\
  (forall b p byte ts,
     get_byte b (active_offset L p + Active_types L) = Ok byte ->
     active_pokemon_types L T b p = Ok ts ->
     (length ts = 1%nat \/ length ts = 2%nat) /\
     (length ts = 1%nat <-> fst (unpack_two_u4s byte) = snd (unpack_two_u4s byte))) /\
  (forall b p n t b',
     set_types L T b p n [t; t] = Ok b' -> types L T b' p n = Ok [t]).
Proof.
  split; [|split].
  - intros b p n byte ts Hg Ht. unfold types in Ht. rewrite Hg in Ht. simpl in Ht.
    exact (types_tuple_shape _ _ _ Ht).
  - intros b p byte ts Hg Ht. unfold active_pokemon_types in Ht. rewrite Hg in Ht. simpl in Ht.
    exact (types_tuple_shape _ _ _ Ht).
  - intros b p n t b' Hs. unfold set_types in Hs. simpl in Hs.
    destruct (list_index (TYPES T) t) as [i|e] eqn:Ei; simpl in Hs; [|discriminate].
    destruct (list_index_spec _ _ _ Ei) as [Hi0 Hi].
    assert (Hi16 : i < 16).
    { apply lookup_lt_Some in Hi. lia. }
    pose proof (set_byte_lookup _ _ _ _ Hs) as Hl.
    apply set_byte_inv in Hs as (Hoff & _ & _ & _).
    unfold types. rewrite (get_byte_of_lookup _ _ _ Hoff Hl). simpl.
    unfold types_tuple.
    destruct (pack_unpack_two_u4s i i) as [E _]; [lia|lia|]. rewrite E.
    rewrite Z.eqb_refl. simpl.
    rewrite (py_index_of_lookup _ _ _ Hi0 Hi). reflexivity.
Qed.

Definition sample_buffer : buffer := repeat 0 384.

(** Closes a comparison between closed integer expressions. *)
Ltac concrete_arith :=
  first [ apply Z.leb_le; vm_compute; reflexivity
        | apply Z.ltb_lt; vm_compute; reflexivity
        | apply Nat.ltb_lt; vm_compute; reflexivity
        | apply Nat.leb_le; vm_compute; reflexivity
        | split; concrete_arith ].

Lemma type_getters_collapse_equal_witness :
  (length (TYPES sample_tables) <= 16)%nat /\
  (forall b', set_types sample_layout sample_tables sample_buffer P2 3 ["Fire"; "Fire"] = Ok b' ->
     types sample_layout sample_tables b' P2 3 = Ok ["Fire"]).
Proof.
  split; [vm_compute; lia|].
  apply (type_getters_collapse_equal sample_layout sample_tables). vm_compute. lia.
Defined.

(** ** C7: the 3-bit counter setters *)

Definition byte_buffer (b : buffer) : Prop := Forall (fun v => 0 <= v < 256) b.

Lemma byte_buffer_lookup b i v : byte_buffer b -> b !! i = Some v -> 0 <= v < 256.
Proof. intros Hb Hl. unfold byte_buffer in Hb. rewrite Forall_lookup in Hb. eauto. Qed.

Lemma get_byte_in_range b i :
  0 <= i -> (Z.to_nat i < length b)%nat -> exists v, b !! Z.to_nat i = Some v /\ get_byte b i = Ok v.
Proof.
  intros Hi Hl. destruct (lookup_lt_is_Some_2 b (Z.to_nat i) Hl) as [v Hv].
  exists v. split; [exact Hv|]. apply get_byte_of_lookup; auto.
Qed.

(** Writing an [n]-bit counter (3 or 4 bits) at a volatile field and
    reading it back. *)
Lemma volatile_counter_write L b p bit length n
  (Hc : insert_check length = true) (Hlen : 0 < length)
  (Hbuf : byte_buffer b)
  (Hpos0 : 0 <= fst (volatile_field_pos L p bit))
  (Hpos : (Z.to_nat (fst (volatile_field_pos L p bit)) < List.length b)%nat)
  (Hfit : snd (volatile_field_pos L p bit) + length <= 8) (Hn : 0 <= n < 16) :
  exists byte,
    get_byte b (fst (volatile_field_pos L p bit)) = Ok byte /\
    set_byte b (fst (volatile_field_pos L p bit))
      (insert_unsigned_int_at_offset byte n (snd (volatile_field_pos L p bit)) length)
    = Ok (<[Z.to_nat (fst (volatile_field_pos L p bit)) :=
             insert_unsigned_int_at_offset byte n (snd (volatile_field_pos L p bit)) length]> b) /\
    get_byte (<[Z.to_nat (fst (volatile_field_pos L p bit)) :=
             insert_unsigned_int_at_offset byte n (snd (volatile_field_pos L p bit)) length]> b)
       (fst (volatile_field_pos L p bit))
    = Ok (insert_unsigned_int_at_offset byte n (snd (volatile_field_pos L p bit)) length) /\
    extract_unsigned_int_at_offset
      (insert_unsigned_int_at_offset byte n (snd (volatile_field_pos L p bit)) length)
      (snd (volatile_field_pos L p bit)) length = Z.land n (Z.ones length).
Proof.
  destruct (get_byte_in_range _ _ Hpos0 Hpos) as [byte [Hl Hg]].
  pose proof (byte_buffer_lookup _ _ _ Hbuf Hl) as Hbyte.
  assert (Hbit : 0 <= snd (volatile_field_pos L p bit)).
  { unfold volatile_field_pos. simpl. apply Z.mod_pos_bound. lia. }
  destruct (insert_extract length byte n _ Hc Hlen Hbyte Hbit Hfit Hn) as [Hr Hx].
  exists byte. split; [exact Hg|]. split; [apply set_byte_ok; auto|].
  split; [|exact Hx].
  apply get_byte_of_lookup; [exact Hpos0|]. apply list_lookup_insert_eq. exact Hpos.
Qed.

(** Claim C7 (code bug, at the failing input 8): the guard
    [new <= 2**3] of [set_confusion_turns_left] and [set_attacks_left]
    admits 8; the call succeeds and stores the low three bits of 8, so the
    counter reads back 0. *)
Theorem set_counters_accept_eight (L : layout) (b : buffer) (p : Player)
  (Hbuf : byte_buffer b)
  (Hc0 : 0 <= fst (volatile_field_pos L p (Vol_confusion L)))
  (Hc : (Z.to_nat (fst (volatile_field_pos L p (Vol_confusion L))) < length b)%nat)
  (Hcfit : snd (volatile_field_pos L p (Vol_confusion L)) + 3 <= 8)
  (Ha0 : 0 <= fst (volatile_field_pos L p (Vol_attacks L)))
  (Ha : (Z.to_nat (fst (volatile_field_pos L p (Vol_attacks L))) < length b)%nat)
  (Hafit : snd (volatile_field_pos L p (Vol_attacks L)) + 3 <= 8) :
  (exists b', set_confusion_turns_left L b p 8 = Ok b' /\ confusion_turns_left L b' p = Ok 0) /\
  (exists b', set_attacks_left L b p 8 = Ok b' /\ attacks_left L b' p = Ok 0).
Proof.
  split.
  - destruct (volatile_counter_write L b p (Vol_confusion L) 3 8 insert_check_3 ltac:(lia)
                Hbuf Hc0 Hc Hcfit ltac:(lia)) as (byte & Hg & Hs & Hg' & Hx).
    unfold set_confusion_turns_left, confusion_turns_left.
    remember (volatile_field_pos L p (Vol_confusion L)) as vp eqn:Hvp.
    destruct vp as [pos bit]. simpl in *.
    rewrite Hg. simpl. rewrite Hs. eexists. split; [reflexivity|].
    simpl. rewrite Hg'. simpl. rewrite Hx. reflexivity.
  - destruct (volatile_counter_write L b p (Vol_attacks L) 3 8 insert_check_3 ltac:(lia)
                Hbuf Ha0 Ha Hafit ltac:(lia)) as (byte & Hg & Hs & Hg' & Hx).
    unfold set_attacks_left, attacks_left.
    remember (volatile_field_pos L p (Vol_attacks L)) as vp eqn:Hvp.
    destruct vp as [pos bit]. simpl in *.
    rewrite Hg. simpl. rewrite Hs. eexists. split; [reflexivity|].
    simpl. rewrite Hg'. simpl. rewrite Hx. reflexivity.
Qed.

Lemma sample_buffer_bytes : byte_buffer sample_buffer.
Proof. unfold byte_buffer, sample_buffer. apply Forall_forall. intros x Hx. apply list_elem_of_In in Hx. apply repeat_spec in Hx. lia. Qed.

Lemma set_counters_accept_eight_witness :
  (exists b', set_confusion_turns_left sample_layout sample_buffer P2 8 = Ok b' /\
              confusion_turns_left sample_layout b' P2 = Ok 0) /\
  (exists b', set_attacks_left sample_layout sample_buffer P2 8 = Ok b' /\
              attacks_left sample_layout b' P2 = Ok 0).
Proof.
  apply (set_counters_accept_eight sample_layout sample_buffer P2 sample_buffer_bytes);
    concrete_arith.
Defined.

(** ** C4: the transform target *)

(** Claim C4 (code bug): [set_transformed_into(p, (q, s))] stores
    [(q << 3) | s] in the 4-bit field, but [transformed_into] decodes the
    slot as [u4 & 3]; for every slot [s] in 1..6 the read-back pair is
    [(q, s & 3)], so slots 4, 5 and 6 come back as 0, 1 and 2. *)
Theorem transformed_into_drops_slot_bit2 (L : layout) (b : buffer) (p q : Player) (s : Z)
  (Hbuf : byte_buffer b)
  (Ht0 : 0 <= fst (volatile_field_pos L p (Vol_transform L)))
  (Ht : (Z.to_nat (fst (volatile_field_pos L p (Vol_transform L))) < length b)%nat)
  (Htfit : snd (volatile_field_pos L p (Vol_transform L)) + 4 <= 8)
  (Hs : 1 <= s <= 6) :
  exists b', set_transformed_into L b p (q, s) = Ok b' /\
             transformed_into L b' p = Ok (q, Z.land s 3).
Proof.
  set (n := Z.lor (Z.shiftl (player_int q) 3) s).
  assert (Hcases : s = 1 \/ s = 2 \/ s = 3 \/ s = 4 \/ s = 5 \/ s = 6) by lia.
  assert (Hn : 0 <= n < 16).
  { subst n. destruct q; repeat destruct Hcases as [-> | Hcases]; try subst; concrete_arith. }
  destruct (volatile_counter_write L b p (Vol_transform L) 4 n insert_check_4 ltac:(lia)
              Hbuf Ht0 Ht Htfit Hn) as (byte & Hg & Hs' & Hg' & Hx).
  unfold set_transformed_into, transformed_into.
  remember (volatile_field_pos L p (Vol_transform L)) as vp eqn:Hvp.
  destruct vp as [pos bit]. simpl in *.
  rewrite Hg. simpl. fold n. rewrite Hs'. eexists. split; [reflexivity|].
  simpl. rewrite Hg'. simpl. rewrite Hx. subst n.
  destruct q; repeat destruct Hcases as [-> | Hcases]; subst; reflexivity.
Qed.

Lemma transformed_into_drops_slot_bit2_witness :
  exists b', set_transformed_into sample_layout sample_buffer P1 (P1, 4) = Ok b' /\
             transformed_into sample_layout b' P1 = Ok (P1, 0).
Proof.
  apply (transformed_into_drops_slot_bit2 sample_layout sample_buffer P1 P1 4 sample_buffer_bytes);
    concrete_arith.
Defined.

(** ** C2: partial boost updates *)

(** The boosts expected after a partial update: each supplied stat takes
    the supplied value, every other stat keeps its prior value. *)
Definition boosts_overlay (nb : PartialBoostData) (old : BoostData) : BoostData :=
  mkBoosts (default (pb_atk nb) (b_atk old)) (default (pb_def nb) (b_def old))
           (default (pb_spe nb) (b_spe old)) (default (pb_spc nb) (b_spc old))
           (default (pb_accuracy nb) (b_accuracy old)) (default (pb_evasion nb) (b_evasion old)).

Definition opt_i4 (o : option Z) : Prop :=
  match o with Some v => -8 <= v < 8 | None => True end.

(** Every supplied boost fits a signed nibble (the documented boost range
    [-6, 6] does). *)
Definition partial_boosts_i4 (nb : PartialBoostData) : Prop :=
  opt_i4 (pb_atk nb) /\ opt_i4 (pb_def nb) /\ opt_i4 (pb_spe nb) /\
  opt_i4 (pb_spc nb) /\ opt_i4 (pb_accuracy nb) /\ opt_i4 (pb_evasion nb).

Definition decode_boosts (x0 x1 x2 : Z) : BoostData :=
  mkBoosts (fst (unpack_two_i4s x0)) (snd (unpack_two_i4s x0))
           (fst (unpack_two_i4s x1)) (snd (unpack_two_i4s x1))
           (fst (unpack_two_i4s x2)) (snd (unpack_two_i4s x2)).

Lemma boosts_of_bytes L b p x0 x1 x2 :
  get_byte b (active_offset L p + Active_boosts L) = Ok x0 ->
  get_byte b (active_offset L p + Active_boosts L + 1) = Ok x1 ->
  get_byte b (active_offset L p + Active_boosts L + 2) = Ok x2 ->
  boosts L b p = Ok (decode_boosts x0 x1 x2).
Proof.
  intros H0 H1 H2. unfold boosts, decode_boosts, unpack_two_i4s, unpack_two_u4s.
  rewrite H0, H1, H2. reflexivity.
Qed.

Lemma default_i4 o d : opt_i4 o -> -8 <= d < 8 -> -8 <= default o d < 8.
Proof. destruct o; simpl; auto. Qed.

(** Claim C2: for every player and every partial boost dictionary, after
    [set_boosts] each supplied stat reads back (via [boosts]) as the
    supplied value and every other stat as its prior value. *)
Theorem set_boosts_preserves_untouched (L : layout) (b : buffer) (p : Player)
  (old : BoostData) (nb : PartialBoostData)
  (H0 : 0 <= active_offset L p + Active_boosts L)
  (Hlen : (Z.to_nat (active_offset L p + Active_boosts L + 2) < length b)%nat)
  (Hold : boosts L b p = Ok old) (Hnb : partial_boosts_i4 nb) :
  exists b', set_boosts L b p nb = Ok b' /\ boosts L b' p = Ok (boosts_overlay nb old).
Proof.
  set (off := active_offset L p + Active_boosts L) in *.
  destruct (get_byte_in_range b off H0 ltac:(lia)) as [x0 [_ G0]].
  destruct (get_byte_in_range b (off + 1) ltac:(lia) ltac:(lia)) as [x1 [_ G1]].
  destruct (get_byte_in_range b (off + 2) ltac:(lia) Hlen) as [x2 [_ G2]].
  rewrite (boosts_of_bytes L b p x0 x1 x2 G0 G1 G2) in Hold.
  injection Hold as <-.
  destruct (unpack_two_i4s_range x0) as [R0 R0'].
  destruct (unpack_two_i4s_range x1) as [R1 R1'].
  destruct (unpack_two_i4s_range x2) as [R2 R2'].
  destruct Hnb as (Na & Nd & Ns & Nc & Nu & Nv).
  set (nb' := boosts_overlay nb (decode_boosts x0 x1 x2)).
  set (v0 := pack_two_i4s (b_atk nb') (b_def nb')).
  set (v1 := pack_two_i4s (b_spe nb') (b_spc nb')).
  set (v2 := pack_two_i4s (b_accuracy nb') (b_evasion nb')).
  set (b1 := <[Z.to_nat off := v0]> b).
  set (b2 := <[Z.to_nat (off + 1) := v1]> b1).
  set (b3 := <[Z.to_nat (off + 2) := v2]> b2).
  assert (L1 : length b1 = length b) by (unfold b1; apply length_insert).
  assert (L2 : length b2 = length b) by (unfold b2; rewrite <- L1; apply length_insert).
  exists b3. split.
  - unfold set_boosts. fold off.
    rewrite (boosts_of_bytes L b p x0 x1 x2 G0 G1 G2). simpl.
    rewrite set_byte_ok by (rewrite ?length_insert; lia || apply pack_two_i4s_range). simpl.
    rewrite set_byte_ok by (rewrite ?length_insert; lia || apply pack_two_i4s_range). simpl.
    rewrite set_byte_ok by (rewrite ?length_insert; lia || apply pack_two_i4s_range). reflexivity.
  - assert (E0 : get_byte b3 off = Ok v0).
    { apply get_byte_of_lookup; [lia|]. unfold b3, b2, b1.
      rewrite !list_lookup_insert_ne by lia. apply list_lookup_insert_eq. lia. }
    assert (E1 : get_byte b3 (off + 1) = Ok v1).
    { apply get_byte_of_lookup; [lia|]. unfold b3, b2.
      rewrite list_lookup_insert_ne by lia. apply list_lookup_insert_eq. lia. }
    assert (E2 : get_byte b3 (off + 2) = Ok v2).
    { apply get_byte_of_lookup; [lia|]. unfold b3. apply list_lookup_insert_eq. lia. }
    rewrite (boosts_of_bytes L b3 p v0 v1 v2 E0 E1 E2).
    unfold v0, v1, v2. unfold decode_boosts at 1.
    rewrite !pack_unpack_two_i4s;
      try (unfold nb', boosts_overlay; cbn [b_atk b_def b_spe b_spc b_accuracy b_evasion];
           apply default_i4; [assumption | first [exact R0 | exact R0' | exact R1 | exact R1'
                                                 | exact R2 | exact R2']]).
    reflexivity.
Qed.

(** The example of the spec: boosts [{atk:1, def:0, spe:1, ...}] updated
    with [{'atk': -2}]. *)
Definition boosted_buffer : buffer :=
  <[157%nat := pack_two_i4s 1 0]> (<[156%nat := pack_two_i4s 1 0]> sample_buffer).

Lemma set_boosts_preserves_untouched_witness :
  exists b', set_boosts sample_layout boosted_buffer P1
               (mkPartialBoosts (Some (-2)) None None None None None) = Ok b' /\
             boosts sample_layout b' P1 = Ok (mkBoosts (-2) 0 1 0 0 0).
Proof.
  apply (set_boosts_preserves_untouched sample_layout boosted_buffer P1 (mkBoosts 1 0 1 0 0 0)).
  - concrete_arith.
  - concrete_arith.
  - vm_compute. reflexivity.
  - repeat split; simpl; lia.
Defined.

(** ** Construction: which bytes each step writes *)

Lemma exc_bind_ok {A B} (m : exc A) (f : A -> exc B) x :
  exc_bind m f = Ok x -> exists a, m = Ok a /\ f a = Ok x.
Proof. destruct m; simpl; [eauto | discriminate]. Qed.

Ltac peel H :=
  cbv zeta in H;
  repeat (let a := fresh "a" in let Ha := fresh "Ha" in
          apply exc_bind_ok in H as (a & Ha & H); cbv beta zeta in H).

Definition outside (lo hi j : Z) : Prop := j < lo \/ hi <= j.

Lemma frame_at keep b b' i :
  frame keep b b' -> 0 <= i -> keep i -> b' !! Z.to_nat i = b !! Z.to_nat i.
Proof.
  intros [_ F] Hi Hk. apply F. rewrite Z2Nat.id by exact Hi. exact Hk.
Qed.

(** Chains the [frame] facts in the context from [b] to the goal's end
    buffer, discharging each inclusion of kept sets by arithmetic. *)
Ltac keep_incl :=
  intros; cbv beta in *; unfold outside, pack_u16_as_bytes in *; simpl length in *; lia.

Ltac chain_frames :=
  repeat (eapply frame_trans; [eapply frame_weaken; [|eassumption]; keep_incl|]);
  first [apply frame_refl | eapply frame_weaken; [|eassumption]; keep_incl].

Lemma pack_moves_frame T idxs b o names pp b' :
  pack_moves T b o names pp idxs = Ok b' ->
  frame (outside o (o + 2 * Z.of_nat (length idxs))) b b'.
Proof.
  revert b o. induction idxs as [|k idxs IH]; simpl; intros b o H.
  - injection H as <-. apply frame_refl.
  - peel H.
    pose proof (set_byte_frame _ _ _ _ Ha0).
    pose proof (set_byte_frame _ _ _ _ Ha1).
    pose proof (IH _ _ H).
    chain_frames.
Qed.

Lemma initialize_pokemon_frame L T b off pd b' :
  _initialize_pokemon L T b off pd = Ok b' ->
  frame (outside (off + Pokemon_stats L) (off + Pokemon_stats L + 24)) b b'.
Proof.
  unfold _initialize_pokemon. intros H. peel H.
  pose proof (set_bytes_frame _ _ _ _ Ha0) as F0. simpl in F0.
  pose proof (pack_moves_frame _ _ _ _ _ _ _ Ha1) as F1. simpl in F1.
  pose proof (set_bytes_frame _ _ _ _ Ha2) as F2. simpl in F2.
  pose proof (set_byte_frame _ _ _ _ Ha3).
  pose proof (set_byte_frame _ _ _ _ Ha5).
  pose proof (set_byte_frame _ _ _ _ Ha10).
  pose proof (set_byte_frame _ _ _ _ H).
  chain_frames.
Qed.

Lemma init_team_frame L T team b start i b' :
  init_team L T b start i team = Ok b' ->
  frame (fun j => forall k, i <= k < i + Z.of_nat (length team) ->
           outside (start + k * Pokemon_size L + Pokemon_stats L)
                   (start + k * Pokemon_size L + Pokemon_stats L + 24) j) b b'.
Proof.
  revert b i. induction team as [|pk team IH]; simpl; intros b i H.
  - injection H as <-. apply frame_refl.
  - peel H.
    pose proof (initialize_pokemon_frame _ _ _ _ _ _ Ha) as F1.
    pose proof (IH _ _ H) as F2.
    apply frame_trans with a.
    + eapply frame_weaken; [|exact F1]. intros j Hj. apply Hj. lia.
    + eapply frame_weaken; [|exact F2]. intros j Hj k Hk. apply Hj. lia.
Qed.

Lemma write_order_seq b start m n b' :
  write_order b start (seq m n) = Ok b' ->
  (forall i, (m <= i < m + n)%nat ->
     b' !! Z.to_nat (start + Z.of_nat i) = Some (Z.of_nat i + 1)) /\
  frame (outside (start + Z.of_nat m) (start + Z.of_nat (m + n))) b b'.
Proof.
  revert b m. induction n as [|n IH]; simpl; intros b m H.
  - injection H as <-. split; [intros; lia | apply frame_refl].
  - peel H.
    pose proof (set_byte_frame _ _ _ _ Ha).
    pose proof (set_byte_lookup _ _ _ _ Ha) as Hv.
    pose proof (set_byte_inv _ _ _ _ Ha) as (Hi & _).
    destruct (IH _ _ H) as [Hvals F].
    split.
    + intros i Hi'. destruct (Nat.eq_dec i m) as [->|Hne].
      * rewrite (frame_at _ _ _ _ F) by (unfold outside; lia). exact Hv.
      * apply Hvals. lia.
    + chain_frames.
Qed.

(** The bytes of one side that [init_side] writes: the two last-move
    bytes, the blocks of the team's Pokemon, and the order bytes. *)
Definition side_written (L : layout) (s : Z) (n : Z) (j : Z) : Prop :=
  j = s + Side_last_selected_move L \/ j = s + Side_last_used_move L \/
  (exists k, 0 <= k < n /\
     ~ outside (s + Side_pokemon L + k * Pokemon_size L + Pokemon_stats L)
               (s + Side_pokemon L + k * Pokemon_size L + Pokemon_stats L + 24) j) \/
  (s + Side_order L <= j < s + Side_order L + n).

Lemma init_side_spec L T b s lsm lum team b' :
  init_side L T b s lsm lum team = Ok b' ->
  (forall i, (i < length team)%nat ->
     b' !! Z.to_nat (s + Side_order L + Z.of_nat i) = Some (Z.of_nat i + 1)) /\
  frame (fun j => ~ side_written L s (Z.of_nat (length team)) j) b b'.
Proof.
  unfold init_side. intros H. peel H.
  pose proof (set_byte_frame _ _ _ _ Ha0) as F0.
  pose proof (set_byte_frame _ _ _ _ Ha2) as F1.
  pose proof (init_team_frame _ _ _ _ _ _ _ Ha3) as F2.
  destruct (write_order_seq _ _ _ _ _ H) as [Hvals F3].
  split.
  - intros i Hi. apply Hvals. lia.
  - unfold side_written.
    apply frame_trans with a0;
      [eapply frame_weaken; [|exact F0]; intros j Hj; cbv beta in *; tauto|].
    apply frame_trans with a2;
      [eapply frame_weaken; [|exact F1]; intros j Hj; cbv beta in *; tauto|].
    apply frame_trans with a3.
    + eapply frame_weaken; [|exact F2]. intros j Hj k Hk.
      cbv beta in *. unfold outside at 1.
      destruct (decide (j < s + Side_pokemon L + k * Pokemon_size L + Pokemon_stats L \/
                        s + Side_pokemon L + k * Pokemon_size L + Pokemon_stats L + 24 <= j))
        as [?|Hn]; [assumption|].
      exfalso. apply Hj. right; right; left. exists k. split; [lia|]. exact Hn.
    + eapply frame_weaken; [|exact F3]. intros j Hj. cbv beta in *.
      unfold outside.
      destruct (decide (j < s + Side_order L + Z.of_nat 0 \/
                        s + Side_order L + Z.of_nat (0 + length team) <= j))
        as [?|Hn]; [assumption|].
      exfalso. apply Hj. right; right; right. lia.
Qed.

Ltac frames_of_writes :=
  repeat match goal with
  | E : set_byte _ _ _ = Ok _ |- _ => step_frame E; clear E
  | E : set_bytes _ _ _ = Ok _ |- _ => step_frame E; clear E
  end.

(** A successful construction runs the two side initialisations on the
    zero-filled buffer, then writes only at or after [Battle_turn]. *)
Lemma Battle_init_sides L T lib rnd p1 p2 s1 u1 s2 u2 turn dmg i1 i2 seed battle :
  Battle_init L T lib rnd p1 p2 s1 u1 s2 u2 turn dmg i1 i2 seed = Ok battle ->
  exists b1 b2,
    init_side L T (repeat 0 (Z.to_nat (Battle_size L))) (Battle_sides L) s1 u1 p1 = Ok b1 /\
    init_side L T b1 (Battle_sides L + Side_size L) s2 u2 p2 = Ok b2 /\
    frame (fun j => j < Battle_turn L) b2 (_pkmn_battle battle).
Proof.
  unfold Battle_init. intros H. peel H.
  injection H as <-. simpl.
  exists a, a0. split; [exact Ha|]. split; [exact Ha0|].
  clear Ha Ha0.
  destruct (IS_SHOWDOWN_COMPATIBLE lib =? 1).
  - peel Ha3. unfold ShowdownRNG_initialize in Ha3.
    frames_of_writes. chain_frames.
  - peel Ha3. destruct seed; cbv iota in Ha3; [| discriminate |];
      frames_of_writes; chain_frames.
Qed.

(** ** C8: seed-mode mismatch *)

(** C8: with a Showdown-compatible binding and a list seed, or with a
    compact binding and an integer seed, construction raises: no [Battle]
    is returned. *)
Theorem seed_mode_mismatch_raises L T lib rnd p1_team p2_team
    p1_lsm p1_lum p2_lsm p2_lum start_turn last_damage p1_move_idx p2_move_idx seed
    (Hmismatch : (IS_SHOWDOWN_COMPATIBLE lib = 1 /\ exists l, seed = SeedList l) \/
                 (IS_SHOWDOWN_COMPATIBLE lib <> 1 /\ exists n, seed = SeedInt n)) :
  exists e, Battle_init L T lib rnd p1_team p2_team p1_lsm p1_lum p2_lsm p2_lum
              start_turn last_damage p1_move_idx p2_move_idx seed = Raise e.
Proof.
  destruct (Battle_init L T lib rnd p1_team p2_team p1_lsm p1_lum p2_lsm p2_lum
              start_turn last_damage p1_move_idx p2_move_idx seed) as [battle|e] eqn:E;
    [exfalso | eauto].
  unfold Battle_init in E. peel E.
  destruct Hmismatch as [[Hs [l ->]] | [Hs [n ->]]].
  - rewrite (proj2 (Z.eqb_eq _ _) Hs) in Ha3. peel Ha3.
    match goal with E : _ = Ok _ |- _ => cbv iota in E; discriminate E end.
  - rewrite (proj2 (Z.eqb_neq _ _) Hs) in Ha3. peel Ha3.
    match goal with E : _ = Ok _ |- _ => cbv iota in E; discriminate E end.
Qed.

Lemma seed_mode_mismatch_raises_witness :
  ((IS_SHOWDOWN_COMPATIBLE (sample_lib 1 0) = 1 /\ exists l, SeedList [7] = SeedList l) \/
   (IS_SHOWDOWN_COMPATIBLE (sample_lib 1 0) <> 1 /\ exists n, SeedList [7] = SeedInt n)) /\
  exists e, Battle_init sample_layout sample_tables (sample_lib 1 0) sample_rnd
              [pikachu] [pikachu] "None" "None" "None" "None" 1 0 0 0 (SeedList [7])
            = Raise e.
Proof.
  assert (Hm : (IS_SHOWDOWN_COMPATIBLE (sample_lib 1 0) = 1 /\
                exists l, SeedList [7] = SeedList l) \/
               (IS_SHOWDOWN_COMPATIBLE (sample_lib 1 0) <> 1 /\
                exists n, SeedList [7] = SeedInt n)).
  { left. split; [reflexivity | eexists; reflexivity]. }
  split; [exact Hm|].
  exact (seed_mode_mismatch_raises sample_layout sample_tables (sample_lib 1 0) sample_rnd
           [pikachu] [pikachu] "None" "None" "None" "None" 1 0 0 0 (SeedList [7]) Hm).
Defined.

(** ** C9: order region and empty roster slots after construction *)

(** The layout facts the construction relies on: within a side, the six
    Pokemon blocks, the six order bytes and the two last-move bytes are
    disjoint; the two sides lie one after the other before the turn field. *)
Definition layout_wf (L : layout) : Prop :=
  0 <= Battle_sides L /\ 0 < Pokemon_size L /\
  0 <= Pokemon_stats L /\ Pokemon_stats L + 24 <= Pokemon_size L /\
  0 <= Pokemon_species L < Pokemon_size L /\
  0 <= Side_pokemon L /\ Side_pokemon L + 6 * Pokemon_size L <= Side_size L /\
  0 <= Side_order L /\ Side_order L + 6 <= Side_size L /\
  (Side_order L + 6 <= Side_pokemon L \/ Side_pokemon L + 6 * Pokemon_size L <= Side_order L) /\
  0 <= Side_last_selected_move L < Side_size L /\
  0 <= Side_last_used_move L < Side_size L /\
  outside (Side_order L) (Side_order L + 6) (Side_last_selected_move L) /\
  outside (Side_order L) (Side_order L + 6) (Side_last_used_move L) /\
  outside (Side_pokemon L) (Side_pokemon L + 6 * Pokemon_size L) (Side_last_selected_move L) /\
  outside (Side_pokemon L) (Side_pokemon L + 6 * Pokemon_size L) (Side_last_used_move L) /\
  Battle_sides L + 2 * Side_size L <= Battle_turn L /\ Battle_turn L <= Battle_size L.

Lemma sample_layout_wf : layout_wf sample_layout.
Proof. unfold layout_wf, outside; simpl; lia. Qed.

Lemma block_bounds a k m : 0 < a -> 0 <= k -> k < m -> 0 <= k * a /\ k * a + a <= m * a.
Proof. intros. split; nia. Qed.

(** A side with at most six members writes only inside its own region. *)
Lemma side_written_inside L s n x :
  layout_wf L -> 0 <= n <= 6 -> side_written L s n x -> s <= x < s + Side_size L.
Proof.
  unfold layout_wf, side_written, outside.
  intros (? & ? & ? & ? & ? & ? & ? & ? & ? & _ & ? & ? & _) Hn
         [->|[->|[(k & Hk & Hx)|Hx]]]; try lia.
  pose proof (block_bounds (Pokemon_size L) k 6 ltac:(lia) ltac:(lia) ltac:(lia)).
  lia.
Qed.

Lemma order_byte_unwritten L s n i :
  layout_wf L -> 0 <= n <= i -> i < 6 -> ~ side_written L s n (s + Side_order L + i).
Proof.
  unfold layout_wf, side_written, outside.
  intros (? & ? & ? & ? & ? & ? & ? & ? & ? & Hdis & ? & ? & ? & ? & ? & ? & _) Hi Hi6
         [Hx|[Hx|[(k & Hk & Hx)|Hx]]]; try lia.
  pose proof (block_bounds (Pokemon_size L) k 6 ltac:(lia) ltac:(lia) ltac:(lia)).
  lia.
Qed.

Lemma species_byte_unwritten L s n j :
  layout_wf L -> 0 <= n -> n < j <= 6 ->
  ~ side_written L s n (s + Side_pokemon L + Pokemon_size L * (j - 1) + Pokemon_species L).
Proof.
  unfold layout_wf, side_written, outside.
  intros (? & ? & ? & ? & ? & ? & ? & ? & ? & Hdis & ? & ? & ? & ? & Hl1 & Hl2 & _) Hn Hj
         [Hx|[Hx|[(k & Hk & Hx)|Hx]]];
    pose proof (block_bounds (Pokemon_size L) (j - 1) 6 ltac:(lia) ltac:(lia) ltac:(lia));
    try lia.
  pose proof (block_bounds (Pokemon_size L) k (j - 1) ltac:(lia) ltac:(lia) ltac:(lia)).
  lia.
Qed.

Lemma repeat_zero_lookup n x :
  0 <= x < Z.of_nat n -> repeat 0 n !! Z.to_nat x = Some 0.
Proof.
  intros Hx. assert (Hi : (Z.to_nat x < n)%nat) by lia.
  clear Hx. revert Hi. generalize (Z.to_nat x) as i.
  induction n as [|n IH]; intros [|i] Hi; simpl; try lia; auto.
  apply IH. lia.
Qed.

(** C9: after a construction where both teams have at most six members,
    the order bytes of a side hold [1, ..., N] followed by zeros, and every
    roster slot past [N] has species id 0. *)
Theorem construction_order_and_empty_slots L T lib rnd p1_team p2_team
    p1_lsm p1_lum p2_lsm p2_lum start_turn last_damage p1_move_idx p2_move_idx seed
    battle p
    (Hwf : layout_wf L)
    (Hlen1 : (length p1_team <= 6)%nat) (Hlen2 : (length p2_team <= 6)%nat)
    (Hinit : Battle_init L T lib rnd p1_team p2_team p1_lsm p1_lum p2_lsm p2_lum
               start_turn last_damage p1_move_idx p2_move_idx seed = Ok battle) :
  let team := match p with P1 => p1_team | P2 => p2_team end in
  (forall i : nat, (i < 6)%nat ->
     _pkmn_battle battle !! Z.to_nat (side_offset L p + Side_order L + Z.of_nat i) =
     Some (if (i <? length team)%nat then Z.of_nat i + 1 else 0)) /\
  (forall j, Z.of_nat (length team) < j <= 6 ->
     _pkmn_battle battle !! Z.to_nat (pokemon_offset L p j + Pokemon_species L) = Some 0).
Proof.
  destruct (Battle_init_sides _ _ _ _ _ _ _ _ _ _ _ _ _ _ _ _ Hinit)
    as (b1 & b2 & HS1 & HS2 & Fpost).
  destruct (init_side_spec _ _ _ _ _ _ _ _ HS1) as [V1 F1].
  destruct (init_side_spec _ _ _ _ _ _ _ _ HS2) as [V2 F2].
  pose proof Hwf as Hwf'.
  destruct Hwf' as (? & ? & ? & ? & ? & ? & ? & ? & ? & _ & _ & _ & _ & _ & _ & _ & ? & ?).
  assert (Hzero : forall x, 0 <= x < Battle_turn L ->
            repeat 0 (Z.to_nat (Battle_size L)) !! Z.to_nat x = Some 0)
    by (intros; apply repeat_zero_lookup; lia).
  (* a byte of one side is not written by the other side *)
  assert (Hother : forall s n x, 0 <= n <= 6 -> (x < s \/ s + Side_size L <= x) ->
                     ~ side_written L s n x)
    by (intros s n x Hn Hx Hw; apply side_written_inside in Hw; [lia|exact Hwf|exact Hn]).
  unfold pokemon_offset, side_offset.
  destruct p; simpl player_int; cbv zeta.
  - split.
    + intros i Hi.
      rewrite (frame_at _ _ _ _ Fpost) by lia.
      rewrite (frame_at _ _ _ _ F2) by (lia || (apply Hother; lia)).
      destruct (Nat.ltb_spec i (length p1_team)).
      * rewrite Z.mul_0_r, Z.add_0_r. apply V1. exact H10.
      * rewrite (frame_at _ _ _ _ F1)
          by (lia || (rewrite Z.mul_0_r, Z.add_0_r; apply order_byte_unwritten; [exact Hwf|lia..])).
        apply Hzero. lia.
    + intros j Hj.
      pose proof (block_bounds (Pokemon_size L) (j - 1) 6 ltac:(lia) ltac:(lia) ltac:(lia)).
      rewrite (frame_at _ _ _ _ Fpost) by lia.
      rewrite (frame_at _ _ _ _ F2) by (lia || (apply Hother; lia)).
      rewrite (frame_at _ _ _ _ F1)
        by (lia || (rewrite Z.mul_0_r, Z.add_0_r; apply species_byte_unwritten; [exact Hwf|lia..])).
      apply Hzero. lia.
  - split.
    + intros i Hi.
      rewrite (frame_at _ _ _ _ Fpost) by lia.
      destruct (Nat.ltb_spec i (length p2_team)).
      * rewrite Z.mul_1_r. apply V2. exact H10.
      * rewrite (frame_at _ _ _ _ F2)
          by (lia || (rewrite Z.mul_1_r; apply order_byte_unwritten; [exact Hwf|lia..])).
        rewrite (frame_at _ _ _ _ F1) by (lia || (apply Hother; lia)).
        apply Hzero. lia.
    + intros j Hj.
      pose proof (block_bounds (Pokemon_size L) (j - 1) 6 ltac:(lia) ltac:(lia) ltac:(lia)).
      rewrite (frame_at _ _ _ _ Fpost) by lia.
      rewrite (frame_at _ _ _ _ F2)
        by (lia || (rewrite Z.mul_1_r; apply species_byte_unwritten; [exact Hwf|lia..])).
      rewrite (frame_at _ _ _ _ F1) by (lia || (apply Hother; lia)).
      apply Hzero. lia.
Qed.

Definition sample_battle_result : exc Battle :=
  Battle_init sample_layout sample_tables (sample_lib 0 0) sample_rnd
    [pikachu] [pikachu; pikachu] "None" "Tackle" "None" "None" 1 0 1 2 SeedNone.

Definition sample_battle : Battle :=
  match sample_battle_result with
  | Ok bt => bt
  | Raise _ => mkBattle (sample_lib 0 0) [] [] []
  end.

Lemma sample_battle_result_ok : sample_battle_result = Ok sample_battle.
Proof. vm_compute. reflexivity. Qed.

Lemma construction_order_and_empty_slots_witness :
  sample_battle_result = Ok sample_battle /\
  (forall i : nat, (i < 6)%nat ->
     _pkmn_battle sample_battle !!
       Z.to_nat (side_offset sample_layout P1 + Side_order sample_layout + Z.of_nat i) =
     Some (if (i <? length [pikachu])%nat then Z.of_nat i + 1 else 0)) /\
  (forall j, Z.of_nat (length [pikachu]) < j <= 6 ->
     _pkmn_battle sample_battle !!
       Z.to_nat (pokemon_offset sample_layout P1 j + Pokemon_species sample_layout) = Some 0).
Proof.
  split; [exact sample_battle_result_ok|].
  exact (construction_order_and_empty_slots sample_layout sample_tables (sample_lib 0 0)
           sample_rnd [pikachu] [pikachu; pikachu] "None" "Tackle" "None" "None" 1 0 1 2
           SeedNone sample_battle P1 sample_layout_wf ltac:(simpl; lia) ltac:(simpl; lia)
           sample_battle_result_ok).
Defined.

(** ** C6: move id and PP at construction *)

Lemma py_index_lookup {A} (l : list A) i x :
  py_index l i = Ok x -> l !! Z.to_nat i = Some x.
Proof.
  unfold py_index. destruct (0 <=? i); [|discriminate].
  destruct (l !! Z.to_nat i); [congruence | discriminate].
Qed.

(** The pair computed for a slot: [(0, 0)] past the moveset, PP 0 for an
    id-0 move when no [move_pp] is given, and [move_pp[i]] verbatim
    otherwise. *)
Lemma move_slot_pp T names move_pp m id q :
  move_slot T names move_pp m = Ok (id, q) ->
  ((length names <= m)%nat -> id = 0 /\ q = 0) /\
  (id = 0 -> move_pp = None -> q = 0) /\
  (forall pps, move_pp = Some pps -> (m < length names)%nat -> pps !! m = Some q).
Proof.
  unfold move_slot. destruct (Nat.leb_spec (length names) m) as [Hle|Hlt].
  - intros H. injection H as <- <-. split; [auto|]. split; [auto | intros; lia].
  - intros H. split; [lia|]. peel H. destruct move_pp as [pps|].
    + peel H. injection H as <- <-. split.
      * intros _ ?; discriminate.
      * intros pps' [= <-] _. apply py_index_lookup in Ha1. rewrite Nat2Z.id in Ha1.
        exact Ha1.
    + split; [|discriminate].
      intros -> _. destruct (Z.eqb_spec a0 0).
      * congruence.
      * peel H. congruence.
Qed.

Lemma pack_moves_values T idxs b o names pp b' :
  pack_moves T b o names pp idxs = Ok b' ->
  forall n m, idxs !! n = Some m ->
  exists id q, move_slot T names pp m = Ok (id, q) /\ 0 <= o + 2 * Z.of_nat n /\
    b' !! Z.to_nat (o + 2 * Z.of_nat n) = Some id /\
    b' !! Z.to_nat (o + 2 * Z.of_nat n + 1) = Some q.
Proof.
  revert b o. induction idxs as [|k idxs IH]; simpl; intros b o H n m Hn; [discriminate|].
  peel H. destruct a as [id q]. simpl in Ha0, Ha1.
  pose proof (pack_moves_frame _ _ _ _ _ _ _ H) as F.
  destruct n as [|n]; simpl in Hn.
  - injection Hn as <-. exists id, q.
    pose proof (set_byte_inv _ _ _ _ Ha0) as (Ho & _).
    split; [exact Ha|]. split; [lia|].
    rewrite (frame_at _ _ _ _ F) by (unfold outside; lia).
    rewrite (frame_at _ _ _ _ F) by (unfold outside; lia).
    split.
    + rewrite (frame_at _ _ _ _ (set_byte_frame _ _ _ _ Ha1)) by lia.
      replace (o + 2 * Z.of_nat 0) with o by lia. exact (set_byte_lookup _ _ _ _ Ha0).
    + replace (o + 2 * Z.of_nat 0 + 1) with (o + 1) by lia.
      exact (set_byte_lookup _ _ _ _ Ha1).
  - destruct (IH _ _ H n m Hn) as (id' & q' & Hs & Hpos & E1 & E2).
    exists id', q'. split; [exact Hs|].
    replace (o + 2 * Z.of_nat (S n)) with (o + 2 + 2 * Z.of_nat n) by lia.
    auto.
Qed.

Lemma initialize_pokemon_moves L T b off pd b' :
  _initialize_pokemon L T b off pd = Ok b' ->
  forall m, (m < 4)%nat ->
  exists id q,
    move_slot T (pd_moves pd) (extra_field x_move_pp (pd_extra pd)) m = Ok (id, q) /\
    0 <= off + Pokemon_stats L + 10 + 2 * Z.of_nat m /\
    b' !! Z.to_nat (off + Pokemon_stats L + 10 + 2 * Z.of_nat m) = Some id /\
    b' !! Z.to_nat (off + Pokemon_stats L + 10 + 2 * Z.of_nat m + 1) = Some q.
Proof.
  unfold _initialize_pokemon. intros H m Hm. peel H.
  assert (Hseq : seq 0 4 !! m = Some m)
    by (do 4 (destruct m as [|m]; [reflexivity|]); lia).
  destruct (pack_moves_values _ _ _ _ _ _ _ Ha1 m m Hseq) as (id & q & Hs & Hpos & E1 & E2).
  assert (F : frame (fun j => off + Pokemon_stats L + 10 <= j < off + Pokemon_stats L + 18)
                 a1 b')
    by (clear Ha0; frames_of_writes; chain_frames).
  exists id, q. split; [exact Hs|]. split; [exact Hpos|].
  rewrite !(frame_at _ _ _ _ F) by lia.
  split; assumption.
Qed.

Lemma init_team_moves L T team b start i b' :
  layout_wf L -> 0 <= i ->
  init_team L T b start i team = Ok b' ->
  forall k pd, team !! k = Some pd -> forall m, (m < 4)%nat ->
  let x := start + (i + Z.of_nat k) * Pokemon_size L + Pokemon_stats L + 10 + 2 * Z.of_nat m in
  exists id q,
    move_slot T (pd_moves pd) (extra_field x_move_pp (pd_extra pd)) m = Ok (id, q) /\
    0 <= x /\ b' !! Z.to_nat x = Some id /\ b' !! Z.to_nat (x + 1) = Some q.
Proof.
  intros Hwf. pose proof Hwf as (_ & Hsz & Hst & Hst24 & _).
  revert b i. induction team as [|pk team IH]; simpl; intros b i Hi H k pd Hk m Hm;
    [discriminate|].
  peel H. cbv zeta.
  destruct k as [|k]; simpl in Hk.
  - injection Hk as <-.
    destruct (initialize_pokemon_moves _ _ _ _ _ _ Ha m Hm) as (id & q & Hs & Hpos & E1 & E2).
    pose proof (init_team_frame _ _ _ _ _ _ _ H) as F.
    exists id, q. split; [exact Hs|].
    replace (i + Z.of_nat 0) with i by lia.
    split; [lia|].
    rewrite !(frame_at _ _ _ _ F).
    + split; assumption.
    + lia.
    + intros k' Hk'. pose proof (block_bounds (Pokemon_size L) i k' Hsz Hi ltac:(lia)).
      unfold outside. lia.
    + lia.
    + intros k' Hk'. pose proof (block_bounds (Pokemon_size L) i k' Hsz Hi ltac:(lia)).
      unfold outside. lia.
  - destruct (IH a (i + 1) ltac:(lia) H k pd Hk m Hm) as (id & q & Hs & Hpos & E1 & E2).
    exists id, q. split; [exact Hs|].
    replace (i + Z.of_nat (S k)) with (i + 1 + Z.of_nat k) by lia.
    auto.
Qed.

Lemma init_side_moves L T b s lsm lum team b' :
  layout_wf L -> (length team <= 6)%nat ->
  init_side L T b s lsm lum team = Ok b' ->
  forall k pd, team !! k = Some pd -> forall m, (m < 4)%nat ->
  let x := s + Side_pokemon L + Z.of_nat k * Pokemon_size L + Pokemon_stats L
           + 10 + 2 * Z.of_nat m in
  exists id q,
    move_slot T (pd_moves pd) (extra_field x_move_pp (pd_extra pd)) m = Ok (id, q) /\
    0 <= x /\ b' !! Z.to_nat x = Some id /\ b' !! Z.to_nat (x + 1) = Some q.
Proof.
  intros Hwf Hlen H k pd Hk m Hm.
  pose proof Hwf as (_ & Hsz & Hst & Hst24 & _ & Hp & Hp6 & Ho & Ho6 & Hdis & _).
  unfold init_side in H. peel H.
  destruct (init_team_moves _ _ _ _ _ 0 _ Hwf ltac:(lia) Ha3 k pd Hk m Hm)
    as (id & q & Hs & Hpos & E1 & E2).
  destruct (write_order_seq _ _ _ _ _ H) as [_ F].
  apply lookup_lt_Some in Hk.
  pose proof (block_bounds (Pokemon_size L) (Z.of_nat k) 6 Hsz ltac:(lia) ltac:(lia)).
  cbv zeta. exists id, q. split; [exact Hs|].
  replace (0 + Z.of_nat k) with (Z.of_nat k) in * by lia.
  split; [lia|].
  rewrite !(frame_at _ _ _ _ F) by (unfold outside; lia).
  split; assumption.
Qed.

Lemma write_moves_frame T b off i l b' :
  write_moves T b off i l = Ok b' ->
  frame (outside (off + i * 2) (off + i * 2 + 2 * Z.of_nat (length l))) b b'.
Proof.
  revert b i. induction l as [|[mv q] l IH]; simpl; intros b i H.
  - injection H as <-. apply frame_refl.
  - peel H.
    pose proof (set_byte_frame _ _ _ _ Ha0).
    pose proof (set_byte_frame _ _ _ _ Ha1).
    pose proof (IH _ _ H).
    chain_frames.
Qed.

(** A successful [set_moves] loop stores, for every entry [(move, pp)],
    [MOVE_IDS[move]] and then [pp] itself, whatever the move. *)
Lemma write_moves_values T b off i l b' :
  write_moves T b off i l = Ok b' ->
  forall k mq, l !! k = Some mq ->
  exists id, MOVE_IDS T (fst mq) = Some id /\
    get_byte b' (off + (i + Z.of_nat k) * 2) = Ok id /\
    get_byte b' (off + (i + Z.of_nat k) * 2 + 1) = Ok (snd mq).
Proof.
  revert b i. induction l as [|[mv q] l IH]; simpl; intros b i H k mq Hk; [discriminate|].
  peel H. pose proof (write_moves_frame _ _ _ _ _ _ H) as F.
  destruct k as [|k]; simpl in Hk.
  - injection Hk as <-. exists a. simpl.
    split; [unfold dict_get in Ha; destruct (MOVE_IDS T mv); congruence|].
    pose proof (set_byte_inv _ _ _ _ Ha0) as (Ho & _).
    change (Z.of_nat 0) with 0. replace (off + (i + 0) * 2) with (off + i * 2) by lia.
    split; (apply get_byte_of_lookup; [lia|]);
      rewrite (frame_at _ _ _ _ F) by (unfold outside; lia).
    + rewrite (frame_at _ _ _ _ (set_byte_frame _ _ _ _ Ha1)) by lia.
      exact (set_byte_lookup _ _ _ _ Ha0).
    + exact (set_byte_lookup _ _ _ _ Ha1).
  - destruct (IH _ _ H k mq Hk) as (id & H1 & H2 & H3). exists id.
    replace (i + Z.of_nat (S k)) with (i + 1 + Z.of_nat k) by lia. auto.
Qed.

(** A Pokemon whose moveset is only the empty move "None" and whose extra
    data supplies the PP tuple [(5, 0, 0, 0)]. *)
Definition pp_on_empty_move : PokemonData :=
  mkPokemon "Pikachu" ["None"] (Some (mkExtra None None None None None (Some [5; 0; 0; 0])
                                               None None)).

Definition pp_battle_result : exc Battle :=
  Battle_init sample_layout sample_tables (sample_lib 0 0) sample_rnd
    [pp_on_empty_move] [pikachu] "None" "None" "None" "None" 1 0 0 0 SeedNone.

(** C6 (as stated, refuted): the first move slot of P1's first Pokemon is
    encoded with move id 0 and PP 5. *)
Lemma empty_move_slot_with_pp :
  exists battle, pp_battle_result = Ok battle /\
    get_byte (_pkmn_battle battle)
      (pokemon_offset sample_layout P1 1 + Pokemon_moves sample_layout) = Ok 0 /\
    get_byte (_pkmn_battle battle)
      (pokemon_offset sample_layout P1 1 + Pokemon_moves sample_layout + 1) = Ok 5.
Proof.
  destruct pp_battle_result as [battle|e] eqn:E; vm_compute in E; [|discriminate].
  exists battle. split; [reflexivity|].
  injection E as <-. split; vm_compute; reflexivity.
Qed.

(** C6 (amended): for every Pokemon written at construction, each move
    slot holds the [(move_id, pp)] pair computed by the codec: a slot past
    the moveset holds id 0 and PP 0; an id-0 move gets PP 0 when no
    [move_pp] tuple is given; and the PP is [move_pp[i]] verbatim whenever
    a tuple is given for a listed move, whatever the move id. After any
    successful [set_moves], each slot holds [MOVE_IDS[move]] and the given
    PP verbatim, whatever the move id. *)
Theorem construction_move_slot_pp L T lib rnd p1_team p2_team
    p1_lsm p1_lum p2_lsm p2_lum start_turn last_damage p1_move_idx p2_move_idx seed
    battle p k pd m
    (Hwf : layout_wf L) (Hmoves : Pokemon_moves L = Pokemon_stats L + 10)
    (Hlen1 : (length p1_team <= 6)%nat) (Hlen2 : (length p2_team <= 6)%nat)
    (Hinit : Battle_init L T lib rnd p1_team p2_team p1_lsm p1_lum p2_lsm p2_lum
               start_turn last_damage p1_move_idx p2_move_idx seed = Ok battle)
    (Hk : (match p with P1 => p1_team | P2 => p2_team end) !! k = Some pd)
    (Hm : (m < 4)%nat) :
  (let x := pokemon_offset L p (Z.of_nat k + 1) + Pokemon_moves L + 2 * Z.of_nat m in
   let move_pp := extra_field x_move_pp (pd_extra pd) in
   exists id q,
     _pkmn_battle battle !! Z.to_nat x = Some id /\
     _pkmn_battle battle !! Z.to_nat (x + 1) = Some q /\
     ((length (pd_moves pd) <= m)%nat -> id = 0 /\ q = 0) /\
     (id = 0 -> move_pp = None -> q = 0) /\
     (forall pps, move_pp = Some pps -> (m < length (pd_moves pd))%nat -> pps !! m = Some q)) /\
  (forall b b' p' s new_moves, set_moves L T b p' s new_moves = Ok b' ->
   forall i mq, new_moves !! i = Some mq ->
   exists id, MOVE_IDS T (fst mq) = Some id /\
     get_byte b' (moves_offset L p' s + Z.of_nat i * 2) = Ok id /\
     get_byte b' (moves_offset L p' s + Z.of_nat i * 2 + 1) = Ok (snd mq)).
Proof.
  split.
  2:{ intros b b' p' s new_moves Hs i mq Hi. unfold set_moves in Hs.
      destruct (write_moves_values _ _ _ _ _ _ Hs i mq Hi) as (id & H1 & H2 & H3).
      exists id. rewrite Z.add_0_l in H2, H3. auto. }
  destruct (Battle_init_sides _ _ _ _ _ _ _ _ _ _ _ _ _ _ _ _ Hinit)
    as (b1 & b2 & HS1 & HS2 & Fpost).
  destruct (init_side_spec _ _ _ _ _ _ _ _ HS2) as [_ F2].
  pose proof Hwf as (? & Hsz & ? & ? & _ & ? & ? & _ & _ & _ & _ & _ & _ & _ & _ & _ & ? & ?).
  pose proof (lookup_lt_Some _ _ _ Hk) as Hkl.
  unfold pokemon_offset, side_offset. cbv zeta.
  destruct p; simpl player_int; simpl in Hk, Hkl.
  - destruct (init_side_moves _ _ _ _ _ _ _ _ Hwf Hlen1 HS1 k pd Hk m Hm)
      as (id & q & Hs & Hpos & E1 & E2).
    destruct (move_slot_pp _ _ _ _ _ _ Hs) as (Zpast & Z0 & Zpp).
    pose proof (block_bounds (Pokemon_size L) (Z.of_nat k) 6 Hsz ltac:(lia) ltac:(lia)).
    exists id, q.
    replace (Battle_sides L + Side_size L * 0 + Side_pokemon L +
             Pokemon_size L * (Z.of_nat k + 1 - 1) + Pokemon_moves L + 2 * Z.of_nat m)
      with (Battle_sides L + Side_pokemon L + Z.of_nat k * Pokemon_size L +
            Pokemon_stats L + 10 + 2 * Z.of_nat m) by lia.
    assert (Hw : forall y, Battle_sides L <= y < Battle_sides L + Side_size L ->
                   ~ side_written L (Battle_sides L + Side_size L)
                       (Z.of_nat (length p2_team)) y)
      by (intros y Hy Hw; apply side_written_inside in Hw; [lia|exact Hwf|lia]).
    rewrite !(frame_at _ _ _ _ Fpost) by lia.
    rewrite !(frame_at _ _ _ _ F2) by (lia || (apply Hw; lia)).
    auto.
  - destruct (init_side_moves _ _ _ _ _ _ _ _ Hwf Hlen2 HS2 k pd Hk m Hm)
      as (id & q & Hs & Hpos & E1 & E2).
    destruct (move_slot_pp _ _ _ _ _ _ Hs) as (Zpast & Z0 & Zpp).
    pose proof (block_bounds (Pokemon_size L) (Z.of_nat k) 6 Hsz ltac:(lia) ltac:(lia)).
    exists id, q.
    replace (Battle_sides L + Side_size L * 1 + Side_pokemon L +
             Pokemon_size L * (Z.of_nat k + 1 - 1) + Pokemon_moves L + 2 * Z.of_nat m)
      with (Battle_sides L + Side_size L + Side_pokemon L + Z.of_nat k * Pokemon_size L +
            Pokemon_stats L + 10 + 2 * Z.of_nat m) by lia.
    rewrite !(frame_at _ _ _ _ Fpost) by lia.
    auto.
Qed.

Definition pp_battle : Battle :=
  match pp_battle_result with
  | Ok bt => bt
  | Raise _ => mkBattle (sample_lib 0 0) [] [] []
  end.

Lemma pp_battle_result_ok : pp_battle_result = Ok pp_battle.
Proof. vm_compute. reflexivity. Qed.

Lemma construction_move_slot_pp_witness :
  pp_battle_result = Ok pp_battle /\
  ((let x := pokemon_offset sample_layout P1 (Z.of_nat 0 + 1) + Pokemon_moves sample_layout
             + 2 * Z.of_nat 0 in
    let move_pp := extra_field x_move_pp (pd_extra pp_on_empty_move) in
    exists id q,
      _pkmn_battle pp_battle !! Z.to_nat x = Some id /\
      _pkmn_battle pp_battle !! Z.to_nat (x + 1) = Some q /\
      ((length (pd_moves pp_on_empty_move) <= 0)%nat -> id = 0 /\ q = 0) /\
      (id = 0 -> move_pp = None -> q = 0) /\
      (forall pps, move_pp = Some pps -> (0 < length (pd_moves pp_on_empty_move))%nat ->
                   pps !! 0%nat = Some q)) /\
   (forall b b' p' s new_moves, set_moves sample_layout sample_tables b p' s new_moves = Ok b' ->
    forall i mq, new_moves !! i = Some mq ->
    exists id, MOVE_IDS sample_tables (fst mq) = Some id /\
      get_byte b' (moves_offset sample_layout p' s + Z.of_nat i * 2) = Ok id /\
      get_byte b' (moves_offset sample_layout p' s + Z.of_nat i * 2 + 1) = Ok (snd mq))).
Proof.
  split; [exact pp_battle_result_ok|].
  exact (construction_move_slot_pp sample_layout sample_tables (sample_lib 0 0) sample_rnd
           [pp_on_empty_move] [pikachu] "None" "None" "None" "None" 1 0 0 0 SeedNone
           pp_battle P1 0 pp_on_empty_move 0 sample_layout_wf eq_refl
           ltac:(simpl; lia) ltac:(simpl; lia) pp_battle_result_ok eq_refl ltac:(lia)).
Defined.

(** * Further accessors of [Battle] *)

(** The offsets read by the remaining accessors, from the same layout
    tables: [Battle.last_damage], [Battle.last_selected_indexes], the hp,
    status and level of a [Pokemon], the stats and species of the
    [ActivePokemon], and the bit offsets of the remaining [Volatiles]
    fields. *)
Record layout_ext := {
  Battle_last_damage : Z;
  Battle_last_selected_indexes : Z;
  Pokemon_hp : Z;
  Pokemon_status : Z;
  Pokemon_level : Z;
  Active_stats : Z;
  Active_species : Z;
  Vol_state : Z;
  Vol_substitute : Z;
  Vol_disabled_duration : Z;
  Vol_disabled_move : Z;
  Vol_toxic : Z
}.

(** [MOVE_ID_LOOKUP] and [SPECIES_ID_LOOKUP] of [pykmn.data.gen1]:
    indexing them with an id they do not hold raises. *)
Record id_lookups := {
  MOVE_ID_LOOKUP : Z -> exc string;
  SPECIES_ID_LOOKUP : Z -> exc string
}.

(** [PartialGen1StatData]: every key optional. *)
Record PartialGen1StatData := mkPartialStats {
  ps_hp : option Z; ps_atk : option Z; ps_def : option Z; ps_spe : option Z; ps_spc : option Z
}.

(** [DisableData(move_slot, turns_left)]. *)
Record DisableData := mkDisableData { move_slot_of : Z; turns_left : Z }.

Section MoreAccessors.
Variable L : layout.
Variable LX : layout_ext.
Variable T : tables.
Variable K : id_lookups.

(** [unpack_u16_from_bytes(bytes[offset], bytes[offset + 1])] *)
Definition read_u16 (b : buffer) (offset : Z) : exc Z :=
  let* lo := get_byte b offset in
  let* hi := get_byte b (offset + 1) in
  Ok (unpack_u16_from_bytes lo hi).

(** The loop over ['hp', 'atk', 'def', 'spe', 'spc'] of the stat getters. *)
Definition read_stats (b : buffer) (offset : Z) : exc Gen1StatData :=
  let* hp := read_u16 b offset in
  let* atk := read_u16 b (offset + 2) in
  let* def := read_u16 b (offset + 4) in
  let* spe := read_u16 b (offset + 6) in
  let* spc := read_u16 b (offset + 8) in
  Ok (mkStats hp atk def spe spc).

(** [if stat in new_stats: bytes[offset:offset + 2] = pack_u16_as_bytes(...)] *)
Definition write_stat (b : buffer) (offset : Z) (v : option Z) : exc buffer :=
  match v with
  | Some x => set_bytes b offset (pack_u16_as_bytes x)
  | None => Ok b
  end.

(** The loop over the stat names of the stat setters. *)
Definition write_stats (b : buffer) (offset : Z) (new_stats : PartialGen1StatData)
    : exc buffer :=
  let* b := write_stat b offset (ps_hp new_stats) in
  let* b := write_stat b (offset + 2) (ps_atk new_stats) in
  let* b := write_stat b (offset + 4) (ps_def new_stats) in
  let* b := write_stat b (offset + 6) (ps_spe new_stats) in
  write_stat b (offset + 8) (ps_spc new_stats).

Definition last_selected_move (b : buffer) (player : Player) : exc string :=
  let* byte := get_byte b (side_offset L player + Side_last_selected_move L) in
  MOVE_ID_LOOKUP K byte.

Definition set_last_selected_move (b : buffer) (player : Player) (move : string)
    : exc buffer :=
  let* id := dict_get (MOVE_IDS T) move in
  set_byte b (side_offset L player + Side_last_selected_move L) id.

Definition last_used_move (b : buffer) (player : Player) : exc string :=
  let* byte := get_byte b (side_offset L player + Side_last_used_move L) in
  MOVE_ID_LOOKUP K byte.

Definition set_last_used_move (b : buffer) (player : Player) (move : string) : exc buffer :=
  let* id := dict_get (MOVE_IDS T) move in
  set_byte b (side_offset L player + Side_last_used_move L) id.

Definition active_pokemon_stats (b : buffer) (player : Player) : exc Gen1StatData :=
  read_stats b (active_offset L player + Active_stats LX).

Definition set_active_pokemon_stats (b : buffer) (player : Player)
    (new_stats : PartialGen1StatData) : exc buffer :=
  write_stats b (active_offset L player + Active_stats LX) new_stats.

Definition active_pokemon_species (b : buffer) (player : Player) : exc string :=
  let* byte := get_byte b (active_offset L player + Active_species LX) in
  SPECIES_ID_LOOKUP K byte.

Definition set_active_pokemon_species (b : buffer) (player : Player) (new_species : string)
    : exc buffer :=
  let* id := dict_get (SPECIES_IDS T) new_species in
  set_byte b (active_offset L player + Active_species LX) id.

(** [new_types[1 if len(new_types) == 2 else 0]] picks the second type. *)
Definition set_active_pokemon_types (b : buffer) (player : Player) (new_types : list string)
    : exc buffer :=
  let offset := active_offset L player + Active_types L in
  let* t0 := py_index new_types 0 in
  let* i0 := list_index (TYPES T) t0 in
  let* t1 := py_index new_types (if (length new_types =? 2)%nat then 1 else 0) in
  let* i1 := list_index (TYPES T) t1 in
  set_byte b offset (pack_two_u4s i0 i1).

(** The byte of a byte-aligned volatile field, after the alignment check. *)
Definition aligned_volatile_offset (player : Player) (bit_offset : Z) : Z :=
  active_offset L player + Active_volatiles L + bit_offset / 8.

Definition volatile_state (b : buffer) (player : Player) : exc Z :=
  let offset := aligned_volatile_offset player (Vol_state LX) in
  let* _ := py_assert (Vol_state LX mod 8 =? 0) in
  read_u16 b offset.

Definition set_volatile_state (b : buffer) (player : Player) (new_state : Z) : exc buffer :=
  let offset := aligned_volatile_offset player (Vol_state LX) in
  set_bytes b offset (pack_u16_as_bytes new_state).

Definition substitute_hp (b : buffer) (player : Player) : exc Z :=
  let offset := aligned_volatile_offset player (Vol_substitute LX) in
  let* _ := py_assert (Vol_substitute LX mod 8 =? 0) in
  get_byte b offset.

Definition set_substitute_hp (b : buffer) (player : Player) (new_hp : Z) : exc buffer :=
  let offset := aligned_volatile_offset player (Vol_substitute LX) in
  let* _ := py_assert (Vol_substitute LX mod 8 =? 0) in
  set_byte b offset new_hp.

Definition disable_data (b : buffer) (player : Player) : exc DisableData :=
  let base := active_offset L player + Active_volatiles L in
  let duration_byte_offset := base + Vol_disabled_duration LX / 8 in
  let duration_bit_offset := Vol_disabled_duration LX mod 8 in
  let* byte := get_byte b duration_byte_offset in
  let duration := extract_unsigned_int_at_offset byte duration_bit_offset 4 in
  let move_byte_offset := base + Vol_disabled_move LX / 8 in
  let move_bit_offset := Vol_disabled_move LX mod 8 in
  let* byte := get_byte b move_byte_offset in
  let move := extract_unsigned_int_at_offset byte move_bit_offset 3 in
  Ok (mkDisableData move duration).

Definition set_disable_data (b : buffer) (player : Player) (new_disable_data : DisableData)
    : exc buffer :=
  let base := active_offset L player + Active_volatiles L in
  let duration_byte_offset := base + Vol_disabled_duration LX / 8 in
  let duration_bit_offset := Vol_disabled_duration LX mod 8 in
  let* byte := get_byte b duration_byte_offset in
  let* b := set_byte b duration_byte_offset
              (insert_unsigned_int_at_offset byte (turns_left new_disable_data)
                 duration_bit_offset 4) in
  let move_byte_offset := base + Vol_disabled_move LX / 8 in
  let move_bit_offset := Vol_disabled_move LX mod 8 in
  let* byte := get_byte b move_byte_offset in
  set_byte b move_byte_offset
    (insert_unsigned_int_at_offset byte (move_slot_of new_disable_data) move_bit_offset 3).

Definition toxic_severity (b : buffer) (player : Player) : exc Z :=
  let '(byte_offset, bit_offset) := volatile_field_pos L player (Vol_toxic LX) in
  let* byte := get_byte b byte_offset in
  Ok (extract_unsigned_int_at_offset byte bit_offset 5).

Definition set_toxic_severity (b : buffer) (player : Player) (new_toxic_counter : Z)
    : exc buffer :=
  let '(byte_offset, bit_offset) := volatile_field_pos L player (Vol_toxic LX) in
  let* byte := get_byte b byte_offset in
  set_byte b byte_offset (insert_unsigned_int_at_offset byte new_toxic_counter bit_offset 5).

Definition turn (b : buffer) : exc Z := read_u16 b (Battle_turn L).

Definition set_turn (b : buffer) (new_turn : Z) : exc buffer :=
  set_bytes b (Battle_turn L) (pack_u16_as_bytes new_turn).

Definition last_damage (b : buffer) : exc Z := read_u16 b (Battle_last_damage LX).

Definition set_last_damage (b : buffer) (new_last_damage : Z) : exc buffer :=
  set_bytes b (Battle_last_damage LX) (pack_u16_as_bytes new_last_damage).

(** [offset = LAYOUT_OFFSETS['Battle']['last_selected_indexes'] + player] *)
Definition last_used_move_index (b : buffer) (player : Player) : exc Z :=
  read_u16 b (Battle_last_selected_indexes LX + player_int player).

Definition current_hp (b : buffer) (player : Player) (pokemon : Z) : exc Z :=
  read_u16 b (pokemon_offset L player pokemon + Pokemon_hp LX).

Definition set_current_hp (b : buffer) (player : Player) (pokemon new_hp : Z) : exc buffer :=
  set_bytes b (pokemon_offset L player pokemon + Pokemon_hp LX) (pack_u16_as_bytes new_hp).

Definition stats (b : buffer) (player : Player) (pokemon : Z) : exc Gen1StatData :=
  read_stats b (pokemon_offset L player pokemon + Pokemon_stats L).

Definition set_stats (b : buffer) (player : Player) (pokemon : Z)
    (new_stats : PartialGen1StatData) : exc buffer :=
  write_stats b (pokemon_offset L player pokemon + Pokemon_stats L) new_stats.

(** The generator of [moves]: the name of every slot with a nonzero id. *)
Fixpoint moves_from (b : buffer) (offset : Z) (ns : list Z) : exc (list string) :=
  match ns with
  | [] => Ok []
  | n :: rest =>
      let* id := get_byte b (offset + n) in
      if negb (id =? 0) then
        let* id' := get_byte b (offset + n) in
        let* name := MOVE_ID_LOOKUP K id' in
        let* names := moves_from b offset rest in
        Ok (name :: names)
      else moves_from b offset rest
  end.

Definition moves (b : buffer) (player : Player) (pokemon : slot_arg) : exc (list string) :=
  moves_from b (moves_offset L player pokemon) [0; 2; 4; 6].

(** The generator of [pp_left]: [bytes[offset + n]] for the odd [n] whose
    move byte [bytes[offset + n - 1]] is nonzero. *)
Fixpoint pp_from (b : buffer) (offset : Z) (ns : list Z) : exc (list Z) :=
  match ns with
  | [] => Ok []
  | n :: rest =>
      let* id := get_byte b (offset + n - 1) in
      if negb (id =? 0) then
        let* pp := get_byte b (offset + n) in
        let* pps := pp_from b offset rest in
        Ok (pp :: pps)
      else pp_from b offset rest
  end.

Definition pp_left (b : buffer) (player : Player) (pokemon : slot_arg) : exc (list Z) :=
  pp_from b (moves_offset L player pokemon) [1; 3; 5; 7].

(** The generator of [moves_with_pp]. *)
Fixpoint moves_with_pp_from (b : buffer) (offset : Z) (ns : list Z)
    : exc (list (string * Z)) :=
  match ns with
  | [] => Ok []
  | n :: rest =>
      let* id := get_byte b (offset + n) in
      if negb (id =? 0) then
        let* id' := get_byte b (offset + n) in
        let* name := MOVE_ID_LOOKUP K id' in
        let* pp := get_byte b (offset + n + 1) in
        let* rest' := moves_with_pp_from b offset rest in
        Ok ((name, pp) :: rest')
      else moves_with_pp_from b offset rest
  end.

Definition moves_with_pp (b : buffer) (player : Player) (pokemon : slot_arg)
    : exc (list (string * Z)) :=
  moves_with_pp_from b (moves_offset L player pokemon) [0; 2; 4; 6].

Definition status (b : buffer) (player : Player) (pokemon : Z) : exc Status.t :=
  let* v := get_byte b (pokemon_offset L player pokemon + Pokemon_status LX) in
  Ok (Status.mk v).

Definition set_status (b : buffer) (player : Player) (pokemon : Z) (new_status : Status.t)
    : exc buffer :=
  set_byte b (pokemon_offset L player pokemon + Pokemon_status LX) (Status._value new_status).

Definition species (b : buffer) (player : Player) (pokemon : Z) : exc string :=
  let* byte := get_byte b (pokemon_offset L player pokemon + Pokemon_species L) in
  SPECIES_ID_LOOKUP K byte.

Definition set_species (b : buffer) (player : Player) (pokemon : Z) (new_species : string)
    : exc buffer :=
  let* id := dict_get (SPECIES_IDS T) new_species in
  set_byte b (pokemon_offset L player pokemon + Pokemon_species L) id.

Definition level (b : buffer) (player : Player) (pokemon : Z) : exc Z :=
  get_byte b (pokemon_offset L player pokemon + Pokemon_level LX).

Definition set_level (b : buffer) (player : Player) (pokemon new_level : Z) : exc buffer :=
  set_byte b (pokemon_offset L player pokemon + Pokemon_level LX) new_level.

End MoreAccessors.

(** Concrete offsets for the remaining fields, used for evaluation. *)
Definition sample_layout_ext : layout_ext := {|
  Battle_last_damage := 370; Battle_last_selected_indexes := 372;
  Pokemon_hp := 18; Pokemon_status := 20; Pokemon_level := 23;
  Active_stats := 0; Active_species := 10;
  Vol_state := 24; Vol_substitute := 40; Vol_disabled_duration := 52;
  Vol_disabled_move := 56; Vol_toxic := 59
|}.

(** A small id lookup for evaluation: ids it does not hold raise. *)
Definition sample_lookups : id_lookups := {|
  MOVE_ID_LOOKUP := fun id =>
    if id =? 0 then Ok "None" else if id =? 33 then Ok "Tackle"
    else if id =? 85 then Ok "Thunderbolt" else Raise IndexError;
  SPECIES_ID_LOOKUP := fun id =>
    if id =? 0 then Ok "None" else if id =? 25 then Ok "Pikachu" else Raise IndexError
|}.

(** The read and the read-modify-write of a bit field at
    [bytes[byte_offset]], as every volatile accessor does them. *)
Definition read_bits (b : buffer) (byte_offset bit_offset length : Z) : exc Z :=
  let* byte := get_byte b byte_offset in
  Ok (extract_unsigned_int_at_offset byte bit_offset length).

Definition write_bits (b : buffer) (byte_offset bit_offset length n : Z) : exc buffer :=
  let* byte := get_byte b byte_offset in
  set_byte b byte_offset (insert_unsigned_int_at_offset byte n bit_offset length).

(** A field of [length] bits at bit offset [bit] of the volatiles that
    does not cross a byte boundary. *)
Definition field_fits (bit length : Z) : Prop :=
  0 <= bit /\ 0 <= length /\ bit mod 8 + length <= 8.

Definition fields_disjoint (bit1 length1 bit2 length2 : Z) : Prop :=
  bit1 + length1 <= bit2 \/ bit2 + length2 <= bit1.

Definition field_in_buffer (L : layout) (p : Player) (bit : Z) (b : buffer) : Prop :=
  0 <= fst (volatile_field_pos L p bit) < Z.of_nat (length b).

(** * Properties of the further accessors *)

(** ** Bit fields inside one byte *)

Lemma insert_testbit byte n o l j :
  0 <= o -> 0 <= l -> 0 <= j ->
  Z.testbit (insert_unsigned_int_at_offset byte n o l) j =
  if (o <=? j) && (j <? o + l) then Z.testbit n (j - o) else Z.testbit byte j.
Proof.
  intros Ho Hl Hj. unfold insert_unsigned_int_at_offset.
  rewrite Z.lor_spec, Z.land_spec, Z.lnot_spec by lia.
  destruct (Z.ltb_spec j o).
  - rewrite !Z.shiftl_spec_low by lia. simpl. rewrite andb_true_r.
    destruct (Z.leb_spec o j); [lia|]. simpl. now rewrite orb_false_r.
  - rewrite !Z.shiftl_spec_high by lia. rewrite Z.land_spec, Z.testbit_ones_nonneg by lia.
    destruct (Z.leb_spec o j); [|lia]. simpl.
    destruct (Z.ltb_spec (j - o) l), (Z.ltb_spec j (o + l)); try lia; simpl.
    + rewrite andb_false_r, andb_true_r. reflexivity.
    + rewrite andb_true_r, andb_false_r, orb_false_r. reflexivity.
Qed.

Lemma extract_testbit x o l i :
  0 <= o -> 0 <= l -> 0 <= i ->
  Z.testbit (extract_unsigned_int_at_offset x o l) i = Z.testbit x (i + o) && (i <? l).
Proof.
  intros. unfold extract_unsigned_int_at_offset.
  rewrite Z.land_spec, Z.shiftr_spec, Z.testbit_ones_nonneg by lia. reflexivity.
Qed.

Lemma insert_extract_same byte n o l :
  0 <= o -> 0 <= l ->
  extract_unsigned_int_at_offset (insert_unsigned_int_at_offset byte n o l) o l =
  Z.land n (Z.ones l).
Proof.
  intros Ho Hl. apply Z.bits_inj'. intros i Hi.
  rewrite extract_testbit, Z.land_spec, Z.testbit_ones_nonneg by lia.
  destruct (Z.ltb_spec i l).
  - rewrite insert_testbit by lia.
    destruct (Z.leb_spec o (i + o)), (Z.ltb_spec (i + o) (o + l)); try lia. simpl.
    replace (i + o - o) with i by lia. now rewrite !andb_true_r.
  - now rewrite !andb_false_r.
Qed.

Lemma insert_extract_other byte n o1 l1 o2 l2 :
  0 <= o1 -> 0 <= l1 -> 0 <= o2 -> 0 <= l2 -> (o2 + l2 <= o1 \/ o1 + l1 <= o2) ->
  extract_unsigned_int_at_offset (insert_unsigned_int_at_offset byte n o1 l1) o2 l2 =
  extract_unsigned_int_at_offset byte o2 l2.
Proof.
  intros. apply Z.bits_inj'. intros i Hi.
  rewrite !extract_testbit by lia.
  destruct (Z.ltb_spec i l2).
  - rewrite insert_testbit by lia.
    destruct (Z.leb_spec o1 (i + o2)), (Z.ltb_spec (i + o2) (o1 + l1)); try lia; reflexivity.
  - now rewrite !andb_false_r.
Qed.

Lemma insert_byte_range byte n o l :
  0 <= byte < 256 -> 0 <= o -> 0 <= l -> o + l <= 8 ->
  0 <= insert_unsigned_int_at_offset byte n o l < 256.
Proof.
  intros Hb Ho Hl Hol.
  set (r := insert_unsigned_int_at_offset byte n o l).
  assert (E : r = r mod 2 ^ 8).
  { apply Z.bits_inj'. intros i Hi. destruct (Z.ltb_spec i 8).
    - rewrite Z.mod_pow2_bits_low by lia. reflexivity.
    - rewrite Z.mod_pow2_bits_high by lia. unfold r. rewrite insert_testbit by lia.
      destruct (Z.leb_spec o i), (Z.ltb_spec i (o + l)); try lia; simpl.
      rewrite <- (Z.mod_small byte (2 ^ 8)) by (simpl; lia).
      apply Z.mod_pow2_bits_high. lia. }
  rewrite E. apply Z.mod_pos_bound. lia.
Qed.

(** ** Byte and u16 reads and writes *)

Lemma get_byte_frame keep b b' i :
  frame keep b b' -> keep i -> get_byte b' i = get_byte b i.
Proof.
  intros Hf Hk. unfold get_byte. destruct (Z.leb_spec 0 i); [|reflexivity].
  rewrite (frame_at _ _ _ _ Hf H Hk). reflexivity.
Qed.

Lemma read_u16_frame keep b b' o :
  frame keep b b' -> keep o -> keep (o + 1) -> read_u16 b' o = read_u16 b o.
Proof.
  intros Hf H0 H1. unfold read_u16.
  rewrite (get_byte_frame _ _ _ _ Hf H0), (get_byte_frame _ _ _ _ Hf H1). reflexivity.
Qed.

Lemma u16_split v :
  0 <= v < 65536 -> unpack_u16_from_bytes (Z.land v 255) (Z.land (Z.shiftr v 8) 255) = v.
Proof.
  intros Hv. unfold unpack_u16_from_bytes.
  change 255 with (Z.ones 8). rewrite !Z.land_ones, Z.shiftr_div_pow2 by lia.
  change (2 ^ 8) with 256. rewrite (Z.mod_small (v / 256)) by (split; [apply Z.div_pos|apply Z.div_lt_upper_bound]; lia).
  pose proof (Z.div_mod v 256). lia.
Qed.

Lemma pack_u16_bytes v : Forall (fun x => 0 <= x < 256) (pack_u16_as_bytes v).
Proof.
  unfold pack_u16_as_bytes. change 255 with (Z.ones 8). rewrite !Z.land_ones by lia.
  repeat constructor; apply Z.mod_pos_bound; lia.
Qed.

(** A slice write of in-range bytes inside the buffer succeeds. *)
Lemma set_bytes_ok vs b i :
  Forall (fun x => 0 <= x < 256) vs -> 0 <= i -> i + Z.of_nat (length vs) <= Z.of_nat (length b) ->
  exists b', set_bytes b i vs = Ok b'.
Proof.
  revert b i. induction vs as [|v vs IH]; simpl; intros b i Hvs Hi Hl; [eauto|].
  inversion Hvs as [|? ? Hv Hvs']; subst.
  rewrite (set_byte_ok b i v) by lia. simpl.
  apply IH; [exact Hvs' | lia | rewrite length_insert; lia].
Qed.

(** Writing a u16 with [pack_u16_as_bytes] at [o] inside the buffer
    succeeds, reads back through [read_u16] and changes only the bytes
    [o] and [o + 1]. *)
Lemma write_u16 b o v :
  0 <= v < 65536 -> 0 <= o -> o + 2 <= Z.of_nat (length b) ->
  exists b', set_bytes b o (pack_u16_as_bytes v) = Ok b' /\
             read_u16 b' o = Ok v /\ frame (outside o (o + 2)) b b'.
Proof.
  intros Hv Ho Hl.
  destruct (set_bytes_ok (pack_u16_as_bytes v) b o (pack_u16_bytes v) Ho) as [b' E];
    [simpl; lia|].
  exists b'. split; [exact E|]. split.
  - pose proof E as E'. unfold pack_u16_as_bytes in E'. simpl in E'.
    destruct (set_byte b o _) as [b1|e] eqn:E1; simpl in E'; [|discriminate].
    destruct (set_byte b1 (o + 1) _) as [b2|e] eqn:E2; simpl in E'; [|discriminate].
    injection E' as <-.
    unfold read_u16.
    pose proof (set_byte_lookup _ _ _ _ E1) as L1.
    pose proof (set_byte_lookup _ _ _ _ E2) as L2.
    pose proof (set_byte_frame _ _ _ _ E2) as F2.
    rewrite (get_byte_of_lookup b2 o (Z.land v 255)); [|lia|].
    + rewrite (get_byte_of_lookup b2 (o + 1) _ ltac:(lia) L2). simpl.
      rewrite u16_split by exact Hv. reflexivity.
    + rewrite (frame_at _ _ _ _ F2) by lia. exact L1.
  - pose proof (set_bytes_frame _ _ _ _ E) as F. eapply frame_weaken; [|exact F].
    unfold outside. simpl. lia.
Qed.

(** Writing one byte inside the buffer: success, read-back and frame. *)
Lemma write_byte b i v :
  0 <= v < 256 -> 0 <= i -> i < Z.of_nat (length b) ->
  exists b', set_byte b i v = Ok b' /\ get_byte b' i = Ok v /\ frame (fun j => j <> i) b b'.
Proof.
  intros Hv Hi Hl. rewrite set_byte_ok by lia. eexists. split; [reflexivity|]. split.
  - apply get_byte_of_lookup; [exact Hi|]. apply list_lookup_insert_eq. lia.
  - apply (set_byte_frame b i v). apply set_byte_ok; lia.
Qed.

(** A byte write of a value outside [0, 256) at an index inside the
    buffer raises [OverflowError]. *)
Lemma set_byte_overflow b i v :
  0 <= i -> i < Z.of_nat (length b) -> ~ (0 <= v < 256) -> set_byte b i v = Raise OverflowError.
Proof.
  intros Hi Hl Hv. unfold set_byte.
  destruct (Z.leb_spec 0 i); [|lia]. destruct (Nat.ltb_spec (Z.to_nat i) (length b)); [|lia].
  destruct (Z.leb_spec 0 v), (Z.ltb_spec v 256); simpl; try reflexivity. lia.
Qed.

(** ** Round trips of the u16 fields *)

(** Closed arithmetic over the concrete layouts and buffers. *)
Ltac closed_arith :=
  unfold pokemon_offset, active_offset, side_offset, player_int, sample_buffer,
    field_fits, fields_disjoint, field_in_buffer, volatile_field_pos;
  first [cbn; lia | vm_compute; intuition discriminate].

(** [set_current_hp] then [current_hp]: inside the buffer the write
    succeeds, the value reads back, and only the two hp bytes change. *)
Theorem current_hp_roundtrip (L : layout) (LX : layout_ext) (b : buffer) (p : Player)
    (k hp : Z) (Hhp : 0 <= hp < 65536)
    (Hin : 0 <= pokemon_offset L p k + Pokemon_hp LX /\
           pokemon_offset L p k + Pokemon_hp LX + 2 <= Z.of_nat (length b)) :
  exists b', set_current_hp L LX b p k hp = Ok b' /\ current_hp L LX b' p k = Ok hp /\
    frame (outside (pokemon_offset L p k + Pokemon_hp LX)
                   (pokemon_offset L p k + Pokemon_hp LX + 2)) b b'.
Proof.
  unfold set_current_hp, current_hp. apply write_u16; [exact Hhp | apply Hin | apply Hin].
Qed.

Lemma current_hp_roundtrip_witness :
  (0 <= 300 < 65536 /\
   0 <= pokemon_offset sample_layout P2 3 + Pokemon_hp sample_layout_ext /\
   pokemon_offset sample_layout P2 3 + Pokemon_hp sample_layout_ext + 2
     <= Z.of_nat (length sample_buffer)) /\
  exists b', set_current_hp sample_layout sample_layout_ext sample_buffer P2 3 300 = Ok b' /\
    current_hp sample_layout sample_layout_ext b' P2 3 = Ok 300 /\
    frame (outside (pokemon_offset sample_layout P2 3 + Pokemon_hp sample_layout_ext)
                   (pokemon_offset sample_layout P2 3 + Pokemon_hp sample_layout_ext + 2))
          sample_buffer b'.
Proof.
  split; [closed_arith|].
  apply current_hp_roundtrip; closed_arith.
Defined.

(** [set_turn] then [turn]: the turn reads back, and when the turn and
    last-damage fields do not overlap, [last_damage] is unchanged. *)
Theorem turn_roundtrip (L : layout) (LX : layout_ext) (b : buffer) (t : Z)
    (Ht : 0 <= t < 65536)
    (Hin : 0 <= Battle_turn L /\ Battle_turn L + 2 <= Z.of_nat (length b))
    (Hdisj : Battle_last_damage LX + 2 <= Battle_turn L \/
             Battle_turn L + 2 <= Battle_last_damage LX) :
  exists b', set_turn L b t = Ok b' /\ turn L b' = Ok t /\
    last_damage LX b' = last_damage LX b.
Proof.
  unfold set_turn, turn, last_damage.
  destruct (write_u16 b (Battle_turn L) t Ht (proj1 Hin) (proj2 Hin)) as (b' & E & R & F).
  exists b'. split; [exact E|]. split; [exact R|].
  apply (read_u16_frame _ _ _ _ F); unfold outside; lia.
Qed.

Lemma turn_roundtrip_witness :
  (0 <= 7 < 65536 /\
   (0 <= Battle_turn sample_layout /\
    Battle_turn sample_layout + 2 <= Z.of_nat (length sample_buffer)) /\
   (Battle_last_damage sample_layout_ext + 2 <= Battle_turn sample_layout \/
    Battle_turn sample_layout + 2 <= Battle_last_damage sample_layout_ext)) /\
  exists b', set_turn sample_layout sample_buffer 7 = Ok b' /\
    turn sample_layout b' = Ok 7 /\
    last_damage sample_layout_ext b' = last_damage sample_layout_ext sample_buffer.
Proof.
  split; [closed_arith|].
  apply turn_roundtrip; closed_arith.
Defined.

(** [set_last_damage] then [last_damage]: the value reads back, and when
    the fields do not overlap, [turn] is unchanged. *)
Theorem last_damage_roundtrip (L : layout) (LX : layout_ext) (b : buffer) (d : Z)
    (Hd : 0 <= d < 65536)
    (Hin : 0 <= Battle_last_damage LX /\ Battle_last_damage LX + 2 <= Z.of_nat (length b))
    (Hdisj : Battle_last_damage LX + 2 <= Battle_turn L \/
             Battle_turn L + 2 <= Battle_last_damage LX) :
  exists b', set_last_damage LX b d = Ok b' /\ last_damage LX b' = Ok d /\
    turn L b' = turn L b.
Proof.
  unfold set_last_damage, turn, last_damage.
  destruct (write_u16 b (Battle_last_damage LX) d Hd (proj1 Hin) (proj2 Hin)) as (b' & E & R & F).
  exists b'. split; [exact E|]. split; [exact R|].
  apply (read_u16_frame _ _ _ _ F); unfold outside; lia.
Qed.

Lemma last_damage_roundtrip_witness :
  (0 <= 123 < 65536 /\
   (0 <= Battle_last_damage sample_layout_ext /\
    Battle_last_damage sample_layout_ext + 2 <= Z.of_nat (length sample_buffer)) /\
   (Battle_last_damage sample_layout_ext + 2 <= Battle_turn sample_layout \/
    Battle_turn sample_layout + 2 <= Battle_last_damage sample_layout_ext)) /\
  exists b', set_last_damage sample_layout_ext sample_buffer 123 = Ok b' /\
    last_damage sample_layout_ext b' = Ok 123 /\
    turn sample_layout b' = turn sample_layout sample_buffer.
Proof.
  split; [closed_arith|].
  apply last_damage_roundtrip; closed_arith.
Defined.

(** ** Round trips of the byte fields *)

(** [set_status] then [status]: a status whose [_value] fits a byte is
    stored and read back as the same [Status], changing only the status
    byte; any other [_value] raises [OverflowError]. *)
Theorem status_roundtrip (L : layout) (LX : layout_ext) (b : buffer) (p : Player)
    (k : Z) (s : Status.t)
    (Hin : 0 <= pokemon_offset L p k + Pokemon_status LX <
           Z.of_nat (length b)) :
  (0 <= Status._value s < 256 ->
   exists b', set_status L LX b p k s = Ok b' /\ status L LX b' p k = Ok s /\
     frame (fun j => j <> pokemon_offset L p k + Pokemon_status LX) b b') /\
  (~ (0 <= Status._value s < 256) -> set_status L LX b p k s = Raise OverflowError).
Proof.
  unfold set_status, status. split.
  - intros Hv.
    destruct (write_byte b (pokemon_offset L p k + Pokemon_status LX) (Status._value s) Hv
                ltac:(lia) ltac:(lia)) as (b' & E & R & F).
    exists b'. split; [exact E|]. split; [|exact F].
    rewrite R. destruct s. reflexivity.
  - intros Hv. apply set_byte_overflow; [lia | lia | exact Hv].
Qed.

Lemma status_roundtrip_witness :
  0 <= pokemon_offset sample_layout P1 2 + Pokemon_status sample_layout_ext <
    Z.of_nat (length sample_buffer) /\
  (0 <= Status._value (Status.SELF_INFLICTED_SLEEP 3) < 256 ->
   exists b', set_status sample_layout sample_layout_ext sample_buffer P1 2
                (Status.SELF_INFLICTED_SLEEP 3) = Ok b' /\
     status sample_layout sample_layout_ext b' P1 2 = Ok (Status.SELF_INFLICTED_SLEEP 3) /\
     frame (fun j => j <> pokemon_offset sample_layout P1 2 + Pokemon_status sample_layout_ext)
       sample_buffer b') /\
  (~ (0 <= Status._value (Status.SELF_INFLICTED_SLEEP 3) < 256) ->
   set_status sample_layout sample_layout_ext sample_buffer P1 2 (Status.SELF_INFLICTED_SLEEP 3)
   = Raise OverflowError).
Proof.
  split; [closed_arith|].
  apply status_roundtrip. closed_arith.
Defined.

(** [set_level] then [level]: a level in [0, 256) reads back and only the
    level byte changes; any other level raises [OverflowError]. *)
Theorem level_roundtrip (L : layout) (LX : layout_ext) (b : buffer) (p : Player)
    (k lv : Z)
    (Hin : 0 <= pokemon_offset L p k + Pokemon_level LX < Z.of_nat (length b)) :
  (0 <= lv < 256 ->
   exists b', set_level L LX b p k lv = Ok b' /\ level L LX b' p k = Ok lv /\
     frame (fun j => j <> pokemon_offset L p k + Pokemon_level LX) b b') /\
  (~ (0 <= lv < 256) -> set_level L LX b p k lv = Raise OverflowError).
Proof.
  unfold set_level, level. split.
  - intros Hv. apply write_byte; lia.
  - intros Hv. apply set_byte_overflow; [lia | lia | exact Hv].
Qed.

Lemma level_roundtrip_witness :
  0 <= pokemon_offset sample_layout P2 6 + Pokemon_level sample_layout_ext <
    Z.of_nat (length sample_buffer) /\
  (0 <= 100 < 256 ->
   exists b', set_level sample_layout sample_layout_ext sample_buffer P2 6 100 = Ok b' /\
     level sample_layout sample_layout_ext b' P2 6 = Ok 100 /\
     frame (fun j => j <> pokemon_offset sample_layout P2 6 + Pokemon_level sample_layout_ext)
       sample_buffer b') /\
  (~ (0 <= 100 < 256) ->
   set_level sample_layout sample_layout_ext sample_buffer P2 6 100 = Raise OverflowError).
Proof.
  split; [closed_arith|].
  apply level_roundtrip. closed_arith.
Defined.

(** Storing a name through its id table and reading it back through the
    id lookup. *)
Lemma write_id_byte (ids : string -> option Z) (lookup : Z -> exc string) b o name id :
  ids name = Some id -> 0 <= id < 256 -> lookup id = Ok name ->
  0 <= o < Z.of_nat (length b) ->
  exists b', (let* v := dict_get ids name in set_byte b o v) = Ok b' /\
    (let* v := get_byte b' o in lookup v) = Ok name /\ frame (fun j => j <> o) b b'.
Proof.
  intros Hid Hv Hl Ho. unfold dict_get. rewrite Hid. simpl.
  destruct (write_byte b o id Hv ltac:(lia) ltac:(lia)) as (b' & E & R & F).
  exists b'. rewrite E, R. simpl. auto.
Qed.

Lemma write_id_byte_missing {A} (ids : string -> option Z) (f : Z -> exc A) name :
  ids name = None -> (let* v := dict_get ids name in f v) = Raise KeyError.
Proof. intros H. unfold dict_get. rewrite H. reflexivity. Qed.

(** [set_species] then [species]: when [SPECIES_IDS] maps the name to a
    byte id that [SPECIES_ID_LOOKUP] maps back, the name reads back and
    only the species byte changes; a name missing from [SPECIES_IDS]
    raises [KeyError]. *)
Theorem species_roundtrip (L : layout) (T : tables) (K : id_lookups)
    (b : buffer) (p : Player) (k : Z) (name : string)
    (Hin : 0 <= pokemon_offset L p k + Pokemon_species L < Z.of_nat (length b)) :
  (forall id, SPECIES_IDS T name = Some id -> 0 <= id < 256 ->
   SPECIES_ID_LOOKUP K id = Ok name ->
   exists b', set_species L T b p k name = Ok b' /\ species L K b' p k = Ok name /\
     frame (fun j => j <> pokemon_offset L p k + Pokemon_species L) b b') /\
  (SPECIES_IDS T name = None -> set_species L T b p k name = Raise KeyError).
Proof.
  unfold set_species, species. split.
  - intros id Hid Hv Hl. apply (write_id_byte _ _ _ _ _ id Hid Hv Hl Hin).
  - apply write_id_byte_missing.
Qed.

Lemma species_roundtrip_witness :
  0 <= pokemon_offset sample_layout P1 1 + Pokemon_species sample_layout <
    Z.of_nat (length sample_buffer) /\
  (forall id, SPECIES_IDS sample_tables "Pikachu" = Some id -> 0 <= id < 256 ->
   SPECIES_ID_LOOKUP sample_lookups id = Ok "Pikachu" ->
   exists b', set_species sample_layout sample_tables sample_buffer P1 1 "Pikachu" = Ok b' /\
     species sample_layout sample_lookups b' P1 1 = Ok "Pikachu" /\
     frame (fun j => j <> pokemon_offset sample_layout P1 1 + Pokemon_species sample_layout)
       sample_buffer b') /\
  (SPECIES_IDS sample_tables "Pikachu" = None ->
   set_species sample_layout sample_tables sample_buffer P1 1 "Pikachu" = Raise KeyError).
Proof.
  split; [closed_arith|].
  apply species_roundtrip. closed_arith.
Defined.

(** The same for the active Pokémon: [set_active_pokemon_species] then
    [active_pokemon_species]. *)
Theorem active_species_roundtrip (L : layout) (LX : layout_ext) (T : tables)
    (K : id_lookups) (b : buffer) (p : Player) (name : string)
    (Hin : 0 <= active_offset L p + Active_species LX < Z.of_nat (length b)) :
  (forall id, SPECIES_IDS T name = Some id -> 0 <= id < 256 ->
   SPECIES_ID_LOOKUP K id = Ok name ->
   exists b', set_active_pokemon_species L LX T b p name = Ok b' /\
     active_pokemon_species L LX K b' p = Ok name /\
     frame (fun j => j <> active_offset L p + Active_species LX) b b') /\
  (SPECIES_IDS T name = None -> set_active_pokemon_species L LX T b p name = Raise KeyError).
Proof.
  unfold set_active_pokemon_species, active_pokemon_species. split.
  - intros id Hid Hv Hl. apply (write_id_byte _ _ _ _ _ id Hid Hv Hl Hin).
  - apply write_id_byte_missing.
Qed.

Lemma active_species_roundtrip_witness :
  0 <= active_offset sample_layout P2 + Active_species sample_layout_ext <
    Z.of_nat (length sample_buffer) /\
  (forall id, SPECIES_IDS sample_tables "Pikachu" = Some id -> 0 <= id < 256 ->
   SPECIES_ID_LOOKUP sample_lookups id = Ok "Pikachu" ->
   exists b', set_active_pokemon_species sample_layout sample_layout_ext sample_tables
                sample_buffer P2 "Pikachu" = Ok b' /\
     active_pokemon_species sample_layout sample_layout_ext sample_lookups b' P2 = Ok "Pikachu" /\
     frame (fun j => j <> active_offset sample_layout P2 + Active_species sample_layout_ext)
       sample_buffer b') /\
  (SPECIES_IDS sample_tables "Pikachu" = None ->
   set_active_pokemon_species sample_layout sample_layout_ext sample_tables sample_buffer P2
     "Pikachu" = Raise KeyError).
Proof.
  split; [closed_arith|].
  apply active_species_roundtrip. closed_arith.
Defined.

(** [set_last_selected_move] then [last_selected_move]: the move reads
    back and, when the two last-move bytes differ, [last_used_move] is
    unchanged; a move missing from [MOVE_IDS] raises [KeyError]. *)
Theorem last_selected_move_roundtrip (L : layout) (T : tables) (K : id_lookups)
    (b : buffer) (p : Player) (move : string)
    (Hin : 0 <= side_offset L p + Side_last_selected_move L < Z.of_nat (length b))
    (Hne : Side_last_selected_move L <> Side_last_used_move L) :
  (forall id, MOVE_IDS T move = Some id -> 0 <= id < 256 -> MOVE_ID_LOOKUP K id = Ok move ->
   exists b', set_last_selected_move L T b p move = Ok b' /\
     last_selected_move L K b' p = Ok move /\
     last_used_move L K b' p = last_used_move L K b p) /\
  (MOVE_IDS T move = None -> set_last_selected_move L T b p move = Raise KeyError).
Proof.
  unfold set_last_selected_move, last_selected_move, last_used_move. split.
  - intros id Hid Hv Hl.
    destruct (write_id_byte _ _ _ _ _ id Hid Hv Hl Hin) as (b' & E & R & F).
    exists b'. split; [exact E|]. split; [exact R|].
    rewrite (get_byte_frame _ _ _ _ F) by lia. reflexivity.
  - apply write_id_byte_missing.
Qed.

Lemma last_selected_move_roundtrip_witness :
  0 <= side_offset sample_layout P2 + Side_last_selected_move sample_layout <
    Z.of_nat (length sample_buffer) /\
  Side_last_selected_move sample_layout <> Side_last_used_move sample_layout /\
  (forall id, MOVE_IDS sample_tables "Tackle" = Some id -> 0 <= id < 256 ->
   MOVE_ID_LOOKUP sample_lookups id = Ok "Tackle" ->
   exists b', set_last_selected_move sample_layout sample_tables sample_buffer P2 "Tackle" = Ok b' /\
     last_selected_move sample_layout sample_lookups b' P2 = Ok "Tackle" /\
     last_used_move sample_layout sample_lookups b' P2 =
       last_used_move sample_layout sample_lookups sample_buffer P2) /\
  (MOVE_IDS sample_tables "Tackle" = None ->
   set_last_selected_move sample_layout sample_tables sample_buffer P2 "Tackle" = Raise KeyError).
Proof.
  split; [closed_arith|]. split; [closed_arith|].
  apply last_selected_move_roundtrip; closed_arith.
Defined.

(** [set_last_used_move] then [last_used_move], symmetrically. *)
Theorem last_used_move_roundtrip (L : layout) (T : tables) (K : id_lookups)
    (b : buffer) (p : Player) (move : string)
    (Hin : 0 <= side_offset L p + Side_last_used_move L < Z.of_nat (length b))
    (Hne : Side_last_selected_move L <> Side_last_used_move L) :
  (forall id, MOVE_IDS T move = Some id -> 0 <= id < 256 -> MOVE_ID_LOOKUP K id = Ok move ->
   exists b', set_last_used_move L T b p move = Ok b' /\
     last_used_move L K b' p = Ok move /\
     last_selected_move L K b' p = last_selected_move L K b p) /\
  (MOVE_IDS T move = None -> set_last_used_move L T b p move = Raise KeyError).
Proof.
  unfold set_last_used_move, last_selected_move, last_used_move. split.
  - intros id Hid Hv Hl.
    destruct (write_id_byte _ _ _ _ _ id Hid Hv Hl Hin) as (b' & E & R & F).
    exists b'. split; [exact E|]. split; [exact R|].
    rewrite (get_byte_frame _ _ _ _ F) by lia. reflexivity.
  - apply write_id_byte_missing.
Qed.

Lemma last_used_move_roundtrip_witness :
  0 <= side_offset sample_layout P1 + Side_last_used_move sample_layout <
    Z.of_nat (length sample_buffer) /\
  Side_last_selected_move sample_layout <> Side_last_used_move sample_layout /\
  (forall id, MOVE_IDS sample_tables "Tackle" = Some id -> 0 <= id < 256 ->
   MOVE_ID_LOOKUP sample_lookups id = Ok "Tackle" ->
   exists b', set_last_used_move sample_layout sample_tables sample_buffer P1 "Tackle" = Ok b' /\
     last_used_move sample_layout sample_lookups b' P1 = Ok "Tackle" /\
     last_selected_move sample_layout sample_lookups b' P1 =
       last_selected_move sample_layout sample_lookups sample_buffer P1) /\
  (MOVE_IDS sample_tables "Tackle" = None ->
   set_last_used_move sample_layout sample_tables sample_buffer P1 "Tackle" = Raise KeyError).
Proof.
  split; [closed_arith|]. split; [closed_arith|].
  apply last_used_move_roundtrip; closed_arith.
Defined.

(** ** Partial stat updates *)

(** An optional u16 value. *)
Definition opt_u16 (o : option Z) : Prop :=
  match o with Some v => 0 <= v < 65536 | None => True end.

(** The stats after a partial update: a present key replaces the old
    value, an absent key keeps it. *)
Definition updated_stats (new_stats : PartialGen1StatData) (old : Gen1StatData) : Gen1StatData :=
  mkStats (default (ps_hp new_stats) (st_hp old)) (default (ps_atk new_stats) (st_atk old))
          (default (ps_def new_stats) (st_def old)) (default (ps_spe new_stats) (st_spe old))
          (default (ps_spc new_stats) (st_spc old)).

Lemma read_u16_ok b o :
  0 <= o -> o + 2 <= Z.of_nat (length b) -> exists v, read_u16 b o = Ok v.
Proof.
  intros Ho Hl. unfold read_u16.
  destruct (get_byte_in_range b o Ho ltac:(lia)) as (lo & _ & E0).
  destruct (get_byte_in_range b (o + 1) ltac:(lia) ltac:(lia)) as (hi & _ & E1).
  rewrite E0, E1. simpl. eauto.
Qed.

Lemma write_stat_spec b o v :
  opt_u16 v -> 0 <= o -> o + 2 <= Z.of_nat (length b) ->
  exists b', write_stat b o v = Ok b' /\ frame (outside o (o + 2)) b b' /\
    read_u16 b' o = match v with Some x => Ok x | None => read_u16 b o end.
Proof.
  intros Hv Ho Hl. destruct v as [x|]; simpl.
  - destruct (write_u16 b o x Hv Ho Hl) as (b' & E & R & F). eauto.
  - exists b. split; [reflexivity|]. split; [apply frame_refl | reflexivity].
Qed.

Lemma frame_length keep b b' : frame keep b b' -> length b' = length b.
Proof. intros [H _]. exact H. Qed.

(** The stat setters followed by the stat getters, at any offset. *)
Lemma write_stats_spec b o new_stats :
  opt_u16 (ps_hp new_stats) -> opt_u16 (ps_atk new_stats) -> opt_u16 (ps_def new_stats) ->
  opt_u16 (ps_spe new_stats) -> opt_u16 (ps_spc new_stats) ->
  0 <= o -> o + 10 <= Z.of_nat (length b) ->
  exists b', write_stats b o new_stats = Ok b' /\
    read_stats b' o = (let* old := read_stats b o in Ok (updated_stats new_stats old)) /\
    frame (outside o (o + 10)) b b'.
Proof.
  intros H1 H2 H3 H4 H5 Ho Hl. unfold write_stats.
  destruct (write_stat_spec b o _ H1 ltac:(lia) ltac:(lia)) as (b1 & E1 & F1 & R1).
  pose proof (frame_length _ _ _ F1) as L1.
  destruct (write_stat_spec b1 (o + 2) _ H2 ltac:(lia) ltac:(lia)) as (b2 & E2 & F2 & R2).
  pose proof (frame_length _ _ _ F2) as L2.
  destruct (write_stat_spec b2 (o + 4) _ H3 ltac:(lia) ltac:(lia)) as (b3 & E3 & F3 & R3).
  pose proof (frame_length _ _ _ F3) as L3.
  destruct (write_stat_spec b3 (o + 6) _ H4 ltac:(lia) ltac:(lia)) as (b4 & E4 & F4 & R4).
  pose proof (frame_length _ _ _ F4) as L4.
  destruct (write_stat_spec b4 (o + 8) _ H5 ltac:(lia) ltac:(lia)) as (b5 & E5 & F5 & R5).
  exists b5. rewrite E1. simpl. rewrite E2. simpl. rewrite E3. simpl. rewrite E4. simpl.
  rewrite E5. split; [reflexivity|]. split; [|chain_frames].
  destruct (read_u16_ok b o) as [v0 V0]; [lia|lia|].
  destruct (read_u16_ok b (o + 2)) as [v1 V1]; [lia|lia|].
  destruct (read_u16_ok b (o + 4)) as [v2 V2]; [lia|lia|].
  destruct (read_u16_ok b (o + 6)) as [v3 V3]; [lia|lia|].
  destruct (read_u16_ok b (o + 8)) as [v4 V4]; [lia|lia|].
  unfold read_stats. rewrite V0, V1, V2, V3, V4. simpl.
  (* each field: later writes keep it, its own write sets it, earlier writes keep the old value *)
  assert (A0 : read_u16 b5 o = Ok (default (ps_hp new_stats) v0)).
  { rewrite (read_u16_frame (fun j => o <= j < o + 2) b1 b5) by (chain_frames || lia).
    rewrite R1. destruct (ps_hp new_stats); [reflexivity | exact V0]. }
  assert (A1 : read_u16 b5 (o + 2) = Ok (default (ps_atk new_stats) v1)).
  { rewrite (read_u16_frame (fun j => o + 2 <= j < o + 4) b2 b5) by (chain_frames || lia).
    rewrite R2. destruct (ps_atk new_stats); [reflexivity|].
    rewrite (read_u16_frame _ _ _ _ F1) by (unfold outside; lia). exact V1. }
  assert (A2 : read_u16 b5 (o + 4) = Ok (default (ps_def new_stats) v2)).
  { rewrite (read_u16_frame (fun j => o + 4 <= j < o + 6) b3 b5) by (chain_frames || lia).
    rewrite R3. destruct (ps_def new_stats); [reflexivity|].
    rewrite (read_u16_frame (fun j => o + 4 <= j < o + 6) b b2) by (chain_frames || lia).
    exact V2. }
  assert (A3 : read_u16 b5 (o + 6) = Ok (default (ps_spe new_stats) v3)).
  { rewrite (read_u16_frame _ _ _ _ F5) by (unfold outside; lia).
    rewrite R4. destruct (ps_spe new_stats); [reflexivity|].
    rewrite (read_u16_frame (fun j => o + 6 <= j < o + 8) b b3) by (chain_frames || lia).
    exact V3. }
  assert (A4 : read_u16 b5 (o + 8) = Ok (default (ps_spc new_stats) v4)).
  { rewrite R5. destruct (ps_spc new_stats); [reflexivity|].
    rewrite (read_u16_frame (fun j => o + 8 <= j < o + 10) b b4) by (chain_frames || lia).
    exact V4. }
  rewrite A0, A1, A2, A3, A4. reflexivity.
Qed.

(** [set_stats] then [stats]: inside the buffer, with every given stat a
    u16, the update succeeds; each given stat reads back, each absent stat
    keeps its old value, and only the ten stat bytes change. *)
Theorem stats_partial_update (L : layout) (b : buffer) (p : Player) (k : Z)
    (new_stats : PartialGen1StatData)
    (Hv : opt_u16 (ps_hp new_stats) /\ opt_u16 (ps_atk new_stats) /\
          opt_u16 (ps_def new_stats) /\ opt_u16 (ps_spe new_stats) /\
          opt_u16 (ps_spc new_stats))
    (Hin : 0 <= pokemon_offset L p k + Pokemon_stats L /\
           pokemon_offset L p k + Pokemon_stats L + 10 <= Z.of_nat (length b)) :
  exists b', set_stats L b p k new_stats = Ok b' /\
    stats L b' p k = (let* old := stats L b p k in Ok (updated_stats new_stats old)) /\
    frame (outside (pokemon_offset L p k + Pokemon_stats L)
                   (pokemon_offset L p k + Pokemon_stats L + 10)) b b'.
Proof.
  destruct Hv as (H1 & H2 & H3 & H4 & H5).
  unfold set_stats, stats. apply write_stats_spec; tauto.
Qed.

Lemma stats_partial_update_witness :
  (opt_u16 (ps_hp (mkPartialStats None (Some 120) None None (Some 300))) /\
   opt_u16 (ps_atk (mkPartialStats None (Some 120) None None (Some 300))) /\
   opt_u16 (ps_def (mkPartialStats None (Some 120) None None (Some 300))) /\
   opt_u16 (ps_spe (mkPartialStats None (Some 120) None None (Some 300))) /\
   opt_u16 (ps_spc (mkPartialStats None (Some 120) None None (Some 300)))) /\
  (0 <= pokemon_offset sample_layout P1 4 + Pokemon_stats sample_layout /\
   pokemon_offset sample_layout P1 4 + Pokemon_stats sample_layout + 10
     <= Z.of_nat (length sample_buffer)) /\
  exists b', set_stats sample_layout sample_buffer P1 4
               (mkPartialStats None (Some 120) None None (Some 300)) = Ok b' /\
    stats sample_layout b' P1 4 =
      (let* old := stats sample_layout sample_buffer P1 4 in
       Ok (updated_stats (mkPartialStats None (Some 120) None None (Some 300)) old)) /\
    frame (outside (pokemon_offset sample_layout P1 4 + Pokemon_stats sample_layout)
                   (pokemon_offset sample_layout P1 4 + Pokemon_stats sample_layout + 10))
      sample_buffer b'.
Proof.
  assert (Hv : opt_u16 (ps_hp (mkPartialStats None (Some 120) None None (Some 300))) /\
               opt_u16 (ps_atk (mkPartialStats None (Some 120) None None (Some 300))) /\
               opt_u16 (ps_def (mkPartialStats None (Some 120) None None (Some 300))) /\
               opt_u16 (ps_spe (mkPartialStats None (Some 120) None None (Some 300))) /\
               opt_u16 (ps_spc (mkPartialStats None (Some 120) None None (Some 300)))).
  { cbn. repeat split; lia. }
  split; [exact Hv|]. split; [closed_arith|].
  apply stats_partial_update; [exact Hv | closed_arith].
Defined.

(** The same for the active Pokémon: [set_active_pokemon_stats] then
    [active_pokemon_stats]. *)
Theorem active_stats_partial_update (L : layout) (LX : layout_ext) (b : buffer) (p : Player)
    (new_stats : PartialGen1StatData)
    (Hv : opt_u16 (ps_hp new_stats) /\ opt_u16 (ps_atk new_stats) /\
          opt_u16 (ps_def new_stats) /\ opt_u16 (ps_spe new_stats) /\
          opt_u16 (ps_spc new_stats))
    (Hin : 0 <= active_offset L p + Active_stats LX /\
           active_offset L p + Active_stats LX + 10 <= Z.of_nat (length b)) :
  exists b', set_active_pokemon_stats L LX b p new_stats = Ok b' /\
    active_pokemon_stats L LX b' p =
      (let* old := active_pokemon_stats L LX b p in Ok (updated_stats new_stats old)) /\
    frame (outside (active_offset L p + Active_stats LX)
                   (active_offset L p + Active_stats LX + 10)) b b'.
Proof.
  destruct Hv as (H1 & H2 & H3 & H4 & H5).
  unfold set_active_pokemon_stats, active_pokemon_stats. apply write_stats_spec; tauto.
Qed.

Lemma active_stats_partial_update_witness :
  (opt_u16 (ps_hp (mkPartialStats (Some 35) None None (Some 90) None)) /\
   opt_u16 (ps_atk (mkPartialStats (Some 35) None None (Some 90) None)) /\
   opt_u16 (ps_def (mkPartialStats (Some 35) None None (Some 90) None)) /\
   opt_u16 (ps_spe (mkPartialStats (Some 35) None None (Some 90) None)) /\
   opt_u16 (ps_spc (mkPartialStats (Some 35) None None (Some 90) None))) /\
  (0 <= active_offset sample_layout P2 + Active_stats sample_layout_ext /\
   active_offset sample_layout P2 + Active_stats sample_layout_ext + 10
     <= Z.of_nat (length sample_buffer)) /\
  exists b', set_active_pokemon_stats sample_layout sample_layout_ext sample_buffer P2
               (mkPartialStats (Some 35) None None (Some 90) None) = Ok b' /\
    active_pokemon_stats sample_layout sample_layout_ext b' P2 =
      (let* old := active_pokemon_stats sample_layout sample_layout_ext sample_buffer P2 in
       Ok (updated_stats (mkPartialStats (Some 35) None None (Some 90) None) old)) /\
    frame (outside (active_offset sample_layout P2 + Active_stats sample_layout_ext)
                   (active_offset sample_layout P2 + Active_stats sample_layout_ext + 10))
      sample_buffer b'.
Proof.
  assert (Hv : opt_u16 (ps_hp (mkPartialStats (Some 35) None None (Some 90) None)) /\
               opt_u16 (ps_atk (mkPartialStats (Some 35) None None (Some 90) None)) /\
               opt_u16 (ps_def (mkPartialStats (Some 35) None None (Some 90) None)) /\
               opt_u16 (ps_spe (mkPartialStats (Some 35) None None (Some 90) None)) /\
               opt_u16 (ps_spc (mkPartialStats (Some 35) None None (Some 90) None))).
  { cbn. repeat split; lia. }
  split; [exact Hv|]. split; [closed_arith|].
  apply active_stats_partial_update; [exact Hv | closed_arith].
Defined.

(** ** Type pairs *)

Lemma list_index_in (l : list string) x : In x l -> exists i, list_index l x = Ok i.
Proof.
  induction l as [|y l IH]; simpl; [tauto|]. intros Hin.
  destruct (String.eqb_spec y x) as [->|Hne]; [eauto|].
  destruct IH as [i Ei]; [destruct Hin; [congruence | assumption]|].
  rewrite Ei. simpl. eauto.
Qed.

(** Packing the [TYPES] indexes of two types and decoding the byte with
    the getters' tuple rule. *)
Lemma pack_types_tuple (T : tables) t0 t1 i0 i1 :
  (length (TYPES T) <= 16)%nat ->
  list_index (TYPES T) t0 = Ok i0 -> list_index (TYPES T) t1 = Ok i1 ->
  0 <= pack_two_u4s i0 i1 < 256 /\
  types_tuple T (pack_two_u4s i0 i1) = Ok (if String.eqb t0 t1 then [t0] else [t0; t1]).
Proof.
  intros Hlen E0 E1.
  destruct (list_index_spec _ _ _ E0) as [Hi0 L0].
  destruct (list_index_spec _ _ _ E1) as [Hi1 L1].
  pose proof (lookup_lt_Some _ _ _ L0). pose proof (lookup_lt_Some _ _ _ L1).
  destruct (pack_unpack_two_u4s i0 i1) as [U R]; [lia|lia|].
  split; [exact R|]. unfold types_tuple. rewrite U.
  destruct (String.eqb_spec t0 t1) as [<-|Hne].
  - rewrite E0 in E1. injection E1 as <-. rewrite Z.eqb_refl. simpl.
    rewrite (py_index_of_lookup _ _ _ Hi0 L0). reflexivity.
  - destruct (Z.eqb_spec i1 i0) as [->|Hne'].
    + rewrite L0 in L1. congruence.
    + simpl. rewrite (py_index_of_lookup _ _ _ Hi0 L0), (py_index_of_lookup _ _ _ Hi1 L1).
      reflexivity.
Qed.

(** [set_types] then [types]: for two types of [TYPES] (at most 16 of
    them) the pair reads back, collapsed to one type when both are equal;
    only the type byte changes.  A one-type tuple is not accepted by
    [set_types]: it raises [IndexError]. *)
Theorem types_roundtrip (L : layout) (T : tables) (b : buffer) (p : Player) (k : Z)
    (t0 t1 : string)
    (Htypes : In t0 (TYPES T) /\ In t1 (TYPES T)) (Hlen : (length (TYPES T) <= 16)%nat)
    (Hin : 0 <= pokemon_offset L p k + Pokemon_types L < Z.of_nat (length b)) :
  (exists b', set_types L T b p k [t0; t1] = Ok b' /\
     types L T b' p k = Ok (if String.eqb t0 t1 then [t0] else [t0; t1]) /\
     frame (fun j => j <> pokemon_offset L p k + Pokemon_types L) b b') /\
  set_types L T b p k [t0] = Raise IndexError.
Proof.
  destruct Htypes as [H0 H1].
  destruct (list_index_in _ _ H0) as [i0 E0]. destruct (list_index_in _ _ H1) as [i1 E1].
  destruct (pack_types_tuple T t0 t1 i0 i1 Hlen E0 E1) as [R Tup].
  unfold set_types, types. split.
  - simpl. rewrite E0. simpl. rewrite E1. simpl.
    destruct (write_byte b (pokemon_offset L p k + Pokemon_types L) _ R ltac:(lia) ltac:(lia))
      as (b' & E & G & F).
    exists b'. split; [exact E|]. split; [|exact F]. rewrite G. exact Tup.
  - simpl. rewrite E0. reflexivity.
Qed.

Lemma types_roundtrip_witness :
  (In "Electric" (TYPES sample_tables) /\ In "Normal" (TYPES sample_tables)) /\
  (length (TYPES sample_tables) <= 16)%nat /\
  0 <= pokemon_offset sample_layout P2 2 + Pokemon_types sample_layout <
    Z.of_nat (length sample_buffer) /\
  ((exists b', set_types sample_layout sample_tables sample_buffer P2 2 ["Electric"; "Normal"]
                 = Ok b' /\
     types sample_layout sample_tables b' P2 2 =
       Ok (if String.eqb "Electric" "Normal" then ["Electric"] else ["Electric"; "Normal"]) /\
     frame (fun j => j <> pokemon_offset sample_layout P2 2 + Pokemon_types sample_layout)
       sample_buffer b') /\
   set_types sample_layout sample_tables sample_buffer P2 2 ["Electric"] = Raise IndexError).
Proof.
  assert (Ht : In "Electric" (TYPES sample_tables) /\ In "Normal" (TYPES sample_tables)).
  { cbn. split; tauto. }
  assert (Hl : (length (TYPES sample_tables) <= 16)%nat) by (apply Nat.leb_le; vm_compute; reflexivity).
  split; [exact Ht|]. split; [exact Hl|]. split; [closed_arith|].
  apply types_roundtrip; [exact Ht | exact Hl | closed_arith].
Defined.

(** [set_active_pokemon_types] then [active_pokemon_types]: a pair of
    types reads back as for [set_types]; a tuple of any other length
    stores its first type twice, so the getter returns that one type and
    the other entries are ignored; an empty tuple raises [IndexError]. *)
Theorem active_types_by_length (L : layout) (T : tables) (b : buffer) (p : Player)
    (t0 : string) (rest : list string)
    (H0 : In t0 (TYPES T)) (Hlen : (length (TYPES T) <= 16)%nat)
    (Hin : 0 <= active_offset L p + Active_types L < Z.of_nat (length b)) :
  (forall t1, rest = [t1] -> In t1 (TYPES T) ->
   exists b', set_active_pokemon_types L T b p (t0 :: rest) = Ok b' /\
     active_pokemon_types L T b' p = Ok (if String.eqb t0 t1 then [t0] else [t0; t1])) /\
  ((length rest <> 1)%nat ->
   exists b', set_active_pokemon_types L T b p (t0 :: rest) = Ok b' /\
     active_pokemon_types L T b' p = Ok [t0]) /\
  set_active_pokemon_types L T b p [] = Raise IndexError.
Proof.
  destruct (list_index_in _ _ H0) as [i0 E0].
  unfold set_active_pokemon_types, active_pokemon_types. split; [|split].
  - intros t1 -> H1. destruct (list_index_in _ _ H1) as [i1 E1].
    destruct (pack_types_tuple T t0 t1 i0 i1 Hlen E0 E1) as [R Tup].
    simpl. rewrite E0. simpl. rewrite E1. simpl.
    destruct (write_byte b (active_offset L p + Active_types L) _ R ltac:(lia) ltac:(lia))
      as (b' & E & G & F).
    exists b'. split; [exact E|]. rewrite G. exact Tup.
  - intros Hr.
    destruct (pack_types_tuple T t0 t0 i0 i0 Hlen E0 E0) as [R Tup].
    rewrite String.eqb_refl in Tup.
    assert (Hsel : (length (t0 :: rest) =? 2)%nat = false) by (apply Nat.eqb_neq; simpl; lia).
    cbv zeta. rewrite Hsel. simpl. rewrite E0. simpl.
    destruct (write_byte b (active_offset L p + Active_types L) _ R ltac:(lia) ltac:(lia))
      as (b' & E & G & F).
    exists b'. split; [exact E|]. rewrite G. exact Tup.
  - reflexivity.
Qed.

Lemma active_types_by_length_witness :
  In "Electric" (TYPES sample_tables) /\ (length (TYPES sample_tables) <= 16)%nat /\
  0 <= active_offset sample_layout P1 + Active_types sample_layout <
    Z.of_nat (length sample_buffer) /\
  ((forall t1, ["Normal"; "Fire"] = [t1] -> In t1 (TYPES sample_tables) ->
    exists b', set_active_pokemon_types sample_layout sample_tables sample_buffer P1
                 ["Electric"; "Normal"; "Fire"] = Ok b' /\
      active_pokemon_types sample_layout sample_tables b' P1 =
        Ok (if String.eqb "Electric" t1 then ["Electric"] else ["Electric"; t1])) /\
   ((length ["Normal"; "Fire"] <> 1)%nat ->
    exists b', set_active_pokemon_types sample_layout sample_tables sample_buffer P1
                 ["Electric"; "Normal"; "Fire"] = Ok b' /\
      active_pokemon_types sample_layout sample_tables b' P1 = Ok ["Electric"]) /\
   set_active_pokemon_types sample_layout sample_tables sample_buffer P1 [] = Raise IndexError).
Proof.
  assert (Ht : In "Electric" (TYPES sample_tables)) by (cbn; tauto).
  assert (Hl : (length (TYPES sample_tables) <= 16)%nat)
    by (apply Nat.leb_le; vm_compute; reflexivity).
  split; [exact Ht|]. split; [exact Hl|]. split; [closed_arith|].
  apply active_types_by_length; [exact Ht | exact Hl | closed_arith].
Defined.

(** ** Bit fields of the volatiles *)

Lemma land_ones_small n l : 0 <= l -> 0 <= n < 2 ^ l -> Z.land n (Z.ones l) = n.
Proof. intros Hl Hn. rewrite Z.land_ones by lia. apply Z.mod_small. lia. Qed.

Lemma write_bits_spec b bo bi l n :
  byte_buffer b -> 0 <= bo < Z.of_nat (length b) -> 0 <= bi -> 0 <= l -> bi + l <= 8 ->
  0 <= n < 2 ^ l ->
  exists b', write_bits b bo bi l n = Ok b' /\ byte_buffer b' /\
    read_bits b' bo bi l = Ok n /\ frame (fun j => j <> bo) b b' /\
    (forall bi2 l2, 0 <= bi2 -> 0 <= l2 -> (bi2 + l2 <= bi \/ bi + l <= bi2) ->
       read_bits b' bo bi2 l2 = read_bits b bo bi2 l2).
Proof.
  intros Hb Hbo Hbi Hl Hfit Hn.
  destruct (get_byte_in_range b bo ltac:(lia) ltac:(lia)) as (byte & Lk & G).
  pose proof (byte_buffer_lookup _ _ _ Hb Lk) as Hbyte.
  pose proof (insert_byte_range byte n bi l Hbyte Hbi Hl Hfit) as Hr.
  destruct (write_byte b bo _ Hr ltac:(lia) ltac:(lia)) as (b' & E & G' & F).
  exists b'. unfold write_bits, read_bits. rewrite G. simpl. split; [exact E|].
  apply set_byte_inv in E as (_ & _ & _ & Eb).
  split; [subst b'; apply Forall_insert; assumption|].
  rewrite G'. simpl. split.
  - rewrite insert_extract_same by lia. rewrite land_ones_small by lia. reflexivity.
  - split; [exact F|]. intros bi2 l2 H1 H2 H3. simpl.
    rewrite insert_extract_other by lia. reflexivity.
Qed.

(** Writing one bit field leaves every disjoint bit field of the
    volatiles as it was, in the same byte or another one. *)
Lemma volatile_field_write L p b bit1 l1 bit2 l2 n :
  byte_buffer b -> field_fits bit1 l1 -> field_fits bit2 l2 -> field_in_buffer L p bit1 b ->
  fields_disjoint bit1 l1 bit2 l2 -> 0 <= n < 2 ^ l1 ->
  exists b', write_bits b (fst (volatile_field_pos L p bit1)) (snd (volatile_field_pos L p bit1))
               l1 n = Ok b' /\ byte_buffer b' /\
    read_bits b' (fst (volatile_field_pos L p bit1)) (snd (volatile_field_pos L p bit1)) l1 = Ok n /\
    frame (fun j => j <> fst (volatile_field_pos L p bit1)) b b' /\
    read_bits b' (fst (volatile_field_pos L p bit2)) (snd (volatile_field_pos L p bit2)) l2 =
    read_bits b (fst (volatile_field_pos L p bit2)) (snd (volatile_field_pos L p bit2)) l2.
Proof.
  intros Hb (F1a & F1b & F1c) (F2a & F2b & F2c) Hin Hd Hn.
  unfold volatile_field_pos, field_in_buffer in *. simpl fst in *. simpl snd in *.
  pose proof (Z.mod_pos_bound bit1 8 ltac:(lia)).
  pose proof (Z.mod_pos_bound bit2 8 ltac:(lia)).
  destruct (write_bits_spec b _ (bit1 mod 8) l1 n Hb Hin ltac:(lia) F1b ltac:(lia) Hn)
    as (b' & E & Hb' & R & F & O).
  exists b'. split; [exact E|]. split; [exact Hb'|]. split; [exact R|]. split; [exact F|].
  destruct (Z.eq_dec (bit1 / 8) (bit2 / 8)) as [Eq|Ne].
  - rewrite <- Eq. apply O; [lia | lia |].
    pose proof (Z.div_mod bit1 8 ltac:(lia)). pose proof (Z.div_mod bit2 8 ltac:(lia)).
    unfold fields_disjoint in Hd. lia.
  - unfold read_bits. rewrite (get_byte_frame _ _ _ _ F); [reflexivity|].
    intros Heq. apply Ne. lia.
Qed.

(** [set_confusion_turns_left] and [set_attacks_left] with a counter in
    [0, 8): the counter reads back, and the other counter, a disjoint
    field of the volatiles, is unchanged. *)
Theorem counters_roundtrip (L : layout) (b : buffer) (p : Player) (n : Z)
    (Hb : byte_buffer b) (Hn : 0 <= n < 8)
    (Hfc : field_fits (Vol_confusion L) 3) (Hfa : field_fits (Vol_attacks L) 3)
    (Hd : fields_disjoint (Vol_confusion L) 3 (Vol_attacks L) 3)
    (Hic : field_in_buffer L p (Vol_confusion L) b) (Hia : field_in_buffer L p (Vol_attacks L) b) :
  (exists b', set_confusion_turns_left L b p n = Ok b' /\
     confusion_turns_left L b' p = Ok n /\ attacks_left L b' p = attacks_left L b p) /\
  (exists b', set_attacks_left L b p n = Ok b' /\
     attacks_left L b' p = Ok n /\ confusion_turns_left L b' p = confusion_turns_left L b p).
Proof.
  assert (A : (n <=? 2 ^ 3) && (n >=? 0) = true).
  { apply andb_true_iff. split; [apply Z.leb_le | apply Z.geb_le]; simpl; lia. }
  unfold set_confusion_turns_left, set_attacks_left, py_assert. rewrite A. split.
  - destruct (volatile_field_write L p b _ _ _ _ n Hb Hfc Hfa Hic Hd ltac:(simpl; lia))
      as (b' & E & _ & R & _ & O).
    exists b'. split; [exact E|]. split; [exact R | exact O].
  - assert (Hd' : fields_disjoint (Vol_attacks L) 3 (Vol_confusion L) 3)
      by (unfold fields_disjoint in *; lia).
    destruct (volatile_field_write L p b _ _ _ _ n Hb Hfa Hfc Hia Hd' ltac:(simpl; lia))
      as (b' & E & _ & R & _ & O).
    exists b'. split; [exact E|]. split; [exact R | exact O].
Qed.

Lemma counters_roundtrip_witness :
  byte_buffer sample_buffer /\ 0 <= 5 < 8 /\
  field_fits (Vol_confusion sample_layout) 3 /\ field_fits (Vol_attacks sample_layout) 3 /\
  fields_disjoint (Vol_confusion sample_layout) 3 (Vol_attacks sample_layout) 3 /\
  field_in_buffer sample_layout P2 (Vol_confusion sample_layout) sample_buffer /\
  field_in_buffer sample_layout P2 (Vol_attacks sample_layout) sample_buffer /\
  (exists b', set_confusion_turns_left sample_layout sample_buffer P2 5 = Ok b' /\
     confusion_turns_left sample_layout b' P2 = Ok 5 /\
     attacks_left sample_layout b' P2 = attacks_left sample_layout sample_buffer P2) /\
  (exists b', set_attacks_left sample_layout sample_buffer P2 5 = Ok b' /\
     attacks_left sample_layout b' P2 = Ok 5 /\
     confusion_turns_left sample_layout b' P2 = confusion_turns_left sample_layout sample_buffer P2).
Proof.
  split; [exact sample_buffer_bytes|]. split; [lia|].
  do 5 (split; [closed_arith|]).
  apply counters_roundtrip; first [exact sample_buffer_bytes | closed_arith].
Defined.

Lemma toxic_severity_bits L LX b p :
  toxic_severity L LX b p =
  read_bits b (fst (volatile_field_pos L p (Vol_toxic LX)))
    (snd (volatile_field_pos L p (Vol_toxic LX))) 5.
Proof. reflexivity. Qed.

Lemma set_toxic_severity_bits L LX b p n :
  set_toxic_severity L LX b p n =
  write_bits b (fst (volatile_field_pos L p (Vol_toxic LX)))
    (snd (volatile_field_pos L p (Vol_toxic LX))) 5 n.
Proof. reflexivity. Qed.

(** [disable_data] reads the duration field, then the move field. *)
Lemma disable_data_bits L LX b p :
  disable_data L LX b p =
  let* d := read_bits b (fst (volatile_field_pos L p (Vol_disabled_duration LX)))
              (snd (volatile_field_pos L p (Vol_disabled_duration LX))) 4 in
  let* m := read_bits b (fst (volatile_field_pos L p (Vol_disabled_move LX)))
              (snd (volatile_field_pos L p (Vol_disabled_move LX))) 3 in
  Ok (mkDisableData m d).
Proof.
  unfold disable_data, read_bits. simpl.
  destruct (get_byte b _); simpl; [|reflexivity].
  destruct (get_byte b _); reflexivity.
Qed.

(** [set_disable_data] writes the duration field, then the move field
    into the updated buffer. *)
Lemma set_disable_data_bits L LX b p dd :
  set_disable_data L LX b p dd =
  let* b := write_bits b (fst (volatile_field_pos L p (Vol_disabled_duration LX)))
              (snd (volatile_field_pos L p (Vol_disabled_duration LX))) 4 (turns_left dd) in
  write_bits b (fst (volatile_field_pos L p (Vol_disabled_move LX)))
    (snd (volatile_field_pos L p (Vol_disabled_move LX))) 3 (move_slot_of dd).
Proof.
  unfold set_disable_data, write_bits. simpl.
  destruct (get_byte b _); simpl; reflexivity.
Qed.

Lemma write_bits_det b bo bi l n b1 b2 :
  write_bits b bo bi l n = Ok b1 -> write_bits b bo bi l n = Ok b2 -> b1 = b2.
Proof. congruence. Qed.

Lemma field_in_buffer_frame L p bit b b' keep :
  frame keep b b' -> field_in_buffer L p bit b -> field_in_buffer L p bit b'.
Proof. intros [Hl _]. unfold field_in_buffer. rewrite Hl. tauto. Qed.

(** [set_toxic_severity] then [toxic_severity]: a counter in [0, 32)
    reads back, and the Disable data, in fields disjoint from the Toxic
    counter, is unchanged. *)
Theorem toxic_roundtrip (L : layout) (LX : layout_ext) (b : buffer) (p : Player) (n : Z)
    (Hb : byte_buffer b) (Hn : 0 <= n < 32)
    (Hft : field_fits (Vol_toxic LX) 5) (Hfd : field_fits (Vol_disabled_duration LX) 4)
    (Hfm : field_fits (Vol_disabled_move LX) 3)
    (Hdd : fields_disjoint (Vol_toxic LX) 5 (Vol_disabled_duration LX) 4)
    (Hdm : fields_disjoint (Vol_toxic LX) 5 (Vol_disabled_move LX) 3)
    (Hin : field_in_buffer L p (Vol_toxic LX) b) :
  exists b', set_toxic_severity L LX b p n = Ok b' /\ toxic_severity L LX b' p = Ok n /\
    disable_data L LX b' p = disable_data L LX b p.
Proof.
  destruct (volatile_field_write L p b _ _ _ _ n Hb Hft Hfd Hin Hdd ltac:(simpl; lia))
    as (b1 & E1 & _ & R & _ & O1).
  destruct (volatile_field_write L p b _ _ _ _ n Hb Hft Hfm Hin Hdm ltac:(simpl; lia))
    as (b2 & E2 & _ & _ & _ & O2).
  pose proof (write_bits_det _ _ _ _ _ _ _ E1 E2) as <-.
  exists b1. rewrite set_toxic_severity_bits, toxic_severity_bits, !disable_data_bits.
  split; [exact E1|]. split; [exact R|]. rewrite O1, O2. reflexivity.
Qed.

Lemma toxic_roundtrip_witness :
  byte_buffer sample_buffer /\ 0 <= 9 < 32 /\
  field_fits (Vol_toxic sample_layout_ext) 5 /\
  field_fits (Vol_disabled_duration sample_layout_ext) 4 /\
  field_fits (Vol_disabled_move sample_layout_ext) 3 /\
  fields_disjoint (Vol_toxic sample_layout_ext) 5 (Vol_disabled_duration sample_layout_ext) 4 /\
  fields_disjoint (Vol_toxic sample_layout_ext) 5 (Vol_disabled_move sample_layout_ext) 3 /\
  field_in_buffer sample_layout P1 (Vol_toxic sample_layout_ext) sample_buffer /\
  exists b', set_toxic_severity sample_layout sample_layout_ext sample_buffer P1 9 = Ok b' /\
    toxic_severity sample_layout sample_layout_ext b' P1 = Ok 9 /\
    disable_data sample_layout sample_layout_ext b' P1 =
      disable_data sample_layout sample_layout_ext sample_buffer P1.
Proof.
  split; [exact sample_buffer_bytes|]. split; [lia|].
  do 6 (split; [closed_arith|]).
  apply toxic_roundtrip; first [exact sample_buffer_bytes | closed_arith].
Defined.

(** [set_disable_data] then [disable_data]: with a move slot in [0, 8)
    and a duration in [0, 16), in two disjoint fields, the data reads
    back, and the Toxic counter, in a field disjoint from both, is
    unchanged. *)
Theorem disable_data_roundtrip (L : layout) (LX : layout_ext) (b : buffer) (p : Player)
    (dd : DisableData) (Hb : byte_buffer b)
    (Hm : 0 <= move_slot_of dd < 8) (Ht : 0 <= turns_left dd < 16)
    (Hft : field_fits (Vol_toxic LX) 5) (Hfd : field_fits (Vol_disabled_duration LX) 4)
    (Hfm : field_fits (Vol_disabled_move LX) 3)
    (Hdm : fields_disjoint (Vol_disabled_duration LX) 4 (Vol_disabled_move LX) 3)
    (Htd : fields_disjoint (Vol_toxic LX) 5 (Vol_disabled_duration LX) 4)
    (Htm : fields_disjoint (Vol_toxic LX) 5 (Vol_disabled_move LX) 3)
    (Hind : field_in_buffer L p (Vol_disabled_duration LX) b)
    (Hinm : field_in_buffer L p (Vol_disabled_move LX) b) :
  exists b', set_disable_data L LX b p dd = Ok b' /\ disable_data L LX b' p = Ok dd /\
    toxic_severity L LX b' p = toxic_severity L LX b p.
Proof.
  unfold fields_disjoint in *.
  destruct (volatile_field_write L p b _ _ _ _ (turns_left dd) Hb Hfd Hfm Hind
              ltac:(unfold fields_disjoint; lia) ltac:(simpl; lia))
    as (b1 & E1 & Hb1 & R1 & F1 & O1).
  destruct (volatile_field_write L p b _ _ _ _ (turns_left dd) Hb Hfd Hft Hind
              ltac:(unfold fields_disjoint; lia) ltac:(simpl; lia))
    as (b1' & E1' & _ & _ & _ & T1).
  pose proof (write_bits_det _ _ _ _ _ _ _ E1 E1') as <-.
  pose proof (field_in_buffer_frame _ _ _ _ _ _ F1 Hinm) as Hinm1.
  destruct (volatile_field_write L p b1 _ _ _ _ (move_slot_of dd) Hb1 Hfm Hfd Hinm1
              ltac:(unfold fields_disjoint; lia) ltac:(simpl; lia))
    as (b2 & E2 & _ & R2 & _ & O2).
  destruct (volatile_field_write L p b1 _ _ _ _ (move_slot_of dd) Hb1 Hfm Hft Hinm1
              ltac:(unfold fields_disjoint; lia) ltac:(simpl; lia))
    as (b2' & E2' & _ & _ & _ & T2).
  pose proof (write_bits_det _ _ _ _ _ _ _ E2 E2') as <-.
  exists b2. rewrite set_disable_data_bits, disable_data_bits, !toxic_severity_bits.
  rewrite E1. split; [exact E2|]. split.
  - rewrite O2, R1. cbn [exc_bind]. rewrite R2. cbn [exc_bind]. destruct dd. reflexivity.
  - rewrite T2, T1. reflexivity.
Qed.

Lemma disable_data_roundtrip_witness :
  byte_buffer sample_buffer /\
  0 <= move_slot_of (mkDisableData 2 5) < 8 /\ 0 <= turns_left (mkDisableData 2 5) < 16 /\
  field_fits (Vol_toxic sample_layout_ext) 5 /\
  field_fits (Vol_disabled_duration sample_layout_ext) 4 /\
  field_fits (Vol_disabled_move sample_layout_ext) 3 /\
  fields_disjoint (Vol_disabled_duration sample_layout_ext) 4
    (Vol_disabled_move sample_layout_ext) 3 /\
  fields_disjoint (Vol_toxic sample_layout_ext) 5 (Vol_disabled_duration sample_layout_ext) 4 /\
  fields_disjoint (Vol_toxic sample_layout_ext) 5 (Vol_disabled_move sample_layout_ext) 3 /\
  field_in_buffer sample_layout P2 (Vol_disabled_duration sample_layout_ext) sample_buffer /\
  field_in_buffer sample_layout P2 (Vol_disabled_move sample_layout_ext) sample_buffer /\
  exists b', set_disable_data sample_layout sample_layout_ext sample_buffer P2
               (mkDisableData 2 5) = Ok b' /\
    disable_data sample_layout sample_layout_ext b' P2 = Ok (mkDisableData 2 5) /\
    toxic_severity sample_layout sample_layout_ext b' P2 =
      toxic_severity sample_layout sample_layout_ext sample_buffer P2.
Proof.
  split; [exact sample_buffer_bytes|].
  do 10 (split; [closed_arith|]).
  apply disable_data_roundtrip; first [exact sample_buffer_bytes | closed_arith].
Defined.

(** ** The byte-aligned volatile fields *)

(** [set_volatile_state] then [volatile_state]: when the state field is
    byte-aligned, a u16 reads back and only its two bytes change. *)
Theorem volatile_state_roundtrip (L : layout) (LX : layout_ext) (b : buffer) (p : Player)
    (v : Z) (Hal : Vol_state LX mod 8 = 0) (Hv : 0 <= v < 65536)
    (Hin : 0 <= aligned_volatile_offset L p (Vol_state LX) /\
           aligned_volatile_offset L p (Vol_state LX) + 2 <= Z.of_nat (length b)) :
  exists b', set_volatile_state L LX b p v = Ok b' /\ volatile_state L LX b' p = Ok v /\
    frame (outside (aligned_volatile_offset L p (Vol_state LX))
                   (aligned_volatile_offset L p (Vol_state LX) + 2)) b b'.
Proof.
  unfold set_volatile_state, volatile_state, py_assert. rewrite Hal. simpl.
  apply write_u16; [exact Hv | apply Hin | apply Hin].
Qed.

Lemma volatile_state_roundtrip_witness :
  Vol_state sample_layout_ext mod 8 = 0 /\ 0 <= 1000 < 65536 /\
  (0 <= aligned_volatile_offset sample_layout P1 (Vol_state sample_layout_ext) /\
   aligned_volatile_offset sample_layout P1 (Vol_state sample_layout_ext) + 2
     <= Z.of_nat (length sample_buffer)) /\
  exists b', set_volatile_state sample_layout sample_layout_ext sample_buffer P1 1000 = Ok b' /\
    volatile_state sample_layout sample_layout_ext b' P1 = Ok 1000 /\
    frame (outside (aligned_volatile_offset sample_layout P1 (Vol_state sample_layout_ext))
                   (aligned_volatile_offset sample_layout P1 (Vol_state sample_layout_ext) + 2))
      sample_buffer b'.
Proof.
  assert (Hal : Vol_state sample_layout_ext mod 8 = 0) by reflexivity.
  split; [exact Hal|]. split; [lia|]. split; [unfold aligned_volatile_offset; closed_arith|].
  apply volatile_state_roundtrip; [exact Hal | lia | unfold aligned_volatile_offset; closed_arith].
Defined.

(** [set_substitute_hp] then [substitute_hp]: when the substitute field
    is byte-aligned, a value in [0, 256) reads back and only its byte
    changes; any other value raises [OverflowError]. *)
Theorem substitute_hp_roundtrip (L : layout) (LX : layout_ext) (b : buffer) (p : Player)
    (hp : Z) (Hal : Vol_substitute LX mod 8 = 0)
    (Hin : 0 <= aligned_volatile_offset L p (Vol_substitute LX) < Z.of_nat (length b)) :
  (0 <= hp < 256 ->
   exists b', set_substitute_hp L LX b p hp = Ok b' /\ substitute_hp L LX b' p = Ok hp /\
     frame (fun j => j <> aligned_volatile_offset L p (Vol_substitute LX)) b b') /\
  (~ (0 <= hp < 256) -> set_substitute_hp L LX b p hp = Raise OverflowError).
Proof.
  unfold set_substitute_hp, substitute_hp, py_assert. rewrite Hal. simpl. split.
  - intros Hv. apply write_byte; lia.
  - intros Hv. apply set_byte_overflow; [lia | lia | exact Hv].
Qed.

Lemma substitute_hp_roundtrip_witness :
  Vol_substitute sample_layout_ext mod 8 = 0 /\
  0 <= aligned_volatile_offset sample_layout P2 (Vol_substitute sample_layout_ext) <
    Z.of_nat (length sample_buffer) /\
  (0 <= 40 < 256 ->
   exists b', set_substitute_hp sample_layout sample_layout_ext sample_buffer P2 40 = Ok b' /\
     substitute_hp sample_layout sample_layout_ext b' P2 = Ok 40 /\
     frame (fun j => j <> aligned_volatile_offset sample_layout P2
                            (Vol_substitute sample_layout_ext)) sample_buffer b') /\
  (~ (0 <= 40 < 256) ->
   set_substitute_hp sample_layout sample_layout_ext sample_buffer P2 40 = Raise OverflowError).
Proof.
  assert (Hal : Vol_substitute sample_layout_ext mod 8 = 0) by reflexivity.
  split; [exact Hal|]. split; [unfold aligned_volatile_offset; closed_arith|].
  apply substitute_hp_roundtrip; [exact Hal | unfold aligned_volatile_offset; closed_arith].
Defined.

(** The alignment assertions: with a state field that is not
    byte-aligned, [volatile_state] raises [AssertionError] on every
    buffer while [set_volatile_state], which has no assertion, still
    writes the u16 at the byte [state // 8]; with a substitute field that
    is not byte-aligned, both [substitute_hp] and [set_substitute_hp]
    raise [AssertionError]. *)
Theorem volatile_alignment_asserts (L : layout) (LX : layout_ext) (b : buffer) (p : Player)
    (v hp : Z) (Hv : 0 <= v < 65536)
    (Hin : 0 <= aligned_volatile_offset L p (Vol_state LX) /\
           aligned_volatile_offset L p (Vol_state LX) + 2 <= Z.of_nat (length b)) :
  (Vol_state LX mod 8 <> 0 ->
   volatile_state L LX b p = Raise AssertionError /\
   exists b', set_volatile_state L LX b p v = Ok b' /\
     read_u16 b' (aligned_volatile_offset L p (Vol_state LX)) = Ok v) /\
  (Vol_substitute LX mod 8 <> 0 ->
   substitute_hp L LX b p = Raise AssertionError /\
   set_substitute_hp L LX b p hp = Raise AssertionError).
Proof.
  split.
  - intros Hmis. unfold volatile_state, set_volatile_state, py_assert.
    rewrite (proj2 (Z.eqb_neq _ _) Hmis). split; [reflexivity|].
    destruct (write_u16 b _ v Hv (proj1 Hin) (proj2 Hin)) as (b' & E & R & _). eauto.
  - intros Hmis. unfold substitute_hp, set_substitute_hp, py_assert.
    rewrite (proj2 (Z.eqb_neq _ _) Hmis). split; reflexivity.
Qed.

(** A layout whose state and substitute fields are not byte-aligned. *)
Definition misaligned_layout_ext : layout_ext := {|
  Battle_last_damage := 370; Battle_last_selected_indexes := 372;
  Pokemon_hp := 18; Pokemon_status := 20; Pokemon_level := 23;
  Active_stats := 0; Active_species := 10;
  Vol_state := 25; Vol_substitute := 41; Vol_disabled_duration := 52;
  Vol_disabled_move := 56; Vol_toxic := 59
|}.

Lemma volatile_alignment_asserts_witness :
  0 <= 1000 < 65536 /\
  (0 <= aligned_volatile_offset sample_layout P1 (Vol_state misaligned_layout_ext) /\
   aligned_volatile_offset sample_layout P1 (Vol_state misaligned_layout_ext) + 2
     <= Z.of_nat (length sample_buffer)) /\
  (Vol_state misaligned_layout_ext mod 8 <> 0 ->
   volatile_state sample_layout misaligned_layout_ext sample_buffer P1 = Raise AssertionError /\
   exists b', set_volatile_state sample_layout misaligned_layout_ext sample_buffer P1 1000 = Ok b' /\
     read_u16 b' (aligned_volatile_offset sample_layout P1 (Vol_state misaligned_layout_ext))
     = Ok 1000) /\
  (Vol_substitute misaligned_layout_ext mod 8 <> 0 ->
   substitute_hp sample_layout misaligned_layout_ext sample_buffer P1 = Raise AssertionError /\
   set_substitute_hp sample_layout misaligned_layout_ext sample_buffer P1 7 = Raise AssertionError).
Proof.
  split; [lia|]. split; [unfold aligned_volatile_offset; closed_arith|].
  apply volatile_alignment_asserts; [lia | unfold aligned_volatile_offset; closed_arith].
Defined.

(** ** The three move readers *)




(** The entries of a moveset that the readers report: those whose move
    id is not 0. *)
Definition present_moves (T : tables) (l : list (string * Z)) : list (string * Z) :=
  List.filter (fun mq => match MOVE_IDS T (fst mq) with
                         | Some id => negb (id =? 0)
                         | None => true
                         end) l.

(** A valid moveset entry: its move has an id in [0, 256) that the id
    lookup maps back (when not 0), and its pp is in [0, 256). *)
Definition valid_move_entry (T : tables) (K : id_lookups) (mq : string * Z) : Prop :=
  exists id, MOVE_IDS T (fst mq) = Some id /\ 0 <= id < 256 /\ 0 <= snd mq < 256 /\
    (id <> 0 -> MOVE_ID_LOOKUP K id = Ok (fst mq)).

Lemma write_moves_spec T K b off i l :
  Forall (valid_move_entry T K) l ->
  0 <= off + i * 2 -> off + i * 2 + 2 * Z.of_nat (length l) <= Z.of_nat (length b) ->
  exists b', write_moves T b off i l = Ok b' /\
    frame (outside (off + i * 2) (off + i * 2 + 2 * Z.of_nat (length l))) b b' /\
    forall k mq, l !! k = Some mq ->
      exists id, MOVE_IDS T (fst mq) = Some id /\
        get_byte b' (off + (i + Z.of_nat k) * 2) = Ok id /\
        get_byte b' (off + (i + Z.of_nat k) * 2 + 1) = Ok (snd mq).
Proof.
  revert b i. induction l as [|[m q] l IH]; intros b i Hv Ho Hl; simpl.
  - exists b. split; [reflexivity|]. split; [apply frame_refl|]. intros k mq Hk. discriminate.
  - inversion Hv as [|? ? Hx Hv']; subst.
    destruct Hx as (id & Hid & Hr & Hq & _). simpl in Hid, Hq.
    unfold dict_get. rewrite Hid. simpl.
    simpl length in Hl.
    destruct (write_byte b (off + i * 2) id Hr ltac:(lia) ltac:(lia)) as (b1 & E1 & G1 & F1).
    pose proof (frame_length _ _ _ F1) as L1.
    destruct (write_byte b1 (off + i * 2 + 1) q Hq ltac:(lia) ltac:(lia)) as (b2 & E2 & G2 & F2).
    pose proof (frame_length _ _ _ F2) as L2.
    destruct (IH b2 (i + 1) Hv' ltac:(lia) ltac:(lia)) as (b' & E & F & R).
    exists b'. rewrite E1. simpl. rewrite E2. simpl. split; [exact E|].
    split; [chain_frames|].
    intros [|k] mq Hk; simpl in Hk.
    + injection Hk as <-. exists id. simpl. split; [exact Hid|].
      change (Z.of_nat 0) with 0. replace (off + (i + 0) * 2) with (off + i * 2) by lia.
      rewrite (get_byte_frame _ _ _ _ F) by (unfold outside; lia).
      rewrite (get_byte_frame _ _ _ _ F2) by lia. split; [exact G1|].
      rewrite (get_byte_frame _ _ _ _ F) by (unfold outside; lia). exact G2.
    + destruct (R k mq Hk) as (id' & H1 & H2 & H3). exists id'.
      replace (i + Z.of_nat (S k)) with (i + 1 + Z.of_nat k) by lia. auto.
Qed.

Lemma readers_of_slots T K b off ns l :
  Forall2 (fun n mq => exists id, MOVE_IDS T (fst mq) = Some id /\
             get_byte b (off + n) = Ok id /\ get_byte b (off + n + 1) = Ok (snd mq) /\
             (id <> 0 -> MOVE_ID_LOOKUP K id = Ok (fst mq))) ns l ->
  moves_from K b off ns = Ok (map fst (present_moves T l)) /\
  pp_from b off (map (fun n => n + 1) ns) = Ok (map snd (present_moves T l)) /\
  moves_with_pp_from K b off ns = Ok (present_moves T l).
Proof.
  induction 1 as [|n mq ns l (id & Hid & G & P & Lk) _ IH]; [auto|].
  destruct IH as (IH1 & IH2 & IH3). unfold present_moves in *. simpl.
  replace (off + (n + 1) - 1) with (off + n) by lia.
  replace (off + (n + 1)) with (off + n + 1) by lia.
  rewrite G, Hid. simpl.
  destruct (Z.eqb_spec id 0) as [->|Hne]; simpl; [auto|].
  rewrite (Lk Hne). simpl. rewrite P. simpl.
  rewrite IH1, IH2, IH3. simpl. destruct mq. auto.
Qed.

(** [set_moves] then the move readers: after writing four valid
    (move, pp) entries into the slots inside the buffer, [moves] returns
    the moves whose id is not 0, [pp_left] their pp, and [moves_with_pp]
    those entries; only the eight move bytes change. *)
Theorem set_moves_roundtrip (L : layout) (T : tables) (K : id_lookups) (b : buffer)
    (p : Player) (s : slot_arg) (new_moves : list (string * Z))
    (Hv : Forall (valid_move_entry T K) new_moves) (Hlen : length new_moves = 4%nat)
    (Hin : 0 <= moves_offset L p s /\ moves_offset L p s + 8 <= Z.of_nat (length b)) :
  exists b', set_moves L T b p s new_moves = Ok b' /\
    moves L K b' p s = Ok (map fst (present_moves T new_moves)) /\
    pp_left L b' p s = Ok (map snd (present_moves T new_moves)) /\
    moves_with_pp L K b' p s = Ok (present_moves T new_moves) /\
    frame (outside (moves_offset L p s) (moves_offset L p s + 8)) b b'.
Proof.
  set (off := moves_offset L p s) in *.
  destruct (write_moves_spec T K b off 0 new_moves Hv) as (b' & E & F & R);
    [lia | rewrite Hlen; lia |].
  assert (Hslots : Forall2 (fun n mq => exists id, MOVE_IDS T (fst mq) = Some id /\
             get_byte b' (off + n) = Ok id /\ get_byte b' (off + n + 1) = Ok (snd mq) /\
             (id <> 0 -> MOVE_ID_LOOKUP K id = Ok (fst mq))) [0; 2; 4; 6] new_moves).
  { apply Forall2_same_length_lookup_2; [rewrite Hlen; reflexivity|].
    intros k n mq Hn Hmq.
    assert (Hk : n = Z.of_nat k * 2).
    { destruct k as [|[|[|[|k]]]]; simpl in Hn; try discriminate; injection Hn; lia. }
    destruct (R k mq Hmq) as (id & Hid & G0 & G1).
    destruct (proj1 (Forall_lookup _ _) Hv k mq Hmq) as (id' & Hid' & _ & _ & Lk).
    rewrite Hid in Hid'. injection Hid' as <-.
    exists id. split; [exact Hid|].
    replace (off + n) with (off + (0 + Z.of_nat k) * 2) by lia. auto. }
  destruct (readers_of_slots T K b' off _ _ Hslots) as (M & P & W).
  exists b'. unfold set_moves, moves, pp_left, moves_with_pp. fold off.
  split; [exact E|]. split; [exact M|]. split; [exact P|]. split; [exact W|].
  eapply frame_weaken; [|exact F]. unfold outside. rewrite Hlen. intros; lia.
Qed.

Lemma set_moves_roundtrip_witness :
  Forall (valid_move_entry sample_tables sample_lookups)
    [("Thunderbolt", 15); ("None", 0); ("Tackle", 35); ("None", 0)] /\
  length [("Thunderbolt", 15); ("None", 0); ("Tackle", 35); ("None", 0)] = 4%nat /\
  (0 <= moves_offset sample_layout P2 (Slot 1) /\
   moves_offset sample_layout P2 (Slot 1) + 8 <= Z.of_nat (length sample_buffer)) /\
  exists b', set_moves sample_layout sample_tables sample_buffer P2 (Slot 1)
               [("Thunderbolt", 15); ("None", 0); ("Tackle", 35); ("None", 0)] = Ok b' /\
    moves sample_layout sample_lookups b' P2 (Slot 1) =
      Ok (map fst (present_moves sample_tables
                     [("Thunderbolt", 15); ("None", 0); ("Tackle", 35); ("None", 0)])) /\
    pp_left sample_layout b' P2 (Slot 1) =
      Ok (map snd (present_moves sample_tables
                     [("Thunderbolt", 15); ("None", 0); ("Tackle", 35); ("None", 0)])) /\
    moves_with_pp sample_layout sample_lookups b' P2 (Slot 1) =
      Ok (present_moves sample_tables
            [("Thunderbolt", 15); ("None", 0); ("Tackle", 35); ("None", 0)]) /\
    frame (outside (moves_offset sample_layout P2 (Slot 1))
                   (moves_offset sample_layout P2 (Slot 1) + 8)) sample_buffer b'.
Proof.
  assert (Hv : Forall (valid_move_entry sample_tables sample_lookups)
                 [("Thunderbolt", 15); ("None", 0); ("Tackle", 35); ("None", 0)]).
  { repeat constructor; unfold valid_move_entry; simpl;
      (eexists; split; [reflexivity|]; split; [lia|]; split; [lia|]);
      intros H; first [reflexivity | exfalso; apply H; reflexivity]. }
  split; [exact Hv|]. split; [reflexivity|]. split; [unfold moves_offset; closed_arith|].
  apply set_moves_roundtrip; [exact Hv | reflexivity | unfold moves_offset; closed_arith].
Defined.

(** ** [Status] *)

(** The sleeping form of [Status.__repr__]. *)
Definition sleeping_repr (d : Z) : string := "Status(sleeping for " +:+ py_str_int d +:+ " turns)".

Definition repr_check (v : Z) : bool :=
  let r := Status.repr (Status.mk v) in
  Bool.eqb (String.eqb r "Status(healthy)") (v =? 0) &&
  Bool.eqb (String.eqb r (sleeping_repr (Z.land v 7)))
           (negb (v =? 0) && (Z.land v 120 =? 0)).

Lemma repr_check_all : all_below 256 repr_check = true.
Proof. vm_compute. reflexivity. Qed.

(** [Status.__repr__] over every status byte: it is ["Status(healthy)"]
    exactly for the byte 0, and it reports sleep, with the duration of
    bits 0-2, exactly for the nonzero bytes whose poison, burn, freeze and
    paralysis bits (3 to 6) are all clear; the byte 128, a zero-turn sleep
    with bit 7 set, is reported as sleeping for 0 turns. *)
Theorem status_repr_classification (v : Z) (Hv : 0 <= v < 256) :
  (Status.repr (Status.mk v) = "Status(healthy)" <-> v = 0) /\
  (Status.repr (Status.mk v) = sleeping_repr (Z.land v 7) <->
   v <> 0 /\ Z.land v 120 = 0).
Proof.
  pose proof (all_below_spec _ _ repr_check_all v Hv) as H.
  unfold repr_check in H. apply andb_true_iff in H as [H1 H2].
  apply Bool.eqb_prop in H1. apply Bool.eqb_prop in H2. split.
  - destruct (String.eqb_spec (Status.repr (Status.mk v)) "Status(healthy)");
      destruct (Z.eqb_spec v 0); simpl in H1; try discriminate; tauto.
  - destruct (String.eqb_spec (Status.repr (Status.mk v)) (sleeping_repr (Z.land v 7)));
      destruct (Z.eqb_spec v 0); destruct (Z.eqb_spec (Z.land v 120) 0);
      simpl in H2; try discriminate; tauto.
Qed.

Lemma status_repr_classification_witness :
  0 <= 128 < 256 /\
  (Status.repr (Status.mk 128) = "Status(healthy)" <-> 128 = 0) /\
  (Status.repr (Status.mk 128) = sleeping_repr (Z.land 128 7) <->
   128 <> 0 /\ Z.land 128 120 = 0).
Proof. split; [lia|]. apply status_repr_classification. lia. Defined.

Definition sleep_check (d : Z) : bool :=
  let s := Status.SLEEP d in
  let t := Status.SELF_INFLICTED_SLEEP d in
  (Status.sleep_duration s =? d) && Bool.eqb (Status.asleep s) (negb (d =? 0)) &&
  Bool.eqb (Status.healthy s) (d =? 0) &&
  String.eqb (Status.repr s) (if d =? 0 then "Status(healthy)" else sleeping_repr d) &&
  (Status.sleep_duration t =? d) && Bool.eqb (Status.asleep t) (negb (d =? 0)) &&
  negb (Status.healthy t) && String.eqb (Status.repr t) (sleeping_repr d) &&
  negb (Status.poisoned t || Status.burned t || Status.frozen t || Status.paralyzed t).

Lemma sleep_check_all : all_below 8 sleep_check = true.
Proof. vm_compute. reflexivity. Qed.

(** [Status.SLEEP(d)] and [Status.SELF_INFLICTED_SLEEP(d)] for a duration
    in [0, 7]: both report the duration [d] and are asleep exactly when
    [d] is not 0.  [SLEEP(0)] is the healthy status, while
    [SELF_INFLICTED_SLEEP(d)] is never healthy, has none of the other
    conditions, and is printed as sleeping for [d] turns even for [d = 0]. *)
Theorem sleep_constructors (d : Z) (Hd : 0 <= d <= 7) :
  Status.sleep_duration (Status.SLEEP d) = d /\
  Status.asleep (Status.SLEEP d) = negb (d =? 0) /\
  Status.healthy (Status.SLEEP d) = (d =? 0) /\
  Status.repr (Status.SLEEP d) = (if d =? 0 then "Status(healthy)" else sleeping_repr d) /\
  Status.sleep_duration (Status.SELF_INFLICTED_SLEEP d) = d /\
  Status.asleep (Status.SELF_INFLICTED_SLEEP d) = negb (d =? 0) /\
  Status.healthy (Status.SELF_INFLICTED_SLEEP d) = false /\
  Status.repr (Status.SELF_INFLICTED_SLEEP d) = sleeping_repr d /\
  Status.poisoned (Status.SELF_INFLICTED_SLEEP d) = false /\
  Status.burned (Status.SELF_INFLICTED_SLEEP d) = false /\
  Status.frozen (Status.SELF_INFLICTED_SLEEP d) = false /\
  Status.paralyzed (Status.SELF_INFLICTED_SLEEP d) = false.
Proof.
  pose proof (all_below_spec _ _ sleep_check_all d ltac:(simpl; lia)) as H.
  unfold sleep_check in H. cbv zeta in H. repeat rewrite andb_true_iff in H.
  destruct H as [[[[[[[[H1 H2] H3] H4] H5] H6] H7] H8] H9].
  apply Z.eqb_eq in H1. apply Bool.eqb_prop in H2. apply Bool.eqb_prop in H3.
  apply String.eqb_eq in H4. apply Z.eqb_eq in H5. apply Bool.eqb_prop in H6.
  apply negb_true_iff in H7. apply String.eqb_eq in H8. apply negb_true_iff in H9.
  repeat rewrite orb_false_iff in H9. destruct H9 as [[[P B] F] Q].
  repeat split; assumption.
Qed.

Lemma sleep_constructors_witness :
  0 <= 0 <= 7 /\
  Status.sleep_duration (Status.SLEEP 0) = 0 /\
  Status.asleep (Status.SLEEP 0) = negb (0 =? 0) /\
  Status.healthy (Status.SLEEP 0) = (0 =? 0) /\
  Status.repr (Status.SLEEP 0) = (if 0 =? 0 then "Status(healthy)" else sleeping_repr 0) /\
  Status.sleep_duration (Status.SELF_INFLICTED_SLEEP 0) = 0 /\
  Status.asleep (Status.SELF_INFLICTED_SLEEP 0) = negb (0 =? 0) /\
  Status.healthy (Status.SELF_INFLICTED_SLEEP 0) = false /\
  Status.repr (Status.SELF_INFLICTED_SLEEP 0) = sleeping_repr 0 /\
  Status.poisoned (Status.SELF_INFLICTED_SLEEP 0) = false /\
  Status.burned (Status.SELF_INFLICTED_SLEEP 0) = false /\
  Status.frozen (Status.SELF_INFLICTED_SLEEP 0) = false /\
  Status.paralyzed (Status.SELF_INFLICTED_SLEEP 0) = false.
Proof. split; [lia|]. apply sleep_constructors. lia. Defined.

(** ** The two choice readers *)

Lemma read_choices_seq buf s m :
  (s <= length buf)%nat ->
  read_choices buf (seq s m) =
  if (s + m <=? length buf)%nat then Ok (firstn m (drop s buf)) else Raise IndexError.
Proof.
  revert s. induction m as [|m IH]; intros s Hs; simpl.
  - destruct (Nat.leb_spec (s + 0) (length buf)); [reflexivity | lia].
  - unfold py_index. rewrite Nat2Z.id.
    destruct (Z.leb_spec 0 (Z.of_nat s)); [|lia].
    destruct (buf !! s) as [x|] eqn:Ex.
    + pose proof (lookup_lt_Some _ _ _ Ex).
      simpl. rewrite IH by lia.
      replace (S s + m)%nat with (s + S m)%nat by lia.
      destruct (Nat.leb_spec (s + S m) (length buf)); simpl; [|reflexivity].
      rewrite (drop_S buf x s Ex). reflexivity.
    + apply lookup_ge_None in Ex.
      destruct (Nat.leb_spec (s + S m) (length buf)); [lia|]. reflexivity.
Qed.

(** [possible_choices] and [possible_choices_raw] agree whenever libpkmn
    enumerates a nonzero number of choices: the same battle afterwards,
    and the same outcome, the first [n] choices of the buffer or
    [IndexError] when [n] exceeds the buffer. *)
Theorem choice_readers_agree (battle : Battle) (player : Player) (r : Result)
    (Hn : snd (_fill_choice_buffer battle player r) <> 0) :
  possible_choices battle player r = possible_choices_raw battle player r.
Proof.
  unfold possible_choices, possible_choices_raw.
  destruct (_fill_choice_buffer battle player r) as [bt n]. simpl in Hn.
  rewrite (proj2 (Z.eqb_neq _ _) Hn).
  rewrite read_choices_seq by lia. simpl drop. rewrite Nat.add_0_l.
  destruct (Z.to_nat n <=? length (_choice_buf bt))%nat; reflexivity.
Qed.

(** A battle over the zero buffer whose engine enumerates three choices. *)
Definition three_choice_battle : Battle :=
  mkBattle (sample_lib 0 3) sample_buffer (repeat 0 9) [].

Lemma choice_readers_agree_witness :
  snd (_fill_choice_buffer three_choice_battle P2 (mkResult 0)) <> 0 /\
  possible_choices three_choice_battle P2 (mkResult 0) =
    possible_choices_raw three_choice_battle P2 (mkResult 0).
Proof.
  assert (Hn : snd (_fill_choice_buffer three_choice_battle P2 (mkResult 0)) <> 0)
    by (vm_compute; discriminate).
  split; [exact Hn|]. apply choice_readers_agree. exact Hn.
Defined.

(** A two-byte slice write of [pack_u16_as_bytes v] puts the low byte at
    [o] and the high byte at [o + 1]. *)
Lemma set_u16_bytes b o v b' :
  set_bytes b o (pack_u16_as_bytes v) = Ok b' ->
  0 <= o /\ get_byte b' o = Ok (Z.land v 255) /\
  get_byte b' (o + 1) = Ok (Z.land (Z.shiftr v 8) 255).
Proof.
  intros E. unfold pack_u16_as_bytes in E. simpl in E.
  destruct (set_byte b o _) as [b1|e] eqn:E1; simpl in E; [|discriminate].
  destruct (set_byte b1 (o + 1) _) as [b2|e] eqn:E2; simpl in E; [|discriminate].
  injection E as <-.
  pose proof (set_byte_inv _ _ _ _ E1) as (Ho & _).
  pose proof (set_byte_lookup _ _ _ _ E1) as L1.
  pose proof (set_byte_lookup _ _ _ _ E2) as L2.
  pose proof (set_byte_frame _ _ _ _ E2) as F2.
  split; [exact Ho|]. split.
  - rewrite (get_byte_frame _ _ _ _ F2) by (cbv beta; lia).
    apply get_byte_of_lookup; assumption.
  - apply get_byte_of_lookup; [lia | exact L2].
Qed.

Lemma set_u16_read b o v b' :
  0 <= v < 65536 -> set_bytes b o (pack_u16_as_bytes v) = Ok b' -> read_u16 b' o = Ok v.
Proof.
  intros Hv E. apply set_u16_bytes in E as (_ & G0 & G1).
  unfold read_u16. rewrite G0, G1. simpl. rewrite u16_split by exact Hv. reflexivity.
Qed.

Lemma small_u16_bytes v :
  0 <= v < 256 -> Z.land v 255 = v /\ Z.land (Z.shiftr v 8) 255 = 0.
Proof.
  intros Hv. change 255 with (Z.ones 8). rewrite !Z.land_ones, Z.shiftr_div_pow2 by lia.
  rewrite Z.mod_small by lia. rewrite Z.div_small by lia. split; reflexivity.
Qed.

(** After a successful Showdown-mode construction whose layout puts
    [last_damage] right after [turn] and [last_selected_indexes] right after
    [last_damage] (the offsets the constructor writes them at), [turn] and
    [last_damage] read back the constructor's arguments, player 1's
    [last_used_move_index] reads [p1_move_idx], and player 2's reads the
    u16 starting at the high byte of player 1's index, [256 * p2_move_idx]
    for indexes below 256. *)
Theorem construction_battle_fields (L : layout) (LX : layout_ext) (T : tables)
    lib rnd p1_team p2_team p1_lsm p1_lum p2_lsm p2_lum
    start_turn last_damage_arg p1_move_idx p2_move_idx seed battle
    (H : Battle_init L T lib rnd p1_team p2_team p1_lsm p1_lum p2_lsm p2_lum
           start_turn last_damage_arg p1_move_idx p2_move_idx seed = Ok battle)
    (Hsd : IS_SHOWDOWN_COMPATIBLE lib = 1)
    (Hld : Battle_last_damage LX = Battle_turn L + 2)
    (Hli : Battle_last_selected_indexes LX = Battle_turn L + 4)
    (Ht : 0 <= start_turn < 65536) (Hd : 0 <= last_damage_arg < 65536)
    (H1 : 0 <= p1_move_idx < 256) (H2 : 0 <= p2_move_idx < 256) :
  turn L (_pkmn_battle battle) = Ok start_turn /\
  last_damage LX (_pkmn_battle battle) = Ok last_damage_arg /\
  last_used_move_index LX (_pkmn_battle battle) P1 = Ok p1_move_idx /\
  last_used_move_index LX (_pkmn_battle battle) P2 = Ok (256 * p2_move_idx).
Proof.
  unfold Battle_init in H. peel H. injection H as <-. simpl.
  rewrite (proj2 (Z.eqb_eq _ _) Hsd) in Ha3. peel Ha3.
  unfold ShowdownRNG_initialize in Ha3.
  pose proof (set_u16_read _ _ _ _ Ht Ha1) as Rt.
  pose proof (set_u16_read _ _ _ _ Hd Ha2) as Rd.
  pose proof (set_u16_read _ _ _ _ (ltac:(lia) : 0 <= p1_move_idx < 65536) Ha4) as R1.
  pose proof (set_u16_bytes _ _ _ _ Ha4) as (Ho & _ & G1).
  pose proof (set_u16_bytes _ _ _ _ Ha5) as (_ & G2 & _).
  destruct (small_u16_bytes _ H1) as [_ Z1]. destruct (small_u16_bytes _ H2) as [Z2 _].
  rewrite Z1 in G1. rewrite Z2 in G2.
  pose proof (set_bytes_frame _ _ _ _ Ha2) as F2.
  pose proof (set_bytes_frame _ _ _ _ Ha4) as F4.
  pose proof (set_bytes_frame _ _ _ _ Ha5) as F5.
  pose proof (set_bytes_frame _ _ _ _ Ha3) as F3.
  unfold turn, last_damage, last_used_move_index. rewrite Hld, Hli. simpl player_int.
  replace (Battle_turn L + 4) with (Battle_turn L + 2 + 2) by lia.
  split; [|split; [|split]].
  - rewrite <- Rt. apply (read_u16_frame (fun j => j < Battle_turn L + 2));
      [chain_frames | cbv beta; lia | cbv beta; lia].
  - rewrite <- Rd. apply (read_u16_frame (fun j => j < Battle_turn L + 2 + 2));
      [chain_frames | cbv beta; lia | cbv beta; lia].
  - rewrite Z.add_0_r, <- R1.
    apply (read_u16_frame (fun j => j < Battle_turn L + 2 + 2 + 2));
      [chain_frames | cbv beta; lia | cbv beta; lia].
  - unfold read_u16.
    assert (F : frame (fun j => j < Battle_turn L + 2 + 2 + 2) a4 a3) by chain_frames.
    rewrite (get_byte_frame _ _ _ _ F) by (cbv beta; lia).
    assert (F' : frame (fun j => j < Battle_turn L + 2 + 2 + 2 + 2) a5 a3) by chain_frames.
    rewrite (get_byte_frame _ _ _ _ F') by (cbv beta; lia).
    replace (Battle_turn L + 2 + 2 + 1 + 1) with (Battle_turn L + 2 + 2 + 2) by lia.
    rewrite G1, G2. reflexivity.
Qed.

Definition showdown_battle_result : exc Battle :=
  Battle_init sample_layout sample_tables (sample_lib 1 0) sample_rnd
    [pikachu] [pikachu] "None" "None" "None" "None" 7 55 2 3 (SeedInt 99).

Definition showdown_battle : Battle :=
  match showdown_battle_result with
  | Ok bt => bt
  | Raise _ => mkBattle (sample_lib 1 0) [] [] []
  end.

Lemma construction_battle_fields_witness :
  (Battle_init sample_layout sample_tables (sample_lib 1 0) sample_rnd
     [pikachu] [pikachu] "None" "None" "None" "None" 7 55 2 3 (SeedInt 99)
   = Ok showdown_battle /\
   IS_SHOWDOWN_COMPATIBLE (sample_lib 1 0) = 1 /\
   Battle_last_damage sample_layout_ext = Battle_turn sample_layout + 2 /\
   Battle_last_selected_indexes sample_layout_ext = Battle_turn sample_layout + 4) /\
  turn sample_layout (_pkmn_battle showdown_battle) = Ok 7 /\
  last_damage sample_layout_ext (_pkmn_battle showdown_battle) = Ok 55 /\
  last_used_move_index sample_layout_ext (_pkmn_battle showdown_battle) P1 = Ok 2 /\
  last_used_move_index sample_layout_ext (_pkmn_battle showdown_battle) P2 = Ok (256 * 3).
Proof.
  assert (H : Battle_init sample_layout sample_tables (sample_lib 1 0) sample_rnd
     [pikachu] [pikachu] "None" "None" "None" "None" 7 55 2 3 (SeedInt 99)
     = Ok showdown_battle) by (vm_compute; reflexivity).
  split; [split; [exact H | split; [reflexivity | split; reflexivity]]|].
  apply (construction_battle_fields sample_layout sample_layout_ext sample_tables
           (sample_lib 1 0) sample_rnd [pikachu] [pikachu] "None" "None" "None" "None"
           7 55 2 3 (SeedInt 99) showdown_battle H); first [reflexivity | lia].
Defined.

(** The two players' [last_used_move_index] reads overlap: player 2's
    u16 starts at [last_selected_indexes + 1], the high byte of player 1's,
    so on a buffer of bytes the low byte of player 2's value is the high
    byte of player 1's. *)
Theorem last_used_move_index_overlap (LX : layout_ext) (b : buffer) (v1 v2 : Z)
    (Hbytes : Forall (fun x => 0 <= x < 256) b)
    (H1 : last_used_move_index LX b P1 = Ok v1)
    (H2 : last_used_move_index LX b P2 = Ok v2) :
  v2 mod 256 = v1 / 256.
Proof.
  unfold last_used_move_index, read_u16 in *. simpl player_int in *.
  rewrite Z.add_0_r in H1.
  peel H1. peel H2. injection H1 as <-. injection H2 as <-.
  rewrite Ha0 in Ha1. injection Ha1 as <-.
  apply get_byte_inv in Ha as [_ La]. apply get_byte_inv in Ha0 as [_ Lb].
  apply get_byte_inv in Ha2 as [_ Lc].
  pose proof (Forall_lookup_1 _ _ _ _ Hbytes La).
  pose proof (Forall_lookup_1 _ _ _ _ Hbytes Lb).
  pose proof (Forall_lookup_1 _ _ _ _ Hbytes Lc).
  cbv beta in *. unfold unpack_u16_from_bytes.
  pose proof (Z.div_mod (a + 256 * a0) 256 ltac:(lia)).
  pose proof (Z.mod_pos_bound (a + 256 * a0) 256 ltac:(lia)).
  pose proof (Z.div_mod (a0 + 256 * a2) 256 ltac:(lia)).
  pose proof (Z.mod_pos_bound (a0 + 256 * a2) 256 ltac:(lia)).
  lia.
Qed.

Definition overlap_buffer : buffer :=
  <[372%nat := 5]> (<[373%nat := 1]> (<[374%nat := 7]> sample_buffer)).

Lemma last_used_move_index_overlap_witness :
  Forall (fun x => 0 <= x < 256) overlap_buffer /\
  last_used_move_index sample_layout_ext overlap_buffer P1 = Ok 261 /\
  last_used_move_index sample_layout_ext overlap_buffer P2 = Ok 1793 /\
  1793 mod 256 = 261 / 256.
Proof.
  assert (Hb : Forall (fun x => 0 <= x < 256) overlap_buffer)
    by (apply (bool_decide_unpack _); vm_compute; reflexivity).
  assert (H1 : last_used_move_index sample_layout_ext overlap_buffer P1 = Ok 261)
    by (vm_compute; reflexivity).
  assert (H2 : last_used_move_index sample_layout_ext overlap_buffer P2 = Ok 1793)
    by (vm_compute; reflexivity).
  split; [exact Hb | split; [exact H1 | split; [exact H2|]]].
  exact (last_used_move_index_overlap sample_layout_ext overlap_buffer 261 1793 Hb H1 H2).
Defined.
